(** * TalentXAI: structured-output recovery, fallbacks, session state and the
    voice pipeline, embedded from [entxp.py] and [voice_pipeline.py].

    Python [str] values are sequences of Unicode code points; they are modelled
    as [list N].  Python objects that travel through [json.loads] and the
    session state ([None], [bool], [int], [float], [str], [list], [dict]) are
    modelled by the inductive type [value].  Remote services (the hosted
    model, the agent, object storage, the transcription service) are inputs
    of the functions that call them, and the calls made are recorded in a
    trace. *)

From Stdlib Require Import ZArith NArith List Bool Lia String Ascii.
From stdpp Require Import base list gmap.
Import ListNotations.

Local Open Scope N_scope.

(** ** Python strings *)

Abbreviation str := (list N).

Definition chr (a : ascii) : N := N_of_ascii a.
Arguments chr a%_char.

(** An ASCII literal of the source, as a Python string. *)
Definition lit (s : string) : str := List.map N_of_ascii (list_ascii_of_string s).
Arguments lit s%_string.

Fixpoint eqb_str (a b : str) : bool :=
  match a, b with
  | [], [] => true
  | x :: a', y :: b' => (x =? y) && eqb_str a' b'
  | _, _ => false
  end.

(** [str.isspace] for one code point (CPython's [_PyUnicode_IsWhitespace]). *)
Definition isspace (c : N) : bool :=
  ((9 <=? c) && (c <=? 13)) || ((28 <=? c) && (c <=? 32))
  || (c =? 133) || (c =? 160) || (c =? 5760)
  || ((8192 <=? c) && (c <=? 8202))
  || (c =? 8232) || (c =? 8233) || (c =? 8239) || (c =? 8287) || (c =? 12288).

Fixpoint lstrip (s : str) : str :=
  match s with
  | c :: s' => if isspace c then lstrip s' else s
  | [] => []
  end.

Definition rstrip (s : str) : str := rev (lstrip (rev s)).

(** [s.strip()] *)
Definition strip (s : str) : str := rstrip (lstrip s).

(** [s.startswith(p)] *)
Fixpoint startswith (p s : str) : bool :=
  match p, s with
  | [], _ => true
  | x :: p', y :: s' => (x =? y) && startswith p' s'
  | _ :: _, [] => false
  end.

(** [s.find(sub)]: the lowest index where [sub] occurs, [None] for -1. *)
Fixpoint find (sub s : str) : option nat :=
  if startswith sub s then Some 0%nat
  else match s with
       | [] => None
       | _ :: s' => option_map S (find sub s')
       end.

(** [sub in s] *)
Definition contains (sub s : str) : bool :=
  match find sub s with Some _ => true | None => false end.

(** [s.split(sep)] for a non-empty separator: occurrences are found from the
    left and do not overlap.  [skip] counts the characters of a separator that
    was just matched and is still to be passed over; [cur] is the current
    piece, reversed. *)
Fixpoint split_go (sep : str) (skip : nat) (s : str) (cur : str) : list str :=
  match s with
  | [] => [rev cur]
  | c :: s' =>
    match skip with
    | S k => split_go sep k s' cur
    | O =>
      if startswith sep s
      then rev cur :: split_go sep (length sep - 1) s' []
      else split_go sep 0 s' (c :: cur)
    end
  end.

Definition split (sep s : str) : list str := split_go sep 0 s [].

(** [s[i:j]] for [0 <= i <= j] *)
Definition slice (s : str) (i j : nat) : str := take (j - i) (drop i s).

Arguments chr : simpl never.
Arguments lit : simpl never.

(** ** UTF-8: [b.decode("utf-8")], strict; [None] is [UnicodeDecodeError] *)

Definition is_cont (b : N) : bool := (128 <=? b) && (b <=? 191).

Definition cont (b : N) : N := b - 128.

Fixpoint utf8_decode (bs : list N) : option str :=
  match bs with
  | [] => Some []
  | b0 :: r0 =>
    if b0 <? 128 then option_map (cons b0) (utf8_decode r0)
    else if (194 <=? b0) && (b0 <=? 223) then
      match r0 with
      | b1 :: r1 =>
        if is_cont b1
        then option_map (cons ((b0 - 192) * 64 + cont b1)) (utf8_decode r1)
        else None
      | _ => None
      end
    else if (224 <=? b0) && (b0 <=? 239) then
      match r0 with
      | b1 :: b2 :: r2 =>
        if is_cont b1 && is_cont b2
           && (negb (b0 =? 224) || (160 <=? b1))
           && (negb (b0 =? 237) || (b1 <=? 159))
        then option_map (cons ((b0 - 224) * 4096 + cont b1 * 64 + cont b2))
                        (utf8_decode r2)
        else None
      | _ => None
      end
    else if (240 <=? b0) && (b0 <=? 244) then
      match r0 with
      | b1 :: b2 :: b3 :: r3 =>
        if is_cont b1 && is_cont b2 && is_cont b3
           && (negb (b0 =? 240) || (144 <=? b1))
           && (negb (b0 =? 244) || (b1 <=? 143))
        then option_map
               (cons ((b0 - 240) * 262144 + cont b1 * 4096 + cont b2 * 64 + cont b3))
               (utf8_decode r3)
        else None
      | _ => None
      end
    else None
  end.

(** A literal of the source that holds non-ASCII characters: the file is
    UTF-8, so the literal's bytes are decoded. *)
Definition utf8_lit (s : string) : str :=
  match utf8_decode (lit s) with Some t => t | None => [] end.
Arguments utf8_lit s%_string.
Arguments utf8_lit : simpl never.


(** ** Python values *)

(** The objects [json.loads] builds, which are also the objects this program
    keeps in its session state.  A [float] is kept as the text it was read
    from; a [dict] is kept in insertion order. *)
#[local] Unset Elimination Schemes.
Inductive value : Type :=
| VNone
| VBool (b : bool)
| VInt (n : Z)
| VFloat (lexeme : str)
| VStr (s : str)
| VList (l : list value)
| VDict (d : list (str * value)).
#[local] Set Elimination Schemes.

(** [d[k] = v]: an existing key keeps its place, a new key goes last. *)
Fixpoint dict_set (k : str) (v : value) (d : list (str * value)) : list (str * value) :=
  match d with
  | [] => [(k, v)]
  | (k', v') :: d' =>
    if eqb_str k k' then (k, v) :: d' else (k', v') :: dict_set k v d'
  end.

(** [d.get(k)] *)
Fixpoint dict_get (k : str) (d : list (str * value)) : option value :=
  match d with
  | [] => None
  | (k', v') :: d' => if eqb_str k k' then Some v' else dict_get k d'
  end.

(** ** [json.loads]

    The decoder of CPython's [json] package (the scanner of [_json.c]), which
    [safe_json_from_model] calls.  It works on a suffix of the text and gives
    back what follows the value it read.  Nested values recurse, so the
    scanner carries fuel; [json_loads] provides more than any text uses
    ([decoder_fuel_enough]).  The interpreter's own limits, on the depth of
    recursion and on the number of digits of an integer literal, are not
    modelled. *)

Inductive outcome (A : Type) : Type :=
| Done (a : A) (rest : str)
| Bad
| OutOfFuel.
Arguments Done {A} a rest.
Arguments Bad {A}.
Arguments OutOfFuel {A}.

(** JSON white space: space, tab, line feed, carriage return. *)
Definition json_ws (c : N) : bool :=
  (c =? chr " ") || (c =? 9) || (c =? 10) || (c =? 13).

Fixpoint skip_ws (s : str) : str :=
  match s with
  | c :: s' => if json_ws c then skip_ws s' else s
  | [] => []
  end.

Definition is_digit (c : N) : bool := (chr "0" <=? c) && (c <=? chr "9").

Definition hex_digit (c : N) : option N :=
  if is_digit c then Some (c - chr "0")
  else if (chr "a" <=? c) && (c <=? chr "f") then Some (c - chr "a" + 10)
  else if (chr "A" <=? c) && (c <=? chr "F") then Some (c - chr "A" + 10)
  else None.

Definition hex4 (h1 h2 h3 h4 : N) : option N :=
  match hex_digit h1, hex_digit h2, hex_digit h3, hex_digit h4 with
  | Some a, Some b, Some c, Some d => Some (((a * 16 + b) * 16 + c) * 16 + d)
  | _, _, _, _ => None
  end.

Definition is_high_surrogate (c : N) : bool := (55296 <=? c) && (c <=? 56319).
Definition is_low_surrogate (c : N) : bool := (56320 <=? c) && (c <=? 57343).
Definition join_surrogates (hi lo : N) : N :=
  65536 + ((hi - 55296) * 1024 + (lo - 56320)).

(** The one-character escapes after a backslash. *)
Definition unescape (c : N) : option N :=
  if (c =? 34) || (c =? 92) || (c =? chr "/") then Some c
  else if c =? chr "b" then Some 8
  else if c =? chr "f" then Some 12
  else if c =? chr "n" then Some 10
  else if c =? chr "r" then Some 13
  else if c =? chr "t" then Some 9
  else None.

(** [scanstring] in strict mode, from just after the opening quote; [acc] is
    the content read so far, reversed. *)
Fixpoint scanstring (s : str) (acc : str) : outcome str :=
  match s with
  | [] => Bad
  | c :: s1 =>
    if c =? 34 then Done (rev acc) s1
    else if c =? 92 then
      match s1 with
      | [] => Bad
      | e :: s2 =>
        if e =? chr "u" then
          match s2 with
          | h1 :: h2 :: h3 :: h4 :: s3 =>
            match hex4 h1 h2 h3 h4 with
            | None => Bad
            | Some cp =>
              if is_high_surrogate cp then
                match s3 with
                | b :: u :: k1 :: k2 :: k3 :: k4 :: s4 =>
                  if (b =? 92) && (u =? chr "u") then
                    match hex4 k1 k2 k3 k4 with
                    | None => Bad
                    | Some cp2 =>
                      if is_low_surrogate cp2
                      then scanstring s4 (join_surrogates cp cp2 :: acc)
                      else scanstring s3 (cp :: acc)
                    end
                  else scanstring s3 (cp :: acc)
                | _ => scanstring s3 (cp :: acc)
                end
              else scanstring s3 (cp :: acc)
            end
          | _ => Bad
          end
        else
          match unescape e with
          | Some x => scanstring s2 (x :: acc)
          | None => Bad
          end
      end
    else if c <=? 31 then Bad
    else scanstring s1 (c :: acc)
  end.

(** The longest run of decimal digits at the head of [s], and what follows. *)
Fixpoint span_digits (s : str) : str * str :=
  match s with
  | c :: s' =>
    if is_digit c then let (ds, r) := span_digits s' in (c :: ds, r) else ([], s)
  | [] => ([], [])
  end.

(** [int(text)] for a run of decimal digits. *)
Definition int_of_digits (ds : str) : Z :=
  fold_left (fun a d => (a * 10 + Z.of_N (d - chr "0"))%Z) ds 0%Z.

(** The fraction [.digits] when present. *)
Definition scan_frac (s : str) : str * str :=
  match s with
  | dot :: d :: s' =>
    if (dot =? chr ".") && is_digit d
    then let (ds, r) := span_digits s' in (dot :: d :: ds, r)
    else ([], s)
  | _ => ([], s)
  end.

(** The exponent [e], an optional sign and digits, when all present. *)
Definition scan_exp (s : str) : str * str :=
  match s with
  | e :: s1 =>
    if (e =? chr "e") || (e =? chr "E") then
      let (sign, s2) :=
        match s1 with
        | g :: s1' => if (g =? chr "-") || (g =? chr "+") then ([g], s1') else ([], s1)
        | [] => ([], s1)
        end in
      match span_digits s2 with
      | ([], _) => ([], s)
      | (ds, r) => (e :: sign ++ ds, r)
      end
    else ([], s)
  | [] => ([], s)
  end.

(** [_match_number]: an integer part, then an optional fraction and an
    optional exponent; a text with either is a float, else an int. *)
Definition match_number (s : str) : outcome value :=
  let (neg, s1) :=
    match s with
    | c :: s' => if c =? chr "-" then (true, s') else (false, s)
    | [] => (false, s)
    end in
  match s1 with
  | [] => Bad
  | d :: s2 =>
    if (chr "1" <=? d) && (d <=? chr "9") || (d =? chr "0") then
      let (ds, s3) := if d =? chr "0" then ([], s2) else span_digits s2 in
      let (fr, s4) := scan_frac s3 in
      let (ex, s5) := scan_exp s4 in
      match fr ++ ex with
      | [] =>
        let n := int_of_digits (d :: ds) in
        Done (VInt (if neg then (- n)%Z else n)) s5
      | _ => Done (VFloat ((if neg then [chr "-"] else []) ++ d :: ds ++ fr ++ ex)) s5
      end
    else Bad
  end.

(** [scan_once], with the loops of [_parse_object] and [_parse_array]. *)
Fixpoint scan_once (fuel : nat) (s : str) {struct fuel} : outcome value :=
  match fuel with
  | O => OutOfFuel
  | S f =>
    match s with
    | [] => Bad
    | c :: s' =>
      if c =? 34 then
        match scanstring s' [] with
        | Done x r => Done (VStr x) r
        | Bad => Bad
        | OutOfFuel => OutOfFuel
        end
      else if c =? chr "{" then
        match skip_ws s' with
        | c1 :: s1 =>
          if c1 =? chr "}" then Done (VDict []) s1
          else object_members f (c1 :: s1) []
        | [] => Bad
        end
      else if c =? chr "[" then
        match skip_ws s' with
        | c1 :: s1 =>
          if c1 =? chr "]" then Done (VList []) s1
          else array_items f (c1 :: s1) []
        | [] => Bad
        end
      else if (c =? chr "n") && startswith (lit "ull") s' then Done VNone (drop 3 s')
      else if (c =? chr "t") && startswith (lit "rue") s' then Done (VBool true) (drop 3 s')
      else if (c =? chr "f") && startswith (lit "alse") s' then Done (VBool false) (drop 4 s')
      else if (c =? chr "N") && startswith (lit "aN") s' then Done (VFloat (lit "NaN")) (drop 2 s')
      else if (c =? chr "I") && startswith (lit "nfinity") s'
      then Done (VFloat (lit "Infinity")) (drop 7 s')
      else if (c =? chr "-") && startswith (lit "Infinity") s'
      then Done (VFloat (lit "-Infinity")) (drop 8 s')
      else match_number s
    end
  end

with object_members (fuel : nat) (s : str) (acc : list (str * value))
       {struct fuel} : outcome value :=
  match fuel with
  | O => OutOfFuel
  | S f =>
    match s with
    | [] => Bad
    | q :: s1 =>
      if q =? 34 then
        match scanstring s1 [] with
        | Done key s2 =>
          match skip_ws s2 with
          | col :: s3 =>
            if col =? chr ":" then
              match scan_once f (skip_ws s3) with
              | Done v s4 =>
                match skip_ws s4 with
                | d :: s5 =>
                  if d =? chr "}" then Done (VDict (dict_set key v acc)) s5
                  else if d =? chr ","
                  then object_members f (skip_ws s5) (dict_set key v acc)
                  else Bad
                | [] => Bad
                end
              | Bad => Bad
              | OutOfFuel => OutOfFuel
              end
            else Bad
          | [] => Bad
          end
        | Bad => Bad
        | OutOfFuel => OutOfFuel
        end
      else Bad
    end
  end

with array_items (fuel : nat) (s : str) (acc : list value)
       {struct fuel} : outcome value :=
  match fuel with
  | O => OutOfFuel
  | S f =>
    match scan_once f s with
    | Done v s1 =>
      match skip_ws s1 with
      | d :: s2 =>
        if d =? chr "]" then Done (VList (rev (v :: acc))) s2
        else if d =? chr ","
        then array_items f (skip_ws s2) (v :: acc)
        else Bad
      | [] => Bad
      end
    | Bad => Bad
    | OutOfFuel => OutOfFuel
    end
  end.

(** [json.loads(s)]: white space, one value, white space, end of text;
    [None] stands for the [JSONDecodeError] raised otherwise. *)
Definition json_loads (s : str) : option value :=
  match scan_once (2 * length s + 1) (skip_ws s) with
  | Done v rest =>
    match skip_ws rest with
    | [] => Some v
    | _ :: _ => None
    end
  | _ => None
  end.

(** ** Exceptions, results and traces *)

(** The exceptions this program can meet; all are subclasses of [Exception],
    so [except Exception] catches each of them.  [Hang] is not an exception:
    it marks the polling loop of the voice pipeline when it has used every
    answer its environment provides and still waits; that loop runs under no
    handler. *)
Inductive exn : Type :=
| ValueError (msg : str)
| RuntimeError (msg : str)
| TypeError
| KeyError
| IndexError
| AttributeError
| ZeroDivisionError
| WaveError
| UnicodeDecodeError
| JSONDecodeError
| ServiceError
| NameError (name : string)
| Unmodelled
| Hang.

Inductive result (A : Type) : Type :=
| Ok (a : A)
| Raise (e : exn).
Arguments Ok {A} a.
Arguments Raise {A} e.

(** What a run does that can be seen from outside: calls to remote services
    and messages shown to the user. *)
Inductive prompt : Type :=
| RolesPrompt (profile_text : str)
| SimulationPrompt (role_name fit_reason : value)
| IdentityPrompt (identity_data : value)
| ConfidencePrompt (conf_data : value).

Inductive event : Type :=
| EvBedrock (p : prompt)
| EvToast (msg : str)
| EvWarning (msg : str)
| EvSuccess (msg : str)
| EvS3Upload (local_path bucket key : str)
| EvStartJob (job_name media_uri : str)
| EvGetJob (job_name : str)
| EvS3Get (bucket key : str)
| EvInvokeAgent (session_id input_text : str)
| EvPolly (text : str).

(** A computation with a trace: the events so far and how it ended. *)
Definition M (A : Type) : Type := list event * result A.

Definition ret {A} (a : A) : M A := ([], Ok a).
Definition raise {A} (e : exn) : M A := ([], Raise e).
Definition emit (ev : event) : M unit := ([ev], Ok tt).

(** A call to a remote service: the call is recorded, the environment gives
    its answer. *)
Definition call {A} (ev : event) (answer : result A) : M A := ([ev], answer).

Definition bind {A B} (m : M A) (k : A -> M B) : M B :=
  match m with
  | (t, Ok a) => let (t', r) := k a in (t ++ t', r)
  | (t, Raise e) => (t, Raise e)
  end.

Notation "'let*' x ':=' m 'in' k" := (bind m (fun x => k))
  (at level 10, x name, m at level 100, k at level 200).

(** A step that has no effect, only a result. *)
Definition lift {A} (r : result A) : M A := ([], r).

(** [try: body  except Exception as e: handler e] *)
Definition try_except {A} (body : M A) (handler : exn -> M A) : M A :=
  match body with
  | (t, Ok a) => (t, Ok a)
  | (t, Raise e) => let (t', r) := handler e in (t ++ t', r)
  end.

(** A literal of the examples in which ['] stands for the double quote. *)
Definition jlit (s : string) : str :=
  List.map (fun c => if c =? 39 then 34 else c) (lit s).
Arguments jlit s%_string.
Arguments jlit : simpl never.

(** ** [entxp.py]: structured-output recovery *)

(** Strategy 2, the loop over the pieces between fence markers. *)
Fixpoint fence_parts (parts : list str) : option value :=
  match parts with
  | [] => None
  | part :: parts' =>
    let candidate := strip part in
    if startswith (lit "[") candidate || startswith (lit "{") candidate then
      match json_loads candidate with
      | Some v => Some v
      | None => fence_parts parts'
      end
    else fence_parts parts'
  end.

Definition fence_strategy (raw : str) : option value :=
  if contains (lit "```") raw then fence_parts (split (lit "```") raw) else None.

(** Strategy 3, the inner loop [for end in range(start + 1, len(raw))]. *)
Fixpoint scan_ends (raw : str) (start : nat) (close_char : N) (ends : list nat)
  : option value :=
  match ends with
  | [] => None
  | e :: ends' =>
    if match raw !! e with Some c => c =? close_char | None => false end then
      match json_loads (slice raw start (e + 1)) with
      | Some v => Some v
      | None => scan_ends raw start close_char ends'
      end
    else scan_ends raw start close_char ends'
  end.

Definition bracket_scan (raw : str) (open_char close_char : N) : option value :=
  match find [open_char] raw with
  | Some start =>
    scan_ends raw start close_char (seq (start + 1) (length raw - (start + 1)))
  | None => None
  end.

(** Strategy 3, the outer loop over the two bracket pairs. *)
Fixpoint scan_pairs (raw : str) (pairs : list (N * N)) : option value :=
  match pairs with
  | [] => None
  | (open_char, close_char) :: pairs' =>
    match bracket_scan raw open_char close_char with
    | Some v => Some v
    | None => scan_pairs raw pairs'
    end
  end.

Definition bracket_pairs : list (N * N) :=
  [(chr "[", chr "]"); (chr "{", chr "}")].

Definition extraction_error : exn :=
  ValueError (lit "Could not extract JSON from model output.").

Definition safe_json_from_model (raw0 : str) : result value :=
  let raw := strip raw0 in
  match json_loads raw with
  | Some v => Ok v
  | None =>
    match fence_strategy raw with
    | Some v => Ok v
    | None =>
      match scan_pairs raw bracket_pairs with
      | Some v => Ok v
      | None => Raise extraction_error
      end
    end
  end.


(** ** [entxp.py]: the hosted model *)

(** [call_bedrock(prompt)]: the request is recorded with what the prompt is
    built from (its fixed text is left out), and the environment gives the
    generated text or the error of the transport.  The function's [print]
    calls are not recorded. *)
Definition call_bedrock (p : prompt) (bedrock : result str) : M str :=
  call (EvBedrock p) bedrock.

Definition role (name hook why : str) : value :=
  VDict [(lit "role_name", VStr name);
         (lit "one_sentence_hook", VStr hook);
         (lit "why_it_fits_this_person", VStr why)].

Definition fallback_roles : list value :=
  [role (lit "Assistant Creative Producer")
        (lit "You turn ideas and chaos into an actual show.")
        (lit "You enjoy planning, working with others, and being near the action.");
   role (lit "Community Content Curator")
        (lit "You find the best stories and help them shine.")
        (utf8_lit "You like social media, picking good content, and boosting others’ voices.");
   role (lit "Studio Session Coordinator")
        (lit "You keep studio days running smooth and on time.")
        (utf8_lit "You’re organized and don’t mind juggling multiple tasks.")].

Definition ent_generate_role_options_from_ai (profile_text : str)
    (bedrock : result str) : M (list value) :=
  try_except
    (let* raw := call_bedrock (RolesPrompt profile_text) bedrock in
     let* roles := lift (safe_json_from_model raw) in
     match roles with
     | VList (r :: l) => ret (r :: l)
     | _ => raise (ValueError (lit "Parsed roles list is empty."))
     end)
    (fun _ =>
       let* _ := emit (EvToast (lit "Using fallback roles (AI error).")) in
       ret fallback_roles).

Definition scene (time_of_day short_title narration : str) : value :=
  VDict [(lit "time_of_day", VStr time_of_day);
         (lit "short_title", VStr short_title);
         (lit "narration", VStr narration)].

Definition fallback_simulation : value :=
  VDict
    [(lit "scenes",
      VList
        [scene (lit "9:00 AM") (lit "Getting started")
               (lit "You arrive, check messages, and review today's plan.");
         scene (lit "1:00 PM") (lit "In the middle of the action")
               (lit "You support the team during a busy part of the day, keeping things organized.");
         scene (lit "5:00 PM") (lit "Wrap up and reflect")
               (lit "You wrap up, note what went well, and think about how you can grow in this role.")]);
     (lit "key_tasks",
      VList
        [VStr (lit "Support more senior teammates with planning and coordination.");
         VStr (lit "Communicate clearly with people in different roles.");
         VStr (lit "Stay flexible when plans change.")]);
     (lit "key_challenges",
      VList
        [VStr (lit "Balancing multiple tasks at once.");
         VStr (lit "Handling last-minute changes calmly.");
         VStr (lit "Learning the tools and workflows used by the team.")]);
     (lit "growth_path",
      VList
        [VStr (lit "Year 1: Learn the basics and find your strengths.");
         VStr (lit "Year 3: Take ownership of small projects or parts of a show.");
         VStr (lit "Year 5: Lead bigger projects and mentor newer teammates.")])].

Definition ent_generate_day_simulation (role_name fit_reason : value)
    (bedrock : result str) : M value :=
  try_except
    (let* raw := call_bedrock (SimulationPrompt role_name fit_reason) bedrock in
     let* sim := lift (safe_json_from_model raw) in
     let sim := match sim with
                | VList l => VDict [(lit "scenes", VList l)]
                | _ => sim
                end in
     match sim with
     | VDict _ => ret sim
     | _ => raise (ValueError (lit "Simulation JSON is not an object or list."))
     end)
    (fun _ =>
       let* _ := emit (EvToast
                   (lit "Could not generate full simulation, showing a simple summary.")) in
       ret fallback_simulation).

(** ** [entxp.py]: the session state and the Day-in-the-Life pages *)

(** The keys of [st.session_state] that the two modules of [entxp.py] own.
    [VNone] is Python's [None].  The simulations are kept by role name. *)
Record session : Type := mk_session {
  ent_stage : string;
  ent_role_options : list value;
  ent_selected_role : value;
  ent_simulations : gmap str value;
  identity_raw : value;
  identity_result : value;
  confidence_raw : value;
  confidence_result : value
}.

(** The state a new browser session starts with. *)
Definition initial_session : session :=
  mk_session "landing" [] VNone ∅ VNone VNone VNone VNone.

Definition ent_go_to (stage : string) (st : session) : session :=
  mk_session stage (ent_role_options st) (ent_selected_role st) (ent_simulations st)
             (identity_raw st) (identity_result st)
             (confidence_raw st) (confidence_result st).

Definition set_role_options (roles : list value) (st : session) : session :=
  mk_session (ent_stage st) roles (ent_selected_role st) (ent_simulations st)
             (identity_raw st) (identity_result st)
             (confidence_raw st) (confidence_result st).

Definition set_selected_role (r : value) (st : session) : session :=
  mk_session (ent_stage st) (ent_role_options st) r (ent_simulations st)
             (identity_raw st) (identity_result st)
             (confidence_raw st) (confidence_result st).

Definition set_simulations (sims : gmap str value) (st : session) : session :=
  mk_session (ent_stage st) (ent_role_options st) (ent_selected_role st) sims
             (identity_raw st) (identity_result st)
             (confidence_raw st) (confidence_result st).

Definition set_identity_raw (v : value) (st : session) : session :=
  mk_session (ent_stage st) (ent_role_options st) (ent_selected_role st)
             (ent_simulations st) v (identity_result st)
             (confidence_raw st) (confidence_result st).

Definition set_identity_result (v : value) (st : session) : session :=
  mk_session (ent_stage st) (ent_role_options st) (ent_selected_role st)
             (ent_simulations st) (identity_raw st) v
             (confidence_raw st) (confidence_result st).

Definition set_confidence_raw (v : value) (st : session) : session :=
  mk_session (ent_stage st) (ent_role_options st) (ent_selected_role st)
             (ent_simulations st) (identity_raw st) (identity_result st)
             v (confidence_result st).

Definition set_confidence_result (v : value) (st : session) : session :=
  mk_session (ent_stage st) (ent_role_options st) (ent_selected_role st)
             (ent_simulations st) (identity_raw st) (identity_result st)
             (confidence_raw st) v.

(** What the user did since the last run of the script: at most one button
    is pressed per run.  The values of the form widgets come with the button
    that reads them. *)
Inductive click : Type :=
| NoClick
| ClickStart
| ClickQuizBack
| ClickShowRoles (profile : str)
| ClickRolesBackQuiz
| ClickTry (idx : nat)
| ClickSimBackRoles
| ClickTryAnother
| ClickStartOver.

(** One run of the script: the button pressed, what the hosted model answers
    if it is called in this run, and whether the display code of the page
    (which reads the state and writes none of it) raises. *)
Record rerun : Type := mk_rerun {
  clicked : click;
  bedrock : result str;
  display : result unit
}.

(** How a run of a page ends: its trace, the session state it leaves, and
    whether it raised.  Writes made before an exception stay. *)
Definition page : Type := (list event * session * result unit)%type.

Definition ent_show_landing (r : rerun) (st : session) : page :=
  match clicked r with
  | ClickStart => ([], ent_go_to "quiz" st, Ok tt)
  | _ => ([], st, Ok tt)
  end.

(** [profile] is the text the page builds from the four quiz widgets. *)
Definition ent_show_quiz (r : rerun) (st : session) : page :=
  match clicked r with
  | ClickQuizBack => ([], ent_go_to "landing" st, Ok tt)
  | ClickShowRoles profile =>
    match ent_generate_role_options_from_ai profile (bedrock r) with
    | (t, Ok roles) => (t, ent_go_to "roles" (set_role_options roles st), Ok tt)
    | (t, Raise e) => (t, st, Raise e)
    end
  | _ => ([], st, Ok tt)
  end.

(** [role["role_name"]], [role["one_sentence_hook"]] and
    [role["why_it_fits_this_person"]] *)
Definition role_fields (role : value) : result (value * value * value) :=
  match role with
  | VDict d =>
    match dict_get (lit "role_name") d,
          dict_get (lit "one_sentence_hook") d,
          dict_get (lit "why_it_fits_this_person") d with
    | Some n, Some h, Some w => Ok (n, h, w)
    | _, _, _ => Raise KeyError
    end
  | _ => Raise TypeError
  end.

(** The loop over the role cards, [idx] counting from 1: a card whose role
    lacks a field, or whose name has no [replace], raises; the card whose
    button was pressed selects its role and restarts the script. *)
Fixpoint roles_loop (roles : list value) (idx : nat) (c : click) (st : session)
  : session * result bool :=
  match roles with
  | [] => (st, Ok false)
  | role :: roles' =>
    match role_fields role with
    | Raise e => (st, Raise e)
    | Ok (VStr _, _, _) =>
      match c with
      | ClickTry i =>
        if Nat.eqb i idx
        then (ent_go_to "simulation" (set_selected_role role st), Ok true)
        else roles_loop roles' (S idx) c st
      | _ => roles_loop roles' (S idx) c st
      end
    | Ok _ => (st, Raise AttributeError)
    end
  end.

Definition ent_show_roles (r : rerun) (st : session) : page :=
  match ent_role_options st with
  | [] =>
    ([EvWarning (lit "No roles yet. Go back and fill the spark quiz.")],
     match clicked r with
     | ClickRolesBackQuiz => ent_go_to "quiz" st
     | _ => st
     end,
     Ok tt)
  | roles =>
    match roles_loop roles 1 (clicked r) st with
    | (st', Raise e) => ([], st', Raise e)
    | (st', Ok true) => ([], st', Ok tt)
    | (st', Ok false) =>
      match clicked r with
      | ClickRolesBackQuiz => ([], ent_go_to "quiz" st', Ok tt)
      | _ => ([], st', Ok tt)
      end
    end
  end.

(** The "start over" button of the simulation page. *)
Definition start_over (st : session) : session :=
  ent_go_to "landing" (set_simulations ∅ (set_selected_role VNone (set_role_options [] st))).

(** The simulation page.  Role names are strings: [ent_show_roles], the only
    writer of [ent_selected_role], has called [replace] on the name; another
    kind of name is outside this model. *)
Definition ent_show_simulation (r : rerun) (st : session) : page :=
  match ent_selected_role st with
  | VNone =>
    ([EvWarning (lit "Pick a role first from the previous step.")],
     match clicked r with
     | ClickSimBackRoles => ent_go_to "roles" st
     | _ => st
     end,
     Ok tt)
  | role =>
    match role_fields role with
    | Raise e => ([], st, Raise e)
    | Ok (VStr role_name, _, fit_reason) =>
      let '(t, st1, got) :=
        match ent_simulations st !! role_name with
        | None =>
          match ent_generate_day_simulation (VStr role_name) fit_reason (bedrock r) with
          | (t, Ok sim) =>
            (t, set_simulations (<[role_name := sim]> (ent_simulations st)) st, Ok sim)
          | (t, Raise e) => (t, st, Raise e)
          end
        | Some sim => ([], st, Ok sim)
        end in
      match got, display r with
      | Raise e, _ => (t, st1, Raise e)
      | Ok _, Raise e => (t, st1, Raise e)
      | Ok _, Ok _ =>
        match clicked r with
        | ClickTryAnother => (t, ent_go_to "roles" st1, Ok tt)
        | ClickStartOver => (t, start_over st1, Ok tt)
        | _ => (t, st1, Ok tt)
        end
      end
    | Ok _ => ([], st, Raise Unmodelled)
    end
  end.

Definition ent_main (r : rerun) (st : session) : page :=
  if String.eqb (ent_stage st) "landing" then ent_show_landing r st
  else if String.eqb (ent_stage st) "quiz" then ent_show_quiz r st
  else if String.eqb (ent_stage st) "roles" then ent_show_roles r st
  else if String.eqb (ent_stage st) "simulation" then ent_show_simulation r st
  else ent_show_landing r st.

(** A session: the runs of the Day-in-the-Life page one after the other,
    each on the state the one before left. *)
Fixpoint ent_session (rs : list rerun) (st : session) : list event * session :=
  match rs with
  | [] => ([], st)
  | r :: rs' =>
    let '(t, st1, _) := ent_main r st in
    let (t', st2) := ent_session rs' st1 in
    (t ++ t', st2)
  end.

(** ** [entxp.py]: the Spark Discovery Hub *)

Definition rbind {A B} (r : result A) (k : A -> result B) : result B :=
  match r with
  | Ok a => k a
  | Raise e => Raise e
  end.

Notation "'let?' x ':=' r 'in' k" := (rbind r (fun x => k))
  (at level 10, x name, r at level 100, k at level 200).

(** [d.get(k, default)]; only a dict has [get]. *)
Definition py_get (v : value) (k : str) (default : value) : result value :=
  match v with
  | VDict d => Ok (match dict_get k d with Some x => x | None => default end)
  | _ => Raise AttributeError
  end.

(** The number an ordering comparison with an int sees.  The sliders are
    ints ([st.slider] with int bounds); comparing a float is outside this
    model, and any other object raises [TypeError]. *)
Definition as_int (v : value) : result Z :=
  match v with
  | VInt n => Ok n
  | VBool b => Ok (if b then 1 else 0)%Z
  | VFloat _ => Raise Unmodelled
  | _ => Raise TypeError
  end.

(** [bool(v)]; the truth of a float is outside this model. *)
Definition truthy (v : value) : result bool :=
  match v with
  | VNone => Ok false
  | VBool b => Ok b
  | VInt n => Ok (negb (n =? 0)%Z)
  | VFloat _ => Raise Unmodelled
  | VStr s => Ok (match s with [] => false | _ => true end)
  | VList l => Ok (match l with [] => false | _ => true end)
  | VDict d => Ok (match d with [] => false | _ => true end)
  end.

Definition env_summary_base : str :=
  utf8_lit "You’d likely do well in a space that gives you room to learn, experiment, and contribute without all the pressure on you at once.".

Definition env_summary_team : str :=
  lit " You seem to recharge around people and might enjoy small, tight-knit creative teams.".

Definition env_summary_solo : str :=
  lit " You might prefer roles where you can focus quietly and then share your work.".

(** The [except] branch of [call_identity_ai]. *)
Definition identity_fallback (identity_data : value) : result value :=
  let? sliders := py_get identity_data (lit "sliders") (VDict []) in
  let? chaos_val := py_get sliders (lit "chaos_structure") (VInt 5) in
  let? solo_team := py_get sliders (lit "solo_team") (VInt 5) in
  let fallback_archetype :=
    [(lit "name", VStr (lit "Emerging Creator"));
     (lit "tagline",
      VStr (utf8_lit "You’re still exploring, but your creative spark is real."));
     (lit "description",
      VStr (utf8_lit "Based on your answers, you enjoy playing with ideas and noticing details in your own way. This archetype means you don’t have to have it all figured out yet — you’re in the discovery phase, which is powerful."))] in
  let? chaos := as_int chaos_val in
  let fallback_archetype :=
    if (chaos >=? 7)%Z then
      dict_set (lit "tagline") (VStr (lit "You like energy, mood, and letting things flow."))
        (dict_set (lit "name") (VStr (lit "Vibe Curator in Progress")) fallback_archetype)
    else if (chaos <=? 3)%Z then
      dict_set (lit "tagline")
        (VStr (lit "You like plans, structure, and knowing the why behind things."))
        (dict_set (lit "name") (VStr (lit "Vision Architect in Progress")) fallback_archetype)
    else fallback_archetype in
  let? solo := as_int solo_team in
  let env_summary :=
    if (solo >=? 7)%Z then env_summary_base ++ env_summary_team
    else if (solo <=? 3)%Z then env_summary_base ++ env_summary_solo
    else env_summary_base in
  Ok (VDict
        [(lit "spark_archetypes", VList [VDict fallback_archetype]);
         (lit "creative_environment",
          VDict
            [(lit "summary", VStr env_summary);
             (lit "example_spaces",
              VList
                [VStr (lit "A small content studio where you can learn from others");
                 VStr (lit "A quiet edit bay or creator corner where you can focus")])]);
         (lit "suggested_roles",
          VList
            [VDict
               [(lit "role_name", VStr (lit "Content Assistant / Editor-in-training"));
                (lit "why_it_fits",
                 VStr (lit "You can experiment, learn tools, and slowly take on more responsibility without needing to be perfect on day one."))];
             VDict
               [(lit "role_name", VStr (lit "Production Helper on small shoots"));
                (lit "why_it_fits",
                 VStr (utf8_lit "You’ll see many parts of the process and figure out what you like best."))]])]).

Definition call_identity_ai (identity_data : value) (bedrock : result str) : M value :=
  try_except
    (let* raw := call_bedrock (IdentityPrompt identity_data) bedrock in
     let* data := lift (safe_json_from_model raw) in
     match data with
     | VDict _ => ret data
     | _ => raise (ValueError (lit "Identity AI output is not a JSON object."))
     end)
    (fun _ => lift (identity_fallback identity_data)).

(** [c.lower()] for one character.  Besides the ASCII capitals only the
    Kelvin sign lower-cases to an ASCII letter; every other character that
    changes becomes text with which no match of the two ASCII triggers
    below can begin, pass through or end, so it is left as it is. *)
Definition lower_char (c : N) : N :=
  if (chr "A" <=? c) && (c <=? chr "Z") then c + 32
  else if c =? 8490 then chr "k"
  else c.

Definition lower (s : str) : str := List.map lower_char s.

Definition generic_encouragement : str :=
  utf8_lit "Your way of being has value — you don’t need to become someone else to contribute creatively.".

Definition str_list (l : list str) : value := VList (List.map VStr l).

(** The reframe of one weakness; [w.lower()] needs a string. *)
Definition reframe (w : value) : result value :=
  match w with
  | VStr t =>
    let '(strength, roles) :=
      if contains (lit "shy") (lower t) then
        (utf8_lit "You’re observant and good at listening, which is powerful in backstage and editing roles.",
         [lit "Video editor"; lit "Continuity checker"; lit "Researcher"])
      else if contains (lit "overthink") (lower t) then
        (lit "You think things through, which helps with planning and quality control.",
         [lit "Assistant producer"; lit "Script reviewer"; lit "Social media planner"])
      else
        (lit "You care deeply and notice things others might miss.",
         [lit "Content editor"; lit "Research assistant for shows";
          lit "Behind-the-scenes coordinator"]) in
    Ok (VDict [(lit "original", w);
               (lit "strength", VStr strength);
               (lit "example_roles", str_list roles);
               (lit "encouragement", VStr generic_encouragement)])
  | _ => Raise AttributeError
  end.

Fixpoint reframes (ws : list value) : result (list value) :=
  match ws with
  | [] => Ok []
  | w :: ws' =>
    let? x := reframe w in
    let? xs := reframes ws' in
    Ok (x :: xs)
  end.

Definition fallback_actions : value :=
  str_list
    [lit "Write down one tiny creative action you can do in 10 minutes this week.";
     lit "Find one free online resource (YouTube, TikTok, etc.) that teaches a skill you care about."].

Definition general_boost : str :=
  utf8_lit "Even if things feel slow or blocked, every tiny experiment counts. You’re not behind — you’re just starting.".

(** The [except] branch of [call_confidence_ai].  The weaknesses and the
    barriers are lists, as [spark_main] builds them; another kind of object
    there is outside this model. *)
Definition confidence_fallback (conf_data : value) : result value :=
  let? weaknesses := py_get conf_data (lit "weaknesses") (VList []) in
  let? barriers := py_get conf_data (lit "barriers") (VList []) in
  let? extra := py_get conf_data (lit "extra_barrier") VNone in
  match weaknesses, barriers with
  | VList ws, VList bs =>
    let? rs := reframes ws in
    let? has_extra := truthy extra in
    let all_barriers := if has_extra then bs ++ [extra] else bs in
    let action_plan :=
      List.map (fun b => VDict [(lit "barrier", b); (lit "actions", fallback_actions)])
               all_barriers in
    Ok (VDict [(lit "weakness_reframes", VList rs);
               (lit "barrier_action_plan", VList action_plan);
               (lit "general_boost", VStr general_boost)])
  | _, _ => Raise Unmodelled
  end.

Definition call_confidence_ai (conf_data : value) (bedrock : result str) : M value :=
  try_except
    (let* raw := call_bedrock (ConfidencePrompt conf_data) bedrock in
     let* data := lift (safe_json_from_model raw) in
     match data with
     | VDict _ => ret data
     | _ => raise (ValueError (lit "Confidence AI output is not a JSON object."))
     end)
    (fun _ => lift (confidence_fallback conf_data)).

(** The two submit buttons of the hub, with the widget values they read. *)
Inductive spark_click : Type :=
| SparkNoClick
| SparkReveal (q1 q2 q3 q4 q5 q6 : str) (c1 c2 c3 c4 c5 c6 : Z)
| SparkBoost (weaknesses_text : str) (barriers : list str) (extra_barrier : str).

Definition identity_raw_of (q1 q2 q3 q4 q5 q6 : str) (c1 c2 c3 c4 c5 c6 : Z) : value :=
  VDict
    [(lit "answers",
      VDict [(lit "q1", VStr q1); (lit "q2", VStr q2); (lit "q3", VStr q3);
             (lit "q4", VStr q4); (lit "q5", VStr q5); (lit "q6", VStr q6)]);
     (lit "sliders",
      VDict [(lit "chaos_structure", VInt c1);
             (lit "solo_team", VInt c2);
             (lit "expression_observation", VInt c3);
             (lit "logic_emotion", VInt c4);
             (lit "people_backstage", VInt c5);
             (lit "bigpicture_detail", VInt c6)])].

(** [[w.strip() for w in weaknesses_text.split("\n") if w.strip()]] *)
Definition weakness_list (weaknesses_text : str) : list str :=
  List.filter (fun w => match w with [] => false | _ => true end)
              (List.map strip (split [10] weaknesses_text)).

Definition conf_raw_of (weaknesses_text : str) (barriers : list str)
    (extra_barrier : str) : value :=
  VDict
    [(lit "weaknesses", str_list (weakness_list weaknesses_text));
     (lit "barriers", str_list barriers);
     (lit "extra_barrier",
      match strip extra_barrier with
      | [] => VNone
      | x => VStr x
      end)].

Definition empty_submission (weaknesses_text : str) (barriers : list str)
    (extra_barrier : str) : bool :=
  match weakness_list weaknesses_text, barriers, strip extra_barrier with
  | [], [], [] => true
  | _, _, _ => false
  end.

(** The body of [if st.button("Reveal My Spark Identity")]. *)
Definition identity_reveal (identity_data : value) (bedrock : result str)
    (st : session) : page :=
  let st1 := set_identity_raw identity_data st in
  match call_identity_ai identity_data bedrock with
  | (t, Ok ai_result) =>
    (t ++ [EvSuccess (lit "Spark Identity generated! Scroll down to see your results.")],
     set_identity_result ai_result st1, Ok tt)
  | (t, Raise e) => (t, st1, Raise e)
  end.

(** The body of [if st.button("Boost My Spark")]. *)
Definition confidence_boost (weaknesses_text : str) (barriers : list str)
    (extra_barrier : str) (bedrock : result str) (st : session) : page :=
  let conf_raw := conf_raw_of weaknesses_text barriers extra_barrier in
  let st1 := set_confidence_raw conf_raw st in
  if empty_submission weaknesses_text barriers extra_barrier then
    ([EvWarning (lit "Share at least one weakness or one barrier so we can support you.")],
     st1, Ok tt)
  else
    match call_confidence_ai conf_raw bedrock with
    | (t, Ok ai_result) =>
      (t ++ [EvSuccess (lit "Spark Confidence boost ready! Scroll down to see your strengths and action plan.")],
       set_confidence_result ai_result st1, Ok tt)
    | (t, Raise e) => (t, st1, Raise e)
    end.

(** What follows a part of the page that may have raised. *)
Definition and_then (p : page) (k : session -> page) : page :=
  match p with
  | (t, st, Ok _) => let '(t', st', r) := k st in (t ++ t', st', r)
  | (t, st, Raise e) => (t, st, Raise e)
  end.

(** The display of a stored result, shown when the result is true; it
    writes nothing, and whether it raises is given by the run. *)
Definition show_result (stored : value) (display : result unit) (st : session) : page :=
  match truthy stored with
  | Ok true => ([], st, display)
  | Ok false => ([], st, Ok tt)
  | Raise e => ([], st, Raise e)
  end.

(** [spark_main]: the Identity Lab tab, then the Confidence Lab tab. *)
Definition spark_main (c : spark_click) (bedrock : result str)
    (display_identity display_confidence : result unit) (st : session) : page :=
  and_then
    (match c with
     | SparkReveal q1 q2 q3 q4 q5 q6 c1 c2 c3 c4 c5 c6 =>
       identity_reveal (identity_raw_of q1 q2 q3 q4 q5 q6 c1 c2 c3 c4 c5 c6) bedrock st
     | _ => ([], st, Ok tt)
     end)
    (fun st1 =>
  and_then (show_result (identity_result st1) display_identity st1)
    (fun st2 =>
  and_then
    (match c with
     | SparkBoost weaknesses_text barriers extra_barrier =>
       confidence_boost weaknesses_text barriers extra_barrier bedrock st2
     | _ => ([], st2, Ok tt)
     end)
    (fun st3 => show_result (confidence_result st3) display_confidence st3))).

(** ** [voice_pipeline.py] *)

Module VoicePipeline.

(** *** The top level of the module

    The statements outside any function run once, in order, when the module
    is imported.  Each reads and writes the module's global names; a name
    that is neither a global nor a builtin raises [NameError], and the
    statements after it do not run. *)

Inductive obj : Type :=
| OStr (s : string)
| OModule (name : string)
| OFunction (name : string)
| OClient (service : string) (region_name : obj).

Abbreviation namespace := (gmap string obj).

Section TopLevel.

(** The builtin names of the interpreter. *)
Variable builtins : namespace.

Definition expr : Type := namespace -> result obj.
Definition stmt : Type := namespace -> namespace * result unit.

Definition const (s : string) : expr := fun _ => Ok (OStr s).

Definition name (x : string) : expr :=
  fun globals =>
    match globals !! x with
    | Some o => Ok o
    | None =>
      match builtins !! x with
      | Some o => Ok o
      | None => Raise (NameError x)
      end
    end.

(** [boto3.client(service, region_name=region)] *)
Definition boto3_client (service : string) (region : expr) : expr :=
  fun globals =>
    let? _ := name "boto3" globals in
    let? r := region globals in
    Ok (OClient service r).

Definition assign (x : string) (e : expr) : stmt :=
  fun globals =>
    match e globals with
    | Ok o => (<[x := o]> globals, Ok tt)
    | Raise err => (globals, Raise err)
    end.

Definition import (x : string) : stmt :=
  fun globals => (<[x := OModule x]> globals, Ok tt).

Definition def (x : string) : stmt :=
  fun globals => (<[x := OFunction x]> globals, Ok tt).

Fixpoint exec (body : list stmt) (globals : namespace) : namespace * result unit :=
  match body with
  | [] => (globals, Ok tt)
  | s :: body' =>
    match s globals with
    | (globals', Ok _) => exec body' globals'
    | (globals', Raise err) => (globals', Raise err)
    end
  end.

Definition module_body : list stmt :=
  [import "os"; import "uuid"; import "wave"; import "json"; import "time";
   import "Tuple"; import "boto3";
   assign "S3_BUCKET" (const "<YOUR_BUCKET_NAME>");
   assign "REGION" (const "<YOUR_AWS_REGION>");
   assign "BEDROCK_REGION" (const "us-east-2");
   assign "transcribe" (boto3_client "transcribe" (name "AWS_REGION"));
   assign "polly" (boto3_client "polly" (name "AWS_REGION"));
   assign "s3" (boto3_client "s3" (name "AWS_REGION"));
   assign "bedrock_agent" (boto3_client "bedrock-agent-runtime" (name "BEDROCK_REGION"));
   def "get_wav_duration_seconds"; def "upload_to_s3"; def "transcribe_audio";
   def "call_master_agent"; def "synthesize_speech"; def "handle_voice_interaction"].

(** Importing the module. *)
Definition import_module : namespace * result unit := exec module_body ∅.

End TopLevel.

(** *** The functions, supposing the clients exist *)

Definition S3_BUCKET : str := lit "<YOUR_BUCKET_NAME>".

(** One event of the agent's answer stream: [event.get("chunk")], and in it
    [chunk.get("bytes")]. *)
Record chunk : Type := mk_chunk { chunk_bytes : option (list N) }.
Record agent_event : Type := mk_event { event_chunk : option chunk }.

(** What the services answer during one voice turn. *)
Record aws : Type := mk_aws {
  wav_header : result (N * N);
  upload_uuid : str;
  job_uuid : str;
  upload_answer : result unit;
  start_job_answer : result unit;
  job_answers : list (result str);
  transcript_object : result (list N);
  agent_answer : result (list agent_event);
  polly_answer : result (list N)
}.

(** [get_wav_duration_seconds]: the frame count and the sample rate of the
    header, or the error [wave.open] raises on a header it cannot read.  The
    duration [frames / float(rate)] is kept as the two numbers. *)
Definition get_wav_duration_seconds (wav : result (N * N)) : result (N * N) :=
  let? header := wav in
  let (frames, rate) := header : N * N in
  if rate =? 0 then Raise ZeroDivisionError else Ok (frames, rate).

(** [duration < 0.5].  Both header fields are below 2^32, so the float
    quotient is below one half exactly when [2 * frames < rate]. *)
Definition under_half_second (duration : N * N) : bool :=
  let (frames, rate) := duration in 2 * frames <? rate.

(** The message of the error; the duration printed inside it is left out. *)
Definition too_short : exn :=
  ValueError (utf8_lit "Audio too short. Please record at least 1–2 seconds.").

(** [os.path.basename] *)
Fixpoint basename (p : str) : str :=
  match p with
  | [] => []
  | _ :: p' => if contains (lit "/") p then basename p' else p
  end.

Definition upload_to_s3 (e : aws) (local_path : str) : M str :=
  let file_name := basename local_path in
  let s3_key := lit "uploads/" ++ upload_uuid e ++ lit "_" ++ file_name in
  let* _ := call (EvS3Upload local_path S3_BUCKET s3_key) (upload_answer e) in
  ret (lit "s3://" ++ S3_BUCKET ++ lit "/" ++ s3_key).

(** The polling loop: one answer of the service per turn. *)
Fixpoint poll (job_name : str) (answers : list (result str)) : M str :=
  match answers with
  | [] => raise Hang
  | a :: answers' =>
    let* status := call (EvGetJob job_name) a in
    if eqb_str status (lit "COMPLETED") || eqb_str status (lit "FAILED")
    then ret status
    else poll job_name answers'
  end.

(** [v[k]] for a string key *)
Definition py_item (v : value) (k : str) : result value :=
  match v with
  | VDict d => match dict_get k d with Some x => Ok x | None => Raise KeyError end
  | _ => Raise TypeError
  end.

(** [v[0]] *)
Definition py_first (v : value) : result value :=
  match v with
  | VList (x :: _) => Ok x
  | VList [] => Raise IndexError
  | VStr (c :: _) => Ok (VStr [c])
  | VStr [] => Raise IndexError
  | VDict _ => Raise KeyError
  | _ => Raise TypeError
  end.

Definition transcript_of (body : list N) : result str :=
  let? text := match utf8_decode body with
               | Some t => Ok t
               | None => Raise UnicodeDecodeError
               end in
  let? data := match json_loads text with
               | Some v => Ok v
               | None => Raise JSONDecodeError
               end in
  let? results := py_item data (lit "results") in
  let? transcripts := py_item results (lit "transcripts") in
  let? first := py_first transcripts in
  let? text := py_item first (lit "transcript") in
  match text with
  | VStr t => Ok (strip t)
  | _ => Raise AttributeError
  end.

Definition transcribe_audio (e : aws) (local_wav_path : str) : M str :=
  let* _ :=
    try_except
      (let* duration := lift (get_wav_duration_seconds (wav_header e)) in
       if under_half_second duration then raise too_short else ret tt)
      (fun _ => ret tt) in
  let* media_uri := upload_to_s3 e local_wav_path in
  let job_name := lit "voice-agent-" ++ job_uuid e in
  let* _ := call (EvStartJob job_name media_uri) (start_job_answer e) in
  let* status := poll job_name (job_answers e) in
  if eqb_str status (lit "FAILED")
  then raise (RuntimeError (lit "Transcription failed"))
  else
    let output_key := job_name ++ lit ".json" in
    let* body := call (EvS3Get S3_BUCKET output_key) (transcript_object e) in
    lift (transcript_of body).

Definition repeat_prompt : str :=
  lit "I didn't catch that. Could you please repeat your answer?".

Definition no_reply : str :=
  lit "Sorry, I couldn't generate a reply this time.".

(** The loop over the answer stream, [completion_text] being the text so
    far. *)
Fixpoint collect (events : list agent_event) (completion_text : str) : result str :=
  match events with
  | [] => Ok completion_text
  | ev :: events' =>
    match event_chunk ev with
    | None => collect events' completion_text
    | Some ch =>
      match chunk_bytes ch with
      | None | Some [] => collect events' completion_text
      | Some bytes_data =>
        match utf8_decode bytes_data with
        | Some t => collect events' (completion_text ++ t)
        | None => Raise UnicodeDecodeError
        end
      end
    end
  end.

Definition call_master_agent (e : aws) (user_text session_id : str) : M str :=
  match user_text with
  | [] => ret repeat_prompt
  | _ =>
    let* events := call (EvInvokeAgent session_id user_text) (agent_answer e) in
    let* completion_text := lift (collect events []) in
    match strip completion_text with
    | [] => ret no_reply
    | t => ret t
    end
  end.

Definition synthesize_speech (e : aws) (text output_path : str) : M str :=
  let* _ := call (EvPolly text) (polly_answer e) in
  ret output_path.

Definition handle_voice_interaction (e : aws) (local_wav_path output_audio_path session_id : str)
  : M (str * str * str) :=
  let* user_text := transcribe_audio e local_wav_path in
  let* agent_reply := call_master_agent e user_text session_id in
  let* _ := synthesize_speech e agent_reply output_audio_path in
  ret (user_text, agent_reply, output_audio_path).

End VoicePipeline.

(** ** [app.py] *)

Module App.

(** *** The top level of the module

    The imports of [app.py], in their order.  Whether a module from outside
    the three files can be imported is the environment's; importing
    [voice_pipeline] runs that module's top level. *)

Section TopLevel.

(** The builtin names of the interpreter. *)
Variable builtins : VoicePipeline.namespace.

(** [import x] or [from m import x, ...] for a module outside the three
    files: the names are bound when the import succeeds. *)
Definition import_external (names : list string) (outcome : result unit)
  : VoicePipeline.stmt :=
  fun globals =>
    match outcome with
    | Ok _ =>
      (fold_left (fun g x => <[x := VoicePipeline.OModule x]> g) names globals, Ok tt)
    | Raise err => (globals, Raise err)
    end.

(** [from voice_pipeline import x]: the top level of [voice_pipeline] runs
    in a namespace of its own, and an exception it raises leaves the
    [import] statement.  The module does define the one name asked for;
    the [ImportError] for a name it lacks is outside this model. *)
Definition from_voice_pipeline_import (x : string) : VoicePipeline.stmt :=
  fun globals =>
    match VoicePipeline.import_module builtins with
    | (module_globals, Ok _) =>
      match module_globals !! x with
      | Some o => (<[x := o]> globals, Ok tt)
      | None => (globals, Raise Unmodelled)
      end
    | (_, Raise err) => (globals, Raise err)
    end.

(** What the environment answers to the imports from outside the three
    files. *)
Record imports : Type := mk_imports {
  import_streamlit : result unit;
  import_mic_recorder : result unit;
  import_entxp : result unit;
  import_frontend : result unit
}.

(** The import statements the module begins with. *)
Definition module_imports (env : imports) : list VoicePipeline.stmt :=
  [VoicePipeline.import "os"; VoicePipeline.import "uuid";
   VoicePipeline.import "tempfile";
   import_external ["List"; "Dict"]%string (Ok tt);
   import_external ["st"]%string (import_streamlit env);
   import_external ["mic_recorder"]%string (import_mic_recorder env);
   import_external ["entxp"]%string (import_entxp env);
   import_external ["call_master_agent_text"; "synthesize_voice"]%string
                   (import_frontend env);
   from_voice_pipeline_import "handle_voice_interaction"].

(** Importing the module, or running it as a script: the imports, then the
    statements [rest] that follow them (the page configuration, the audio
    directory, the query parameters, the three [def]s and the call of
    [main]). *)
Definition import_module (env : imports) (rest : list VoicePipeline.stmt)
  : VoicePipeline.namespace * result unit :=
  VoicePipeline.exec (module_imports env ++ rest) ∅.

End TopLevel.

(** *** The arc of avatars *)

(** The keys of [avatar_options], in the order of the dict. *)
Definition avatar_labels : list str :=
  [lit "A dancer"; lit "A music producer"; lit "A film director"; lit "A gamer";
   lit "A fashion influencer"; lit "Don't know yet"].

(** [l.remove(x)]: the first item equal to [x] goes; [ValueError] when
    there is none. *)
Fixpoint list_remove (x : str) (l : list str) : result (list str) :=
  match l with
  | [] => Raise (ValueError (lit "list.remove(x): x not in list"))
  | y :: l' =>
    if eqb_str y x then Ok l'
    else let? r := list_remove x l' in Ok (y :: r)
  end.

(** [l.insert(i, x)] for [i >= 0]: past the end, the item goes last. *)
Definition list_insert (i : nat) (x : str) (l : list str) : list str :=
  take i l ++ x :: drop i l.

(** The labels of [avatar_selector_page] in the order they are drawn, for
    the labels [labels] of the options: [center_index] is computed before
    the selected label is taken out. *)
Definition arc_order (labels : list str) (selected : str) : result (list str) :=
  let center_index := (length labels / 2)%nat in
  let? labels := list_remove selected labels in
  Ok (list_insert center_index selected labels).

(** *** The voice copilot: sending a recording *)

(** [os.path.join(AUDIO_DIR, name)] for a directory that does not end with
    a separator and a relative file name, which is the case here. *)
Definition path_join (dir name : str) : str := dir ++ lit "/" ++ name.

Definition turn (role text : str) (audio_path : value) : value :=
  VDict [(lit "role", VStr role); (lit "text", VStr text); (lit "audio_path", audio_path)].

(** [s or default] *)
Definition or_text (s default : str) : str :=
  match s with
  | [] => default
  | _ => s
  end.

Definition placeholder : str := utf8_lit "(…)".

(** The body of [if st.button("Send voice to agent")]: the two file names
    are made from fresh UUIDs, the recording is saved under the first, and
    the turn is run; the history, which [st.session_state] holds, gets the
    two entries when the turn returns, and the script is then run again.
    The write of the recording is left to the world [e], whose
    [wav_header] is what the pipeline reads back from that file. *)
Definition send_voice (e : VoicePipeline.aws) (audio_dir uuid1 uuid2 session_id : str)
    (history : list value) : list event * list value * result unit :=
  let user_audio_path := path_join audio_dir (uuid1 ++ lit "_user.wav") in
  let reply_audio_path := path_join audio_dir (uuid2 ++ lit "_reply.mp3") in
  match VoicePipeline.handle_voice_interaction e user_audio_path reply_audio_path session_id with
  | (t, Ok (user_text, agent_reply, final_audio)) =>
    let final_audio := match final_audio with [] => reply_audio_path | _ => final_audio end in
    (t,
     history ++ [turn (lit "user") (or_text user_text placeholder) VNone]
             ++ [turn (lit "agent") (or_text agent_reply placeholder) (VStr final_audio)],
     Ok tt)
  | (t, Raise err) => (t, history, Raise err)
  end.

End App.

(** ** Worlds used in the examples *)

(** A clip of 100 frames at 44100 frames per second (about 2 ms), in a
    world where every service answers. *)
Definition short_clip : VoicePipeline.aws :=
  VoicePipeline.mk_aws
    (Ok (100, 44100))
    (lit "1b4e28ba") (lit "7d9a3c10")
    (Ok tt) (Ok tt)
    [Ok (lit "IN_PROGRESS"); Ok (lit "COMPLETED")]
    (Ok (jlit "{'results': {'transcripts': [{'transcript': ' hello '}]}}"))
    (Ok [VoicePipeline.mk_event (Some (VoicePipeline.mk_chunk (Some (lit "Hi!"))))])
    (Ok []).

(** A header that [wave.open] rejects. *)
Definition unreadable_clip : VoicePipeline.aws :=
  VoicePipeline.mk_aws
    (Raise WaveError)
    (lit "1b4e28ba") (lit "7d9a3c10")
    (Ok tt) (Ok tt)
    [Ok (lit "COMPLETED")]
    (Ok (jlit "{'results': {'transcripts': [{'transcript': 'ok'}]}}"))
    (Ok []) (Ok []).






(** ** Notions used to state the properties *)

(** The attempt inside [try] of [ent_generate_role_options_from_ai] comes
    to nothing: the model call raises, or no JSON is found in its text, or
    what is found is not a non-empty list. *)
Definition roles_attempt_fails (bedrock : result str) : Prop :=
  match bedrock with
  | Raise _ => True
  | Ok raw =>
    match safe_json_from_model raw with
    | Raise _ => True
    | Ok (VList (_ :: _)) => False
    | Ok _ => True
    end
  end.

Definition nonempty_text (v : value) : Prop :=
  match v with
  | VStr (_ :: _) => True
  | _ => False
  end.

(** The name the specification gives the fallback archetype. *)
Definition spec_archetype_name (chaos_structure : Z) : str :=
  if (7 <=? chaos_structure)%Z then lit "Vibe Curator in Progress"
  else if (chaos_structure <=? 3)%Z then lit "Vision Architect in Progress"
  else lit "Emerging Creator".

(** The sentence the specification adds to the environment summary. *)
Definition spec_extra_sentence (solo_team : Z) : str :=
  if (7 <=? solo_team)%Z then env_summary_team
  else if (solo_team <=? 3)%Z then env_summary_solo
  else [].

(** What an empty submission of the Confidence Lab stores as raw input. *)
Definition empty_conf_raw : value :=
  VDict [(lit "weaknesses", VList []);
         (lit "barriers", VList []);
         (lit "extra_barrier", VNone)].

Definition empty_warning : event :=
  EvWarning (lit "Share at least one weakness or one barrier so we can support you.").



Definition is_bedrock (ev : event) : bool :=
  match ev with
  | EvBedrock _ => true
  | _ => false
  end.


(** A selected role in a session that has seen no simulation yet. *)
Definition producer : value :=
  role (lit "Assistant Creative Producer") (lit "hook") (lit "why").

Definition at_simulation : session :=
  mk_session "simulation" [producer] producer ∅ VNone VNone VNone VNone.


(** What may follow the escape of a high surrogate in a JSON string: the
    escape of a low surrogate to join it with, an escape with bad digits, or
    anything else, which leaves the high surrogate alone. *)
Inductive after_high : Type :=
| JoinLow (cp2 : N) (rest : str)
| BadEscape
| Alone.

Definition low_escape (s : str) : after_high :=
  match s with
  | b :: u :: k1 :: k2 :: k3 :: k4 :: s4 =>
    if (b =? 92) && (u =? chr "u") then
      match hex4 k1 k2 k3 k4 with
      | None => BadEscape
      | Some cp2 => if is_low_surrogate cp2 then JoinLow cp2 s4 else Alone
      end
    else Alone
  | _ => Alone
  end.

(** A text that cannot continue a number: it is empty or starts with
    something other than a digit, a point or an exponent mark. *)
Definition stable (t : str) : bool :=
  match t with
  | [] => true
  | x :: _ => negb (is_digit x || (x =? chr ".") || (x =? chr "e") || (x =? chr "E"))
  end.

(** A text that [skip_ws] leaves as it is. *)
Definition settled (t : str) : bool :=
  match t with
  | [] => true
  | x :: _ => negb (json_ws x)
  end.

Definition is_number (v : value) : bool :=
  match v with
  | VInt _ | VFloat _ => true
  | _ => false
  end.

(** The closing bracket of an opening one. *)
Definition closer (open_char : N) : N :=
  if open_char =? chr "[" then chr "]" else chr "}".

(** A text that starts neither with a digit nor with a point. *)
Definition no_frac (t : str) : bool :=
  match t with
  | [] => true
  | x :: _ => negb (is_digit x || (x =? chr "."))
  end.

(** A text that starts neither with a digit nor with an exponent mark. *)
Definition no_exp (t : str) : bool :=
  match t with
  | [] => true
  | x :: _ => negb (is_digit x || (x =? chr "e") || (x =? chr "E"))
  end.

Definition no_digit (t : str) : bool :=
  match t with
  | [] => true
  | x :: _ => negb (is_digit x)
  end.

(** What [match_number] reads after the first digit. *)
Definition number_rest (d : N) (s2 : str) : str * str * str * str :=
  let (ds, s3) := if d =? chr "0" then ([], s2) else span_digits s2 in
  let (fr, s4) := scan_frac s3 in
  let (ex, s5) := scan_exp s4 in
  (ds, fr, ex, s5).


(** How a number starts: with a digit, or with a minus sign and a digit. *)
Definition number_head (c : str) : Prop :=
  match c with
  | [] => False
  | x :: c' =>
    is_digit x = true
    \/ (x = chr "-" /\ match c' with d :: _ => is_digit d = true | [] => False end)
  end.

(** The constants [scan_once] knows, by first character, remaining
    characters and value. *)
Definition constants : list (N * str * value) :=
  [(chr "n", lit "ull", VNone);
   (chr "t", lit "rue", VBool true);
   (chr "f", lit "alse", VBool false);
   (chr "N", lit "aN", VFloat (lit "NaN"));
   (chr "I", lit "nfinity", VFloat (lit "Infinity"));
   (chr "-", lit "Infinity", VFloat (lit "-Infinity"))].

Fixpoint scan_constant (cs : list (N * str * value)) (c : N) (s' : str)
  : option (value * str) :=
  match cs with
  | [] => None
  | (k, p, v) :: cs' =>
    if (c =? k) && startswith p s' then Some (v, drop (length p) s')
    else scan_constant cs' c s'
  end.

(** What the three mutually recursive functions of the decoder have in
    common: the value read ends where the rest begins, and it is read the
    same way before another rest (which, after a number, must not continue
    the number). *)
Definition value_local (f : nat) : Prop :=
  forall s v r,
    scan_once f s = Done v r ->
    exists c, s = c ++ r /\ c <> []
              /\ (forall o, o = chr "[" \/ o = chr "{" ->
                            head s = Some o -> last c = Some (closer o))
              /\ forall t, (is_number v = true -> stable t = true) ->
                           scan_once f (c ++ t) = Done v t.

Definition members_local (f : nat) : Prop :=
  forall s acc v r,
    object_members f s acc = Done v r ->
    exists c, s = c ++ r /\ c <> [] /\ last c = Some (chr "}")
              /\ forall t, object_members f (c ++ t) acc = Done v t.

Definition items_local (f : nat) : Prop :=
  forall s acc v r,
    array_items f s acc = Done v r ->
    exists c, s = c ++ r /\ c <> [] /\ last c = Some (chr "]")
              /\ forall t, array_items f (c ++ t) acc = Done v t.

(** More fuel does not change a result. *)
Definition fuel_stable (f : nat) : Prop :=
  (forall s, scan_once f s <> OutOfFuel -> scan_once (S f) s = scan_once f s)
  /\ (forall s acc, object_members f s acc <> OutOfFuel ->
                    object_members (S f) s acc = object_members f s acc)
  /\ (forall s acc, array_items f s acc <> OutOfFuel ->
                    array_items (S f) s acc = array_items f s acc).

(** Twice the length of the text, and one more, is fuel enough. *)
Definition fuel_enough (f : nat) : Prop :=
  (forall s, (2 * length s < f)%nat -> scan_once f s <> OutOfFuel)
  /\ (forall s acc, (2 * length s + 1 < f)%nat -> object_members f s acc <> OutOfFuel)
  /\ (forall s acc, (2 * length s + 1 < f)%nat -> array_items f s acc <> OutOfFuel).

Definition is_bracket (o : N) : Prop := o = chr "[" \/ o = chr "{".

(** The text of [n] characters at [start] is read by [json.loads] as [v],
    and no shorter text at [start] is read at all. *)
Definition shortest_parse_at (raw : str) (start n : nat) (v : value) : Prop :=
  json_loads (take n (drop start raw)) = Some v
  /\ forall m, (m < n)%nat -> json_loads (take m (drop start raw)) = None.

(** No text at [start] is read by [json.loads]. *)
Definition no_parse_at (raw : str) (start : nat) : Prop :=
  forall m, json_loads (take m (drop start raw)) = None.

(** ** Notions used for the recovery of structured output *)

(** A list or a dict, as opposed to a number, a string, a boolean or
    [None]. *)
Definition is_container (v : value) : bool :=
  match v with
  | VList _ | VDict _ => true
  | _ => false
  end.

(** [c] is a piece of [raw]: characters of [raw] that follow one another. *)
Definition piece_of (c raw : str) : Prop :=
  exists pre post, raw = pre ++ c ++ post.

(** ** Notions used for the Spark Discovery Hub *)

(** The barriers the fallback of [call_confidence_ai] plans for: the ones
    selected, then the one typed in when it is not blank. *)
Definition all_barriers (barriers : list str) (extra_barrier : str) : list str :=
  match strip extra_barrier with
  | [] => barriers
  | x => barriers ++ [x]
  end.

(** The plan the fallback makes for one barrier. *)
Definition fallback_plan (barrier : str) : value :=
  VDict [(lit "barrier", VStr barrier); (lit "actions", fallback_actions)].

(** A fallback reframe of the weakness [w]: the weakness itself, a strength,
    three example roles and the fixed encouragement. *)
Definition reframe_of (w : str) (r : value) : Prop :=
  exists strength r1 r2 r3,
    r = VDict [(lit "original", VStr w);
               (lit "strength", VStr strength);
               (lit "example_roles", VList [VStr r1; VStr r2; VStr r3]);
               (lit "encouragement", VStr generic_encouragement)]
    /\ strength <> [].

Definition is_dict (v : value) : bool :=
  match v with
  | VDict _ => true
  | _ => false
  end.

(** The keys of the session the Day-in-the-Life pages own, and the keys the
    hub owns. *)
Definition ent_keys (st : session)
  : string * list value * value * gmap str value :=
  (ent_stage st, ent_role_options st, ent_selected_role st, ent_simulations st).

Definition identity_keys (st : session) : value * value :=
  (identity_raw st, identity_result st).

Definition confidence_keys (st : session) : value * value :=
  (confidence_raw st, confidence_result st).

(** ** Notions used for the Day-in-the-Life pages *)

(** A role the pages can show: a dict with the three fields, whose name is
    a string. *)
Definition showable (role : value) : bool :=
  match role_fields role with
  | Ok (VStr _, _, _) => true
  | _ => false
  end.

(** The states of the Day-in-the-Life pages that the buttons lead to: on
    the roles page and on the simulation page there are role options, and
    on the simulation page a role that can be shown is selected. *)
Definition ent_ok (st : session) : Prop :=
  ent_stage st = "landing"%string
  \/ ent_stage st = "quiz"%string
  \/ (ent_stage st = "roles"%string /\ ent_role_options st <> [])
  \/ (ent_stage st = "simulation"%string
      /\ ent_role_options st <> []
      /\ showable (ent_selected_role st) = true).

Definition is_warning (ev : event) : bool :=
  match ev with
  | EvWarning _ => true
  | _ => false
  end.

Definition no_warning (t : list event) : bool :=
  forallb (fun ev => negb (is_warning ev)) t.

(** Every stored simulation is a dict. *)
Definition simulations_are_dicts (st : session) : Prop :=
  forall name sim, ent_simulations st !! name = Some sim -> is_dict sim = true.

(** The number of requests to the model in a trace. *)
Definition model_calls (t : list event) : nat := length (List.filter is_bedrock t).

(** The roles page with the given options. *)
Definition at_roles (roles : list value) : session :=
  mk_session "roles" roles VNone ∅ VNone VNone VNone VNone.

(** ** Notions used for the voice pipeline *)

(** A status with which the polling loop of [transcribe_audio] stops. *)
Definition terminal (status : str) : bool :=
  eqb_str status (lit "COMPLETED") || eqb_str status (lit "FAILED").

(** An answer of the transcription service with which the loop goes on. *)
Definition waiting (a : result str) : bool :=
  match a with
  | Ok status => negb (terminal status)
  | Raise _ => false
  end.

(** The events of the three stages of a voice turn. *)
Definition is_transcribe_event (ev : event) : bool :=
  match ev with
  | EvS3Upload _ _ _ | EvStartJob _ _ | EvGetJob _ | EvS3Get _ _ => true
  | _ => false
  end.

Definition is_agent_event (ev : event) : bool :=
  match ev with
  | EvInvokeAgent _ _ => true
  | _ => false
  end.

Definition is_polly_event (ev : event) : bool :=
  match ev with
  | EvPolly _ => true
  | _ => false
  end.

(** The names [transcribe_audio] gives the upload, the job and its output. *)
Definition upload_key (e : VoicePipeline.aws) (local_path : str) : str :=
  lit "uploads/" ++ VoicePipeline.upload_uuid e ++ lit "_" ++ VoicePipeline.basename local_path.

Definition media_uri (e : VoicePipeline.aws) (local_path : str) : str :=
  lit "s3://" ++ VoicePipeline.S3_BUCKET ++ lit "/" ++ upload_key e local_path.

Definition job_name (e : VoicePipeline.aws) : str :=
  lit "voice-agent-" ++ VoicePipeline.job_uuid e.

Definition output_key (e : VoicePipeline.aws) : str := job_name e ++ lit ".json".

(** The calls every run of [transcribe_audio] that reaches the polling loop
    begins with. *)
Definition upload_and_start (e : VoicePipeline.aws) (local_path : str) : list event :=
  [EvS3Upload local_path VoicePipeline.S3_BUCKET (upload_key e local_path);
   EvStartJob (job_name e) (media_uri e local_path)].

(** A world in which the transcription works and the agent does not answer. *)
Definition agent_down : VoicePipeline.aws :=
  VoicePipeline.mk_aws
    (Ok (44100, 44100))
    (lit "1b4e28ba") (lit "7d9a3c10")
    (Ok tt) (Ok tt)
    [Ok (lit "COMPLETED")]
    (Ok (jlit "{'results': {'transcripts': [{'transcript': 'ok'}]}}"))
    (Raise ServiceError) (Ok []).


(** * Properties *)

(** ** The JSON decoder reads a prefix of its input *)

Lemma cons_app_assoc {A} (x : A) (l1 l2 : list A) : x :: l1 ++ l2 = (x :: l1) ++ l2.
Proof. reflexivity. Qed.

Lemma length_lt_app_nonnil (c r : str) : c <> [] -> (length r < length (c ++ r))%nat.
Proof. destruct c; [congruence|]. intros _. rewrite length_app. cbn. lia. Qed.

Lemma skip_ws_settled (t : str) : settled t = true -> skip_ws t = t.
Proof.
  destruct t as [|x t]; [reflexivity|]. cbn.
  destruct (json_ws x); [discriminate|reflexivity].
Qed.

Lemma skip_ws_is_settled (s : str) : settled (skip_ws s) = true.
Proof.
  induction s as [|x s IH]; [reflexivity|]. cbn.
  destruct (json_ws x) eqn:E; [exact IH|]. cbn. now rewrite E.
Qed.

(** The white space [skip_ws] passes over. *)
Lemma skip_ws_decomp (s : str) :
  exists w, s = w ++ skip_ws s
            /\ forallb json_ws w = true
            /\ forall t, settled t = true -> skip_ws (w ++ t) = t.
Proof.
  induction s as [|x s (w & Hs & Hw & Hskip)].
  - exists []. repeat split. intros t Ht. now apply skip_ws_settled.
  - cbn [skip_ws]. destruct (json_ws x) eqn:E.
    + exists (x :: w). split; [cbn; congruence|]. split; [cbn; now rewrite E|].
      intros t Ht. cbn. rewrite E. now apply Hskip.
    + exists []. repeat split. intros t Ht. now apply skip_ws_settled.
Qed.

Lemma skip_ws_length (s : str) : (length (skip_ws s) <= length s)%nat.
Proof.
  induction s as [|x s IH]; [reflexivity|]. cbn.
  destruct (json_ws x); cbn; lia.
Qed.

Lemma settled_app (c t : str) : c <> [] -> settled (c ++ t) = settled c.
Proof. destruct c; [congruence|reflexivity]. Qed.

Lemma stable_app (c t : str) : c <> [] -> stable (c ++ t) = stable c.
Proof. destruct c; [congruence|reflexivity]. Qed.

Lemma ws_stable (x : N) (t : str) : json_ws x = true -> stable (x :: t) = true.
Proof.
  unfold json_ws, stable, is_digit. intros H.
  repeat (apply orb_prop in H; destruct H as [H|H]);
    apply N.eqb_eq in H; subst x; reflexivity.
Qed.

(** After white space and a separator no number goes on. *)
Lemma stable_ws_then (w : str) (d : N) (t : str) :
  forallb json_ws w = true -> stable [d] = true -> stable (w ++ d :: t) = true.
Proof.
  destruct w as [|x w]; cbn [app forallb].
  - intros _ H. exact H.
  - intros [Hx _]%andb_prop _. now apply ws_stable.
Qed.

Lemma startswith_split (p s : str) :
  startswith p s = true -> s = p ++ drop (length p) s.
Proof.
  revert s. induction p as [|x p IH]; intros s; [reflexivity|].
  destruct s as [|y s]; [discriminate|]. cbn.
  intros [Hx Hp]%andb_prop. apply N.eqb_eq in Hx. subst y. f_equal. now apply IH.
Qed.

Lemma startswith_app (p t : str) : startswith p (p ++ t) = true.
Proof. induction p as [|x p IH]; [reflexivity|]. cbn. now rewrite N.eqb_refl. Qed.

Lemma drop_length_app (p t : str) : drop (length p) (p ++ t) = t.
Proof. induction p as [|x p IH]; [reflexivity|exact IH]. Qed.

Lemma last_app_nonnil {A} (l1 l2 : list A) : l2 <> [] -> last (l1 ++ l2) = last l2.
Proof.
  intros H. rewrite last_app. destruct (last l2) as [x|] eqn:E; [reflexivity|].
  apply last_None in E. contradiction.
Qed.

Lemma last_prefixed {A} (l c : list A) (x : A) :
  c <> [] -> last c = Some x -> last (l ++ c) = Some x.
Proof. intros Hne Hl. now rewrite last_app_nonnil. Qed.

(** *** Digits *)

Lemma span_digits_nondigit (t : str) :
  match t with [] => true | x :: _ => negb (is_digit x) end = true ->
  span_digits t = ([], t).
Proof.
  destruct t as [|x t]; [reflexivity|]. cbn.
  destruct (is_digit x); [discriminate|reflexivity].
Qed.

Lemma span_digits_spec (s ds r : str) :
  span_digits s = (ds, r) ->
  s = ds ++ r
  /\ forallb is_digit ds = true
  /\ forall t, match t with [] => true | x :: _ => negb (is_digit x) end = true ->
               span_digits (ds ++ t) = (ds, t).
Proof.
  revert ds r. induction s as [|x s IH]; intros ds r; cbn.
  - intros [= <- <-]. repeat split. intros t Ht. now apply span_digits_nondigit.
  - destruct (is_digit x) eqn:E.
    + destruct (span_digits s) as [ds' r'] eqn:Es. intros [= <- <-].
      destruct (IH ds' r' eq_refl) as (Hs & Hd & Ht).
      split; [cbn; congruence|]. split; [cbn; now rewrite E|].
      intros t H. cbn. rewrite E, (Ht t H). reflexivity.
    + intros [= <- <-]. repeat split. intros t Ht. now apply span_digits_nondigit.
Qed.

Lemma stable_nondigit (t : str) :
  stable t = true -> match t with [] => true | x :: _ => negb (is_digit x) end = true.
Proof.
  destruct t as [|x t]; [reflexivity|]. cbn.
  destruct (is_digit x); [discriminate|reflexivity].
Qed.

(** *** Strings *)

(** [scanstring], with the look-ahead after a high surrogate named. *)
Lemma scanstring_eq (s acc : str) :
  scanstring s acc =
  match s with
  | [] => Bad
  | c :: s1 =>
    if c =? 34 then Done (rev acc) s1
    else if c =? 92 then
      match s1 with
      | [] => Bad
      | e :: s2 =>
        if e =? chr "u" then
          match s2 with
          | h1 :: h2 :: h3 :: h4 :: s3 =>
            match hex4 h1 h2 h3 h4 with
            | None => Bad
            | Some cp =>
              if is_high_surrogate cp then
                match low_escape s3 with
                | JoinLow cp2 s4 => scanstring s4 (join_surrogates cp cp2 :: acc)
                | BadEscape => Bad
                | Alone => scanstring s3 (cp :: acc)
                end
              else scanstring s3 (cp :: acc)
            end
          | _ => Bad
          end
        else
          match unescape e with
          | Some x => scanstring s2 (x :: acc)
          | None => Bad
          end
      end
    else if c <=? 31 then Bad
    else scanstring s1 (c :: acc)
  end.
Proof.
  destruct s as [|c s1]; [reflexivity|]. cbn [scanstring].
  destruct (c =? 34); [reflexivity|]. destruct (c =? 92); [|reflexivity].
  destruct s1 as [|e s2]; [reflexivity|]. destruct (e =? chr "u"); [|reflexivity].
  destruct s2 as [|h1 [|h2 [|h3 [|h4 s3]]]]; try reflexivity.
  destruct (hex4 h1 h2 h3 h4) as [cp|]; [|reflexivity].
  destruct (is_high_surrogate cp); [|reflexivity].
  unfold low_escape.
  destruct s3 as [|b [|u [|k1 [|k2 [|k3 [|k4 s4]]]]]]; try reflexivity.
  destruct ((b =? 92) && (u =? chr "u")); [|reflexivity].
  destruct (hex4 k1 k2 k3 k4) as [cp2|]; [|reflexivity].
  destruct (is_low_surrogate cp2); reflexivity.
Qed.

Lemma low_escape_join (s : str) (cp2 : N) (s4 : str) :
  low_escape s = JoinLow cp2 s4 ->
  exists k1 k2 k3 k4,
    s = 92 :: chr "u" :: k1 :: k2 :: k3 :: k4 :: s4
    /\ forall t, low_escape (92 :: chr "u" :: k1 :: k2 :: k3 :: k4 :: t) = JoinLow cp2 t.
Proof.
  unfold low_escape.
  destruct s as [|b [|u [|k1 [|k2 [|k3 [|k4 s5]]]]]]; try discriminate.
  destruct ((b =? 92) && (u =? chr "u")) eqn:E; [|discriminate].
  apply andb_prop in E as [Eb Eu]. apply N.eqb_eq in Eb, Eu. subst b u.
  destruct (hex4 k1 k2 k3 k4) as [c|] eqn:Eh; [|discriminate].
  destruct (is_low_surrogate c) eqn:El; [|discriminate].
  intros [= -> ->]. exists k1, k2, k3, k4. split; [reflexivity|].
  intros t. cbn. rewrite Eh, El. reflexivity.
Qed.

(** When the high surrogate stays alone and a string is read to its end
    from there, the decision depends on the characters read only. *)
Lemma low_escape_alone (c r acc x : str) :
  low_escape (c ++ r) = Alone ->
  scanstring c acc = Done x [] ->
  forall t, low_escape (c ++ t) = Alone.
Proof.
  intros Hal Hc t. rewrite scanstring_eq in Hc.
  destruct c as [|b c1]; [discriminate|].
  destruct (b =? 34) eqn:E34.
  { apply N.eqb_eq in E34. subst b. unfold low_escape. cbn.
    destruct (c1 ++ t) as [|u [|k1 [|k2 [|k3 [|k4 s4]]]]]; reflexivity. }
  destruct (b =? 92) eqn:E92.
  2:{ unfold low_escape. cbn [app].
      destruct (c1 ++ t) as [|u [|k1 [|k2 [|k3 [|k4 s4]]]]]; try reflexivity.
      rewrite E92. reflexivity. }
  destruct c1 as [|u c2]; [discriminate|].
  destruct (u =? chr "u") eqn:Eu.
  2:{ unfold low_escape. cbn [app].
      destruct (c2 ++ t) as [|k1 [|k2 [|k3 [|k4 s4]]]]; try reflexivity.
      rewrite Eu, andb_false_r. reflexivity. }
  destruct c2 as [|k1 [|k2 [|k3 [|k4 c3]]]]; try discriminate.
  revert Hal. unfold low_escape. cbn [app]. rewrite E92, Eu. cbn [andb].
  destruct (hex4 k1 k2 k3 k4) as [cp2|]; [|discriminate].
  destruct (is_low_surrogate cp2); [discriminate|reflexivity].
Qed.

Lemma scanstring_local_aux (n : nat) :
  forall s acc x r,
    (length s <= n)%nat ->
    scanstring s acc = Done x r ->
    exists c, s = c ++ r /\ c <> [] /\ last c = Some 34
              /\ forall t, scanstring (c ++ t) acc = Done x t.
Proof.
  induction n as [|n IH]; intros s acc x r Hlen H.
  { destruct s; [discriminate|cbn in Hlen; lia]. }
  rewrite scanstring_eq in H.
  destruct s as [|c0 s1]; [discriminate|]. cbn in Hlen.
  destruct (c0 =? 34) eqn:E34.
  { injection H as <- <-. apply N.eqb_eq in E34. subst c0.
    exists [34]. split; [reflexivity|]. split; [discriminate|].
    split; [reflexivity|]. intros t. reflexivity. }
  destruct (c0 =? 92) eqn:E92.
  2:{ destruct (c0 <=? 31) eqn:E31; [discriminate|].
      destruct (IH s1 (c0 :: acc) x r ltac:(lia) H) as (c & -> & Hne & Hlast & Hext).
      exists (c0 :: c). split; [reflexivity|]. split; [discriminate|].
      split; [exact (last_prefixed [c0] c 34 Hne Hlast)|].
      intros t. rewrite scanstring_eq. cbn [app]. rewrite E34, E92, E31. apply Hext. }
  destruct s1 as [|e s2]; [discriminate|]. cbn in Hlen.
  destruct (e =? chr "u") eqn:Eu.
  2:{ destruct (unescape e) as [y|] eqn:Eun; [|discriminate].
      destruct (IH s2 (y :: acc) x r ltac:(lia) H) as (c & -> & Hne & Hlast & Hext).
      exists (c0 :: e :: c). split; [reflexivity|]. split; [discriminate|].
      split; [exact (last_prefixed [c0; e] c 34 Hne Hlast)|].
      intros t. rewrite scanstring_eq. cbn [app]. rewrite E34, E92, Eu, Eun.
      apply Hext. }
  destruct s2 as [|h1 [|h2 [|h3 [|h4 s3]]]]; try discriminate. cbn in Hlen.
  destruct (hex4 h1 h2 h3 h4) as [cp|] eqn:Ehex; [|discriminate].
  destruct (is_high_surrogate cp) eqn:Ehigh.
  2:{ destruct (IH s3 (cp :: acc) x r ltac:(lia) H) as (c & -> & Hne & Hlast & Hext).
      exists (c0 :: e :: h1 :: h2 :: h3 :: h4 :: c).
      split; [reflexivity|]. split; [discriminate|].
      split; [exact (last_prefixed [c0; e; h1; h2; h3; h4] c 34 Hne Hlast)|].
      intros t. rewrite scanstring_eq. cbn [app]. rewrite E34, E92, Eu, Ehex, Ehigh.
      apply Hext. }
  destruct (low_escape s3) as [cp2 s4| |] eqn:Elow; [| discriminate |].
  - destruct (low_escape_join s3 cp2 s4 Elow) as (k1 & k2 & k3 & k4 & -> & Hjoin).
    cbn in Hlen.
    destruct (IH s4 (join_surrogates cp cp2 :: acc) x r ltac:(lia) H)
      as (c & -> & Hne & Hlast & Hext).
    exists (c0 :: e :: h1 :: h2 :: h3 :: h4 :: 92 :: chr "u" :: k1 :: k2 :: k3 :: k4 :: c).
    split; [reflexivity|]. split; [discriminate|].
    split.
    { exact (last_prefixed [c0; e; h1; h2; h3; h4; 92; chr "u"; k1; k2; k3; k4]
               c 34 Hne Hlast). }
    intros t. rewrite scanstring_eq. cbn [app]. rewrite E34, E92, Eu, Ehex, Ehigh.
    rewrite Hjoin. apply Hext.
  - destruct (IH s3 (cp :: acc) x r ltac:(lia) H) as (c & -> & Hne & Hlast & Hext).
    exists (c0 :: e :: h1 :: h2 :: h3 :: h4 :: c).
    split; [reflexivity|]. split; [discriminate|].
    split; [exact (last_prefixed [c0; e; h1; h2; h3; h4] c 34 Hne Hlast)|].
    intros t. rewrite scanstring_eq. cbn [app]. rewrite E34, E92, Eu, Ehex, Ehigh.
    rewrite (low_escape_alone c r (cp :: acc) x Elow). 
    + apply Hext.
    + specialize (Hext []). now rewrite app_nil_r in Hext.
Qed.

(** A string that [scanstring] reads ends with its closing quote, and is
    read the same way whatever follows it. *)
Lemma scanstring_local (s acc x r : str) :
  scanstring s acc = Done x r ->
  exists c, s = c ++ r /\ c <> [] /\ last c = Some 34
            /\ forall t, scanstring (c ++ t) acc = Done x t.
Proof. apply (scanstring_local_aux (length s)). reflexivity. Qed.

Lemma scanstring_never_out_of_fuel (s acc : str) : scanstring s acc <> OutOfFuel.
Proof.
  remember (length s) as n eqn:Hn.
  assert (Hlen : (length s <= n)%nat) by lia. clear Hn.
  revert s acc Hlen. induction n as [|n IH]; intros s acc Hlen.
  { destruct s; [discriminate|cbn in Hlen; lia]. }
  rewrite scanstring_eq.
  destruct s as [|c0 s1]; [discriminate|]. cbn in Hlen.
  destruct (c0 =? 34); [discriminate|].
  destruct (c0 =? 92).
  2:{ destruct (c0 <=? 31); [discriminate|]. apply IH. lia. }
  destruct s1 as [|e s2]; [discriminate|]. cbn in Hlen.
  destruct (e =? chr "u").
  2:{ destruct (unescape e); [|discriminate]. apply IH. lia. }
  destruct s2 as [|h1 [|h2 [|h3 [|h4 s3]]]]; try discriminate. cbn in Hlen.
  destruct (hex4 h1 h2 h3 h4); [|discriminate].
  destruct (is_high_surrogate n0); [|apply IH; lia].
  destruct (low_escape s3) as [cp2 s4| |] eqn:Elow; [|discriminate|apply IH; lia].
  destruct (low_escape_join s3 cp2 s4 Elow) as (k1 & k2 & k3 & k4 & -> & _).
  cbn in Hlen. apply IH. lia.
Qed.

(** *** Numbers *)

Lemma stable_no_frac (t : str) : stable t = true -> no_frac t = true.
Proof.
  destruct t as [|x t]; [reflexivity|]. cbn.
  destruct (is_digit x), (x =? chr "."); cbn; congruence.
Qed.

Lemma stable_no_exp (t : str) : stable t = true -> no_exp t = true.
Proof.
  destruct t as [|x t]; [reflexivity|]. cbn.
  destruct (is_digit x), (x =? chr "."), (x =? chr "e"), (x =? chr "E"); cbn; congruence.
Qed.

Lemma no_frac_no_digit (t : str) : no_frac t = true -> no_digit t = true.
Proof.
  destruct t as [|x t]; [reflexivity|]. cbn. destruct (is_digit x); cbn; congruence.
Qed.

Lemma no_exp_no_digit (t : str) : no_exp t = true -> no_digit t = true.
Proof.
  destruct t as [|x t]; [reflexivity|]. cbn. destruct (is_digit x); cbn; congruence.
Qed.

Lemma span_digits_ext (s ds r : str) :
  span_digits s = (ds, r) ->
  s = ds ++ r /\ forall t, no_digit t = true -> span_digits (ds ++ t) = (ds, t).
Proof.
  intros H. destruct (span_digits_spec s ds r H) as (Hs & _ & Ht). split; [exact Hs|].
  intros t Hd. apply Ht. exact Hd.
Qed.

Lemma span_digits_head (s ds r : str) (x : N) :
  span_digits s = (x :: ds, r) -> is_digit x = true.
Proof.
  destruct s as [|y s]; [discriminate|]. cbn.
  destruct (is_digit y) eqn:E; [|discriminate].
  destruct (span_digits s). now intros [= <- _ _].
Qed.

Lemma scan_frac_none (t : str) : no_frac t = true -> scan_frac t = ([], t).
Proof.
  destruct t as [|x [|y t]]; try reflexivity; cbn;
    destruct (is_digit x), (x =? chr "."); cbn; try discriminate; reflexivity.
Qed.

(** The fraction read, if any, starts with a point. *)
Lemma scan_frac_ext (s fr r : str) :
  scan_frac s = (fr, r) ->
  s = fr ++ r
  /\ (forall t, no_digit t = true -> no_digit (fr ++ t) = true)
  /\ forall t, no_frac t = true -> scan_frac (fr ++ t) = (fr, t).
Proof.
  assert (Hnone : forall fr r, ([], s) = (fr, r) ->
                  s = fr ++ r
                  /\ (forall t, no_digit t = true -> no_digit (fr ++ t) = true)
                  /\ forall t, no_frac t = true -> scan_frac (fr ++ t) = (fr, t)).
  { intros fr0 r0 [= <- <-]. split; [reflexivity|].
    split; [intros t Ht; exact Ht|].
    intros t Ht. now apply scan_frac_none. }
  destruct s as [|dot [|d s']]; try (now apply Hnone).
  unfold scan_frac.
  destruct ((dot =? chr ".") && is_digit d) eqn:E; [|now apply Hnone].
  destruct (span_digits s') as [ds r'] eqn:Es. intros [= <- <-].
  destruct (span_digits_ext s' ds r' Es) as (-> & Hext).
  apply andb_prop in E as [Edot Ed]. apply N.eqb_eq in Edot. subst dot.
  split; [reflexivity|]. split; [intros; reflexivity|].
  intros t Ht. cbn [app]. rewrite Ed. cbn [andb N.eqb chr].
  change (chr "." =? chr ".") with true. cbn [andb].
  rewrite (Hext t (no_frac_no_digit t Ht)). reflexivity.
Qed.

Lemma scan_exp_none (t : str) : no_exp t = true -> scan_exp t = ([], t).
Proof.
  destruct t as [|x t]; [reflexivity|]. cbn.
  destruct (is_digit x), (x =? chr "e"), (x =? chr "E"); cbn; try discriminate;
    reflexivity.
Qed.

Lemma digit_not_sign (x : N) :
  is_digit x = true -> (x =? chr "-") || (x =? chr "+") = false.
Proof.
  unfold is_digit. intros [H1 H2]%andb_prop.
  apply N.leb_le in H1, H2. change (chr "0") with 48 in H1. change (chr "9") with 57 in H2.
  apply orb_false_intro; apply N.eqb_neq.
  - change (chr "-") with 45. lia.
  - change (chr "+") with 43. lia.
Qed.

(** The exponent read, if any, starts with its mark. *)
Lemma scan_exp_ext (s ex r : str) :
  scan_exp s = (ex, r) ->
  s = ex ++ r
  /\ (forall t, stable t = true -> no_frac (ex ++ t) = true)
  /\ forall t, no_exp t = true -> scan_exp (ex ++ t) = (ex, t).
Proof.
  assert (Hnone : forall ex r, ([], s) = (ex, r) ->
                  s = ex ++ r
                  /\ (forall t, stable t = true -> no_frac (ex ++ t) = true)
                  /\ forall t, no_exp t = true -> scan_exp (ex ++ t) = (ex, t)).
  { intros ex0 r0 [= <- <-]. split; [reflexivity|]. split.
    - intros t Ht. now apply stable_no_frac.
    - intros t Ht. now apply scan_exp_none. }
  destruct s as [|e s1]; [now apply Hnone|].
  unfold scan_exp.
  destruct ((e =? chr "e") || (e =? chr "E")) eqn:Ee; [|now apply Hnone].
  assert (Hfrac : forall l t, no_frac ((e :: l) ++ t) = true).
  { intros l t. cbn.
    apply orb_prop in Ee as [Ee|Ee]; apply N.eqb_eq in Ee; subst e; reflexivity. }
  destruct s1 as [|g s1'].
  { cbn. now apply Hnone. }
  destruct ((g =? chr "-") || (g =? chr "+")) eqn:Eg.
  - destruct (span_digits s1') as [[|x ds] r'] eqn:Es; [now apply Hnone|].
    intros [= <- <-].
    destruct (span_digits_ext s1' (x :: ds) r' Es) as (-> & Hext).
    split; [reflexivity|]. split; [intros; apply Hfrac|].
    intros t Ht. cbn [app]. rewrite Ee, Eg.
    change (x :: ds ++ t) with ((x :: ds) ++ t).
    rewrite (Hext t (no_exp_no_digit t Ht)). reflexivity.
  - destruct (span_digits (g :: s1')) as [[|x ds] r'] eqn:Es; [now apply Hnone|].
    intros [= <- <-].
    pose proof (span_digits_head _ _ _ _ Es) as Hx.
    destruct (span_digits_ext (g :: s1') (x :: ds) r' Es) as (Hs & Hext).
    cbn in Hs. injection Hs as -> ->.
    split; [reflexivity|]. split; [intros; apply Hfrac|].
    intros t Ht. cbn [app]. rewrite Ee, Eg.
    change (x :: ds ++ t) with ((x :: ds) ++ t).
    rewrite (Hext t (no_exp_no_digit t Ht)). reflexivity.
Qed.

Lemma number_rest_ext (d : N) (s2 ds fr ex s5 : str) :
  number_rest d s2 = (ds, fr, ex, s5) ->
  s2 = ds ++ fr ++ ex ++ s5
  /\ forall t, stable t = true ->
               number_rest d (ds ++ fr ++ ex ++ t) = (ds, fr, ex, t).
Proof.
  unfold number_rest.
  destruct (if d =? chr "0" then ([], s2) else span_digits s2) as [ds0 s3] eqn:E1.
  destruct (scan_frac s3) as [fr0 s4] eqn:E2.
  destruct (scan_exp s4) as [ex0 s6] eqn:E3.
  intros [= <- <- <- <-].
  destruct (scan_frac_ext s3 fr0 s4 E2) as (-> & Hf1 & Hf2).
  destruct (scan_exp_ext s4 ex0 s6 E3) as (-> & He1 & He2).
  assert (Hds : s2 = ds0 ++ fr0 ++ ex0 ++ s6
                /\ forall t, stable t = true ->
                     (if d =? chr "0" then ([], ds0 ++ fr0 ++ ex0 ++ t)
                      else span_digits (ds0 ++ fr0 ++ ex0 ++ t))
                     = (ds0, fr0 ++ ex0 ++ t)).
  { destruct (d =? chr "0").
    - injection E1 as <- <-. split; reflexivity.
    - destruct (span_digits_ext s2 ds0 _ E1) as (-> & Hext). split; [reflexivity|].
      intros t Ht. apply Hext. apply Hf1, no_frac_no_digit, He1, Ht. }
  destruct Hds as (-> & Hds). split; [reflexivity|].
  intros t Ht. rewrite (Hds t Ht).
  rewrite (Hf2 (ex0 ++ t) (He1 t Ht)).
  rewrite (He2 t (stable_no_exp t Ht)). reflexivity.
Qed.

Lemma match_number_eq (s : str) :
  match_number s =
  let (neg, s1) :=
    match s with
    | c :: s' => if c =? chr "-" then (true, s') else (false, s)
    | [] => (false, s)
    end in
  match s1 with
  | [] => Bad
  | d :: s2 =>
    if (chr "1" <=? d) && (d <=? chr "9") || (d =? chr "0") then
      let '(ds, fr, ex, s5) := number_rest d s2 in
      match fr ++ ex with
      | [] =>
        let n := int_of_digits (d :: ds) in
        Done (VInt (if neg then (- n)%Z else n)) s5
      | _ => Done (VFloat ((if neg then [chr "-"] else []) ++ d :: ds ++ fr ++ ex)) s5
      end
    else Bad
  end.
Proof.
  unfold match_number, number_rest.
  destruct (match s with
            | c :: s' => if c =? chr "-" then (true, s') else (false, s)
            | [] => (false, s)
            end) as [neg s1].
  destruct s1 as [|d s2]; [reflexivity|].
  destruct ((chr "1" <=? d) && (d <=? chr "9") || (d =? chr "0")); [|reflexivity].
  destruct (if d =? chr "0" then ([], s2) else span_digits s2) as [ds s3].
  destruct (scan_frac s3) as [fr s4]. destruct (scan_exp s4) as [ex s5]. reflexivity.
Qed.

Lemma first_digit (d : N) :
  (chr "1" <=? d) && (d <=? chr "9") || (d =? chr "0") = true -> is_digit d = true.
Proof.
  unfold is_digit. change (chr "0") with 48. change (chr "1") with 49.
  change (chr "9") with 57. intros H.
  apply andb_true_intro. rewrite !N.leb_le.
  apply orb_prop in H as [[H1 H2]%andb_prop|H].
  - apply N.leb_le in H1, H2. lia.
  - apply N.eqb_eq in H. lia.
Qed.

Lemma digit_not_minus (d : N) : is_digit d = true -> (d =? chr "-") = false.
Proof.
  intros H. apply digit_not_sign in H. now apply orb_false_elim in H as [H _].
Qed.

(** A number that [match_number] reads is read the same way before any
    text that cannot continue a number. *)
Lemma match_number_local (s : str) (v : value) (r : str) :
  match_number s = Done v r ->
  exists c, s = c ++ r /\ number_head c /\ is_number v = true
            /\ forall t, stable t = true -> match_number (c ++ t) = Done v t.
Proof.
  rewrite match_number_eq.
  assert (Hbody : forall (neg : bool) (sign : str) d s2,
             (chr "1" <=? d) && (d <=? chr "9") || (d =? chr "0") = true ->
             (let '(ds, fr, ex, s5) := number_rest d s2 in
              match fr ++ ex with
              | [] =>
                let n := int_of_digits (d :: ds) in
                Done (VInt (if neg then (- n)%Z else n)) s5
              | _ => Done (VFloat ((if neg then [chr "-"] else []) ++ d :: ds ++ fr ++ ex)) s5
              end) = Done v r ->
             exists c2, s2 = c2 ++ r /\ is_number v = true
                        /\ forall t, stable t = true ->
                             (let '(ds, fr, ex, s5) := number_rest d (c2 ++ t) in
                              match fr ++ ex with
                              | [] =>
                                let n := int_of_digits (d :: ds) in
                                Done (VInt (if neg then (- n)%Z else n)) s5
                              | _ => Done (VFloat ((if neg then [chr "-"] else [])
                                                   ++ d :: ds ++ fr ++ ex)) s5
                              end) = Done v t).
  { intros neg sign d s2 Hd.
    destruct (number_rest d s2) as [[[ds fr] ex] s5] eqn:E.
    destruct (number_rest_ext d s2 ds fr ex s5 E) as (-> & Hext).
    intros H. exists (ds ++ fr ++ ex).
    assert (Hr : s5 = r) by (destruct (fr ++ ex); now injection H).
    subst s5. split; [now rewrite <- !app_assoc|].
    split; [destruct (fr ++ ex); injection H as <-; reflexivity|].
    intros t Ht. rewrite <- !app_assoc, (Hext t Ht).
    destruct (fr ++ ex); injection H as <-; reflexivity. }
  destruct s as [|c0 s']; [discriminate|].
  destruct (c0 =? chr "-") eqn:Eminus.
  - apply N.eqb_eq in Eminus. subst c0.
    destruct s' as [|d s2]; [discriminate|].
    destruct ((chr "1" <=? d) && (d <=? chr "9") || (d =? chr "0")) eqn:Ed;
      [|discriminate].
    intros H. destruct (Hbody true [chr "-"] d s2 Ed H) as (c2 & -> & Hnum & Hext).
    exists (chr "-" :: d :: c2). split; [reflexivity|].
    split; [right; split; [reflexivity|now apply first_digit]|].
    split; [exact Hnum|].
    intros t Ht. rewrite match_number_eq. cbn [app].
    change (chr "-" =? chr "-") with true. cbv iota. rewrite Ed. now apply Hext.
  - destruct ((chr "1" <=? c0) && (c0 <=? chr "9") || (c0 =? chr "0")) eqn:Ed;
      [|discriminate].
    intros H. destruct (Hbody false [] c0 s' Ed H) as (c2 & -> & Hnum & Hext).
    exists (c0 :: c2). split; [reflexivity|].
    split; [left; now apply first_digit|]. split; [exact Hnum|].
    intros t Ht. rewrite match_number_eq. cbn [app]. rewrite Eminus, Ed. now apply Hext.
Qed.

(** *** Constants *)

Ltac eval_eqb :=
  repeat match goal with
         | |- context [N.eqb ?x ?y] =>
           let v := eval vm_compute in (N.eqb x y) in
           match v with
           | true => change (N.eqb x y) with true
           | false => change (N.eqb x y) with false
           end
         end.

(** [scan_once] with its chain of tests for constants folded. *)
Lemma scan_once_eq (f : nat) (s : str) :
  scan_once (S f) s =
  match s with
  | [] => Bad
  | c :: s' =>
    if c =? 34 then
      match scanstring s' [] with
      | Done x r => Done (VStr x) r
      | Bad => Bad
      | OutOfFuel => OutOfFuel
      end
    else if c =? chr "{" then
      match skip_ws s' with
      | c1 :: s1 =>
        if c1 =? chr "}" then Done (VDict []) s1
        else object_members f (c1 :: s1) []
      | [] => Bad
      end
    else if c =? chr "[" then
      match skip_ws s' with
      | c1 :: s1 =>
        if c1 =? chr "]" then Done (VList []) s1
        else array_items f (c1 :: s1) []
      | [] => Bad
      end
    else
      match scan_constant constants c s' with
      | Some (v, r) => Done v r
      | None => match_number s
      end
  end.
Proof.
  destruct s as [|c s']; [reflexivity|]. cbn [scan_once scan_constant constants].
  destruct (c =? 34); [reflexivity|].
  destruct (c =? chr "{"); [reflexivity|].
  destruct (c =? chr "["); [reflexivity|].
  destruct ((c =? chr "n") && startswith (lit "ull") s'); [reflexivity|].
  destruct ((c =? chr "t") && startswith (lit "rue") s'); [reflexivity|].
  destruct ((c =? chr "f") && startswith (lit "alse") s'); [reflexivity|].
  destruct ((c =? chr "N") && startswith (lit "aN") s'); [reflexivity|].
  destruct ((c =? chr "I") && startswith (lit "nfinity") s'); [reflexivity|].
  destruct ((c =? chr "-") && startswith (lit "Infinity") s'); reflexivity.
Qed.

Lemma scan_constant_local (c : N) (s' : str) (v : value) (r : str) :
  scan_constant constants c s' = Some (v, r) ->
  exists p, s' = p ++ r
            /\ forall t, scan_constant constants c (p ++ t) = Some (v, t).
Proof.
  unfold constants. cbn [scan_constant].
  repeat match goal with
         | |- context [(c =? ?k) && startswith ?p s'] =>
           let E := fresh "E" in
           let Ek := fresh "Ek" in
           let Ep := fresh "Ep" in
           destruct ((c =? k) && startswith p s') eqn:E;
             [ apply andb_prop in E as [Ek Ep]; apply N.eqb_eq in Ek; subst c;
               intros [= <- <-]; exists p; split; [now apply startswith_split|];
               intros t; eval_eqb; cbn [andb];
               rewrite startswith_app, drop_length_app; reflexivity
             | ]
         end.
  discriminate.
Qed.

Lemma digit_range (d : N) : is_digit d = true -> 48 <= d <= 57.
Proof.
  unfold is_digit. change (chr "0") with 48. change (chr "9") with 57.
  intros [H1 H2]%andb_prop. apply N.leb_le in H1, H2. lia.
Qed.

Ltac outside_digits := vm_compute; ((left; reflexivity) || (right; reflexivity)).

Lemma digit_neqb (d k : N) : is_digit d = true -> (k < 48 \/ 57 < k) -> (d =? k) = false.
Proof. intros Hd%digit_range Hk. apply N.eqb_neq. lia. Qed.

(** Where a number starts, no constant does. *)
Lemma scan_constant_number (c : N) (c' t : str) :
  number_head (c :: c') -> scan_constant constants c (c' ++ t) = None.
Proof.
  unfold constants. cbn [scan_constant number_head].
  intros [Hd|[-> Hd]].
  - rewrite !(digit_neqb c _ Hd); [reflexivity|..];
      outside_digits.
  - eval_eqb. cbn [andb]. destruct c' as [|d c']; [contradiction|].
    unfold lit at 1. cbn [app startswith list_ascii_of_string List.map].
    rewrite N.eqb_sym, (digit_neqb d _ Hd); [reflexivity|].
    outside_digits.
Qed.

Lemma number_head_first (c : N) (c' : str) :
  number_head (c :: c') ->
  (c =? 34) = false /\ (c =? chr "{") = false /\ (c =? chr "[") = false.
Proof.
  cbn [number_head]. intros [Hd|[-> Hd]].
  - repeat split; apply (digit_neqb c _ Hd); outside_digits.
  - repeat split; reflexivity.
Qed.

(** *** Values *)

Lemma settled_head (s : str) (x : N) (s1 : str) :
  skip_ws s = x :: s1 -> json_ws x = false.
Proof.
  intros H. pose proof (skip_ws_is_settled s) as Hs. rewrite H in Hs. cbn in Hs.
  now destruct (json_ws x).
Qed.

Lemma settled_cons (x : N) (t : str) : json_ws x = false -> settled (x :: t) = true.
Proof. intros H. cbn. now rewrite H. Qed.

(** The white space before a character that [skip_ws] stops at. *)
Lemma skip_ws_to (s : str) (x : N) (s1 : str) :
  skip_ws s = x :: s1 ->
  exists w, s = w ++ x :: s1 /\ forallb json_ws w = true
            /\ json_ws x = false
            /\ forall t, skip_ws (w ++ x :: t) = x :: t.
Proof.
  intros H. destruct (skip_ws_decomp s) as (w & Hs & Hw & Hskip). rewrite H in Hs.
  pose proof (settled_head s x s1 H) as Hx.
  exists w. repeat split; try assumption.
  intros t. apply Hskip. now apply settled_cons.
Qed.

(** The white space before a text that [skip_ws] stops at. *)
Lemma skip_ws_before (s c r : str) :
  skip_ws s = c ++ r -> c <> [] ->
  exists w, s = w ++ c ++ r /\ forallb json_ws w = true
            /\ forall t, skip_ws (w ++ c ++ t) = c ++ t.
Proof.
  intros H Hne. destruct c as [|x c]; [congruence|].
  destruct (skip_ws_to s x (c ++ r) H) as (w & Hs & Hw & Hx & Hskip).
  exists w. repeat split; try assumption. intros t. apply Hskip.
Qed.

Lemma closer_stable (o : N) : o = chr "[" \/ o = chr "{" -> stable [closer o] = true.
Proof. intros [->| ->]; reflexivity. Qed.

Ltac right_nested := repeat progress (rewrite <- ?app_assoc; cbn [app]).

Lemma items_local_step (f : nat) :
  value_local f -> items_local f -> items_local (S f).
Proof.
  intros IHv IHa s acc v r H. cbn [array_items] in H.
  destruct (scan_once f s) as [v0 s1| |] eqn:Ev; try discriminate.
  destruct (IHv s v0 s1 Ev) as (cv & -> & Hcv & _ & Hextv).
  destruct (skip_ws s1) as [|d s2] eqn:Esk; [discriminate|].
  destruct (skip_ws_to s1 d s2 Esk) as (w & -> & Hw & Hd & Hskip).
  destruct (d =? chr "]") eqn:Eclose.
  - injection H as <- <-. apply N.eqb_eq in Eclose. subst d.
    exists (cv ++ w ++ [chr "]"]).
    split; [right_nested; reflexivity|].
    split; [destruct cv; [congruence|discriminate]|].
    split; [rewrite !app_assoc; apply last_snoc|].
    intros t. right_nested. cbn [array_items].
    rewrite (Hextv (w ++ chr "]" :: t)), Hskip; [reflexivity|].
    intros _. now apply stable_ws_then.
  - destruct (d =? chr ",") eqn:Ecomma; [|discriminate].
    apply N.eqb_eq in Ecomma. subst d.
    destruct (IHa _ _ _ _ H) as (ca & Hca & Hne & Hlast & Hexta).
    destruct (skip_ws_before s2 ca r Hca Hne) as (w2 & -> & Hw2 & Hskip2).
    exists (cv ++ w ++ chr "," :: w2 ++ ca).
    split; [right_nested; reflexivity|].
    split; [destruct cv; [congruence|discriminate]|].
    split.
    { change (cv ++ w ++ chr "," :: w2 ++ ca) with (cv ++ w ++ (chr "," :: w2) ++ ca).
      rewrite !app_assoc. now apply last_prefixed. }
    intros t. right_nested. cbn [array_items].
    rewrite (Hextv (w ++ chr "," :: w2 ++ ca ++ t)), Hskip.
    + cbn [N.eqb]. change (chr "," =? chr "]") with false. rewrite N.eqb_refl.
      cbv iota. rewrite Hskip2. apply Hexta.
    + intros _. now apply stable_ws_then.
Qed.

Lemma members_local_step (f : nat) :
  value_local f -> members_local f -> members_local (S f).
Proof.
  intros IHv IHo s acc v r H. cbn [object_members] in H.
  destruct s as [|q s1]; [discriminate|].
  destruct (q =? 34) eqn:Eq; [|discriminate].
  destruct (scanstring s1 []) as [key s2| |] eqn:Ek; try discriminate.
  destruct (scanstring_local s1 [] key s2 Ek) as (ck & -> & Hck & _ & Hextk).
  destruct (skip_ws s2) as [|col s3] eqn:Esk1; [discriminate|].
  destruct (skip_ws_to s2 col s3 Esk1) as (w1 & -> & Hw1 & Hcol & Hskip1).
  destruct (col =? chr ":") eqn:Ecol; [|discriminate].
  destruct (scan_once f (skip_ws s3)) as [v0 s4| |] eqn:Ev; try discriminate.
  destruct (IHv _ v0 s4 Ev) as (cv & Hcv & Hcvne & _ & Hextv).
  destruct (skip_ws_before s3 cv s4 Hcv Hcvne) as (w2 & -> & Hw2 & Hskip2).
  destruct (skip_ws s4) as [|d s5] eqn:Esk3; [discriminate|].
  destruct (skip_ws_to s4 d s5 Esk3) as (w3 & -> & Hw3 & Hd & Hskip3).
  destruct (d =? chr "}") eqn:Eclose.
  - injection H as <- <-. apply N.eqb_eq in Eclose. subst d.
    exists (q :: ck ++ w1 ++ col :: w2 ++ cv ++ w3 ++ [chr "}"]).
    split; [right_nested; reflexivity|].
    split; [discriminate|].
    split.
    { change (q :: ck ++ w1 ++ col :: w2 ++ cv ++ w3 ++ [chr "}"])
        with ((q :: ck) ++ w1 ++ (col :: w2) ++ cv ++ w3 ++ [chr "}"]).
      rewrite !app_assoc. apply last_snoc. }
    intros t. right_nested. cbn [object_members].
    rewrite Eq, Hextk, Hskip1, Ecol, Hskip2.
    rewrite (Hextv (w3 ++ chr "}" :: t)), Hskip3; [reflexivity|].
    intros _. now apply stable_ws_then.
  - destruct (d =? chr ",") eqn:Ecomma; [|discriminate].
    apply N.eqb_eq in Ecomma. subst d.
    destruct (IHo _ _ _ _ H) as (cm & Hcm & Hne & Hlast & Hextm).
    destruct (skip_ws_before s5 cm r Hcm Hne) as (w4 & -> & Hw4 & Hskip4).
    exists (q :: ck ++ w1 ++ col :: w2 ++ cv ++ w3 ++ chr "," :: w4 ++ cm).
    split; [right_nested; reflexivity|].
    split; [discriminate|].
    split.
    { change (q :: ck ++ w1 ++ col :: w2 ++ cv ++ w3 ++ chr "," :: w4 ++ cm)
        with ((q :: ck) ++ w1 ++ (col :: w2) ++ cv ++ w3 ++ (chr "," :: w4) ++ cm).
      rewrite !app_assoc. now apply last_prefixed. }
    intros t. right_nested. cbn [object_members].
    rewrite Eq, Hextk, Hskip1, Ecol, Hskip2.
    rewrite (Hextv (w3 ++ chr "," :: w4 ++ cm ++ t)), Hskip3.
    + change (chr "," =? chr "}") with false. rewrite N.eqb_refl.
      cbv iota. rewrite Hskip4. apply Hextm.
    + intros _. now apply stable_ws_then.
Qed.

Lemma value_local_step (f : nat) :
  members_local f -> items_local f -> value_local (S f).
Proof.
  intros IHo IHa s v r H. rewrite scan_once_eq in H.
  destruct s as [|c0 s']; [discriminate|].
  destruct (c0 =? 34) eqn:E34.
  { (* a string *)
    destruct (scanstring s' []) as [x s1| |] eqn:Es; try discriminate.
    injection H as <- <-.
    destruct (scanstring_local s' [] x s1 Es) as (c & -> & Hc & _ & Hext).
    exists (c0 :: c). split; [reflexivity|]. split; [discriminate|].
    split.
    - intros o Ho [= ->]. destruct Ho as [-> | ->]; discriminate.
    - intros t _. rewrite scan_once_eq. cbn [app]. rewrite E34, Hext. reflexivity. }
  destruct (c0 =? chr "{") eqn:Eobj.
  { (* an object *)
    apply N.eqb_eq in Eobj. subst c0.
    destruct (skip_ws s') as [|c1 s1] eqn:Esk; [discriminate|].
    destruct (skip_ws_to s' c1 s1 Esk) as (w & -> & Hw & Hc1 & Hskip).
    destruct (c1 =? chr "}") eqn:Eclose.
    - injection H as <- <-. apply N.eqb_eq in Eclose. subst c1.
      exists (chr "{" :: w ++ [chr "}"]).
      split; [right_nested; reflexivity|]. split; [discriminate|].
      split.
      + intros o _ [= <-].
        change (chr "{" :: w ++ [chr "}"]) with ((chr "{" :: w) ++ [chr "}"]).
        apply last_snoc.
      + intros t _. rewrite scan_once_eq. right_nested. eval_eqb. cbv iota. rewrite Hskip. eval_eqb. reflexivity.
    - destruct (IHo _ _ _ _ H) as (cm & Hcm & Hne & Hlast & Hextm).
      destruct cm as [|x cm]; [congruence|]. injection Hcm as <- ->.
      exists (chr "{" :: w ++ c1 :: cm).
      split; [right_nested; reflexivity|]. split; [discriminate|].
      split.
      + intros o _ [= <-].
        change (chr "{" :: w ++ c1 :: cm) with ((chr "{" :: w) ++ c1 :: cm).
        now apply last_prefixed.
      + intros t _. rewrite scan_once_eq. right_nested. eval_eqb. cbv iota. rewrite Hskip, Eclose. apply Hextm. }
  destruct (c0 =? chr "[") eqn:Earr.
  { (* a list *)
    apply N.eqb_eq in Earr. subst c0.
    destruct (skip_ws s') as [|c1 s1] eqn:Esk; [discriminate|].
    destruct (skip_ws_to s' c1 s1 Esk) as (w & -> & Hw & Hc1 & Hskip).
    destruct (c1 =? chr "]") eqn:Eclose.
    - injection H as <- <-. apply N.eqb_eq in Eclose. subst c1.
      exists (chr "[" :: w ++ [chr "]"]).
      split; [right_nested; reflexivity|]. split; [discriminate|].
      split.
      + intros o _ [= <-].
        change (chr "[" :: w ++ [chr "]"]) with ((chr "[" :: w) ++ [chr "]"]).
        apply last_snoc.
      + intros t _. rewrite scan_once_eq. right_nested. eval_eqb. cbv iota. rewrite Hskip. eval_eqb. reflexivity.
    - destruct (IHa _ _ _ _ H) as (ca & Hca & Hne & Hlast & Hexta).
      destruct ca as [|x ca]; [congruence|]. injection Hca as <- ->.
      exists (chr "[" :: w ++ c1 :: ca).
      split; [right_nested; reflexivity|]. split; [discriminate|].
      split.
      + intros o _ [= <-].
        change (chr "[" :: w ++ c1 :: ca) with ((chr "[" :: w) ++ c1 :: ca).
        now apply last_prefixed.
      + intros t _. rewrite scan_once_eq. right_nested. eval_eqb. cbv iota. rewrite Hskip, Eclose. apply Hexta. }
  assert (Hopen : forall o, o = chr "[" \/ o = chr "{" ->
                            head (c0 :: s') = Some o -> False).
  { intros o Ho [= ->]. destruct Ho as [-> | ->].
    - now rewrite N.eqb_refl in Earr.
    - now rewrite N.eqb_refl in Eobj. }
  destruct (scan_constant constants c0 s') as [[v0 r0]|] eqn:Econst.
  { (* a constant *)
    injection H as <- <-.
    destruct (scan_constant_local c0 s' v0 r0 Econst) as (p & -> & Hext).
    exists (c0 :: p). split; [reflexivity|]. split; [discriminate|].
    split; [intros o Ho Hhead; destruct (Hopen o Ho Hhead)|].
    intros t _. rewrite scan_once_eq. cbn [app]. rewrite E34, Eobj, Earr, Hext.
    reflexivity. }
  (* a number *)
  destruct (match_number_local (c0 :: s') v r H) as (c & Hc & Hhead & Hnum & Hext).
  destruct c as [|x c]; [contradiction|]. injection Hc as <- ->.
  exists (c0 :: c). split; [reflexivity|]. split; [discriminate|].
  split; [intros o Ho Hh; destruct (Hopen o Ho Hh)|].
  intros t Ht. rewrite scan_once_eq. cbn [app].
  rewrite E34, Eobj, Earr, (scan_constant_number c0 c t Hhead).
  apply Hext, Ht, Hnum.
Qed.

Lemma decoder_local (f : nat) : value_local f /\ members_local f /\ items_local f.
Proof.
  induction f as [|f (IHv & IHo & IHa)].
  - repeat split; intros ? **; discriminate.
  - split; [now apply value_local_step|].
    split; [now apply members_local_step|now apply items_local_step].
Qed.

(** *** Fuel *)

Lemma match_number_never_out_of_fuel (s : str) : match_number s <> OutOfFuel.
Proof.
  rewrite match_number_eq.
  destruct (match s with
            | c :: s' => if c =? chr "-" then (true, s') else (false, s)
            | [] => (false, s)
            end) as [neg s1].
  destruct s1 as [|d s2]; [discriminate|].
  destruct ((chr "1" <=? d) && (d <=? chr "9") || (d =? chr "0")); [|discriminate].
  destruct (number_rest d s2) as [[[ds fr] ex] s5].
  destruct (fr ++ ex); discriminate.
Qed.

Lemma decoder_fuel_stable (f : nat) : fuel_stable f.
Proof.
  induction f as [|f (IHv & IHo & IHa)].
  { repeat split; intros; cbn in *; congruence. }
  split; [|split].
  - intros s. rewrite (scan_once_eq (S f)), (scan_once_eq f).
    destruct s as [|c s']; [reflexivity|].
    destruct (c =? 34); [reflexivity|].
    destruct (c =? chr "{").
    { destruct (skip_ws s') as [|c1 s1]; [reflexivity|].
      destruct (c1 =? chr "}"); [reflexivity|]. apply IHo. }
    destruct (c =? chr "[").
    { destruct (skip_ws s') as [|c1 s1]; [reflexivity|].
      destruct (c1 =? chr "]"); [reflexivity|]. apply IHa. }
    reflexivity.
  - intros s acc. cbn [object_members].
    destruct s as [|q s1]; [reflexivity|].
    destruct (q =? 34); [|reflexivity].
    destruct (scanstring s1 []) as [key s2| |]; try reflexivity.
    destruct (skip_ws s2) as [|col s3]; [reflexivity|].
    destruct (col =? chr ":"); [|reflexivity].
    intros H.
    assert (Hv : scan_once f (skip_ws s3) <> OutOfFuel).
    { intros E. rewrite E in H. congruence. }
    rewrite (IHv _ Hv).
    destruct (scan_once f (skip_ws s3)) as [v s4| |]; try reflexivity.
    destruct (skip_ws s4) as [|d s5]; [reflexivity|].
    destruct (d =? chr "}"); [reflexivity|].
    destruct (d =? chr ","); [|reflexivity].
    apply IHo. exact H.
  - intros s acc. cbn [array_items]. intros H.
    assert (Hv : scan_once f s <> OutOfFuel).
    { intros E. rewrite E in H. congruence. }
    rewrite (IHv _ Hv).
    destruct (scan_once f s) as [v s1| |]; try reflexivity.
    destruct (skip_ws s1) as [|d s2]; [reflexivity|].
    destruct (d =? chr "]"); [reflexivity|].
    destruct (d =? chr ","); [|reflexivity].
    apply IHa. exact H.
Qed.

Lemma scan_once_more_fuel (f f' : nat) (s : str) :
  scan_once f s <> OutOfFuel -> (f <= f')%nat -> scan_once f' s = scan_once f s.
Proof.
  intros H Hle. induction Hle as [|f' Hle IH]; [reflexivity|].
  rewrite <- IH. apply decoder_fuel_stable. now rewrite IH.
Qed.

Lemma scan_once_length (f : nat) (s : str) (v : value) (r : str) :
  scan_once f s = Done v r -> (length r < length s)%nat.
Proof.
  intros H. destruct (proj1 (decoder_local f) s v r H) as (c & -> & Hne & _).
  now apply length_lt_app_nonnil.
Qed.

Lemma scanstring_length (s acc x r : str) :
  scanstring s acc = Done x r -> (length r < length s)%nat.
Proof.
  intros H. destruct (scanstring_local s acc x r H) as (c & -> & Hne & _).
  now apply length_lt_app_nonnil.
Qed.

Lemma skip_ws_cons_length (s : str) (x : N) (s1 : str) :
  skip_ws s = x :: s1 -> (S (length s1) <= length s)%nat.
Proof. intros H. pose proof (skip_ws_length s) as Hl. rewrite H in Hl. exact Hl. Qed.

Lemma decoder_fuel_enough (f : nat) : fuel_enough f.
Proof.
  induction f as [|f (IHv & IHo & IHa)].
  { repeat split; intros; lia. }
  split; [|split].
  - intros s Hlen. rewrite scan_once_eq.
    destruct s as [|c s']; [discriminate|]. cbn [length] in Hlen.
    destruct (c =? 34).
    { pose proof (scanstring_never_out_of_fuel s' []).
      destruct (scanstring s' []); congruence. }
    destruct (c =? chr "{").
    { destruct (skip_ws s') as [|c1 s1] eqn:E; [discriminate|].
      destruct (c1 =? chr "}"); [discriminate|].
      apply IHo. apply skip_ws_cons_length in E. cbn [length]. lia. }
    destruct (c =? chr "[").
    { destruct (skip_ws s') as [|c1 s1] eqn:E; [discriminate|].
      destruct (c1 =? chr "]"); [discriminate|].
      apply IHa. apply skip_ws_cons_length in E. cbn [length]. lia. }
    destruct (scan_constant constants c s') as [[v r]|]; [discriminate|].
    apply match_number_never_out_of_fuel.
  - intros s acc Hlen. cbn [object_members].
    destruct s as [|q s1]; [discriminate|]. cbn [length] in Hlen.
    destruct (q =? 34); [|discriminate].
    pose proof (scanstring_never_out_of_fuel s1 []) as Hk.
    destruct (scanstring s1 []) as [key s2| |] eqn:Ek; [|discriminate|congruence].
    apply scanstring_length in Ek.
    destruct (skip_ws s2) as [|col s3] eqn:E1; [discriminate|].
    apply skip_ws_cons_length in E1.
    destruct (col =? chr ":"); [|discriminate].
    pose proof (skip_ws_length s3) as E2.
    pose proof (IHv (skip_ws s3) ltac:(lia)) as Hv.
    destruct (scan_once f (skip_ws s3)) as [v s4| |] eqn:Ev; [|discriminate|congruence].
    apply scan_once_length in Ev.
    destruct (skip_ws s4) as [|d s5] eqn:E3; [discriminate|].
    apply skip_ws_cons_length in E3.
    destruct (d =? chr "}"); [discriminate|].
    destruct (d =? chr ","); [|discriminate].
    apply IHo. pose proof (skip_ws_length s5). lia.
  - intros s acc Hlen. cbn [array_items].
    pose proof (IHv s ltac:(lia)) as Hv.
    destruct (scan_once f s) as [v s1| |] eqn:Ev; [|discriminate|congruence].
    apply scan_once_length in Ev.
    destruct (skip_ws s1) as [|d s2] eqn:E1; [discriminate|].
    apply skip_ws_cons_length in E1.
    destruct (d =? chr "]"); [discriminate|].
    destruct (d =? chr ","); [|discriminate].
    apply IHa. pose proof (skip_ws_length s2). lia.
Qed.

(** [json_loads] does not depend on the fuel it provides: any amount of
    fuel with which the scanner ends gives its result. *)
Lemma json_loads_any_fuel (f : nat) (s : str) (v : value) (r : str) :
  scan_once f (skip_ws s) = Done v r -> skip_ws r = [] -> json_loads s = Some v.
Proof.
  intros H Hr. unfold json_loads.
  assert (Hf : scan_once (2 * length s + 1) (skip_ws s) = Done v r).
  { pose proof (skip_ws_length s) as Hl.
    pose proof (proj1 (decoder_fuel_enough (2 * length s + 1)) (skip_ws s) ltac:(lia))
      as Hen.
    destruct (Nat.le_ge_cases f (2 * length s + 1)) as [Hle|Hle].
    - assert (Hne : scan_once f (skip_ws s) <> OutOfFuel) by (rewrite H; discriminate).
      rewrite (scan_once_more_fuel f _ _ Hne Hle). exact H.
    - rewrite <- (scan_once_more_fuel _ f _ Hen Hle). exact H. }
  rewrite Hf, Hr. reflexivity.
Qed.

Lemma json_loads_inv (s : str) (v : value) :
  json_loads s = Some v ->
  exists r, scan_once (2 * length s + 1) (skip_ws s) = Done v r /\ skip_ws r = [].
Proof.
  unfold json_loads.
  destruct (scan_once (2 * length s + 1) (skip_ws s)) as [v0 r| |]; try discriminate.
  destruct (skip_ws r) eqn:E; [|discriminate]. intros [= <-]. eauto.
Qed.

(** *** Texts that start with a bracket *)

Lemma bracket_not_ws (o : N) : is_bracket o -> json_ws o = false.
Proof. intros [-> | ->]; reflexivity. Qed.


Lemma closer_neq (o : N) : is_bracket o -> closer o <> o.
Proof. intros [-> | ->]; discriminate. Qed.

Lemma skip_ws_bracket (s : str) (o : N) :
  is_bracket o -> head s = Some o -> skip_ws s = s.
Proof.
  intros Ho Hs. destruct s as [|x s]; [discriminate|]. injection Hs as ->.
  apply skip_ws_settled, settled_cons, bracket_not_ws, Ho.
Qed.




(** A text that starts with a bracket and that [json.loads] accepts is a
    text that ends with the matching bracket, which [json.loads] accepts
    with the same value, followed by white space. *)
Lemma json_loads_bracket (s : str) (o : N) (v : value) :
  is_bracket o -> head s = Some o -> json_loads s = Some v ->
  exists c w, s = c ++ w /\ head c = Some o /\ last c = Some (closer o)
              /\ json_loads c = Some v /\ skip_ws w = [].
Proof.
  intros Ho Hs H. destruct (json_loads_inv s v H) as (r & Hscan & Hr).
  rewrite (skip_ws_bracket s o Ho Hs) in Hscan.
  destruct (proj1 (decoder_local _) s v r Hscan) as (c & Hc & Hne & Hlast & Hext).
  exists c, r. split; [exact Hc|].
  assert (Hhead : head c = Some o).
  { destruct c as [|x c]; [congruence|]. subst s. exact Hs. }
  split; [exact Hhead|]. split; [exact (Hlast o Ho Hs)|]. split; [|exact Hr].
  apply (json_loads_any_fuel (2 * length s + 1) c v []); [|reflexivity].
  rewrite (skip_ws_bracket c o Ho Hhead).
  specialize (Hext [] (fun _ => eq_refl)). now rewrite app_nil_r in Hext.
Qed.



(** ** Python string operations *)

Lemma lstrip_decomp (s : str) :
  exists w, s = w ++ lstrip s /\ forallb isspace w = true.
Proof.
  induction s as [|x s (w & Hs & Hw)]; [exists []; split; reflexivity|].
  cbn [lstrip]. destruct (isspace x) eqn:E.
  - exists (x :: w). split; [cbn; congruence|]. cbn. now rewrite E.
  - exists []. split; reflexivity.
Qed.

Lemma lstrip_nonspace (x : N) (s : str) : isspace x = false -> lstrip (x :: s) = x :: s.
Proof. intros H. cbn. now rewrite H. Qed.

Lemma lstrip_spaces (w s : str) : forallb isspace w = true -> lstrip (w ++ s) = lstrip s.
Proof.
  induction w as [|x w IH]; [reflexivity|]. cbn.
  intros [Hx Hw]%andb_prop. rewrite Hx. now apply IH.
Qed.

Lemma lstrip_app_nonspace (a : str) (x : N) (b : str) :
  isspace x = false -> lstrip (a ++ x :: b) = lstrip a ++ x :: b.
Proof.
  intros Hx. induction a as [|y a IH]; cbn.
  - now rewrite Hx.
  - destruct (isspace y); [exact IH|reflexivity].
Qed.

Lemma rstrip_decomp (s : str) :
  exists w, s = rstrip s ++ w /\ forallb isspace w = true.
Proof.
  unfold rstrip. destruct (lstrip_decomp (rev s)) as (w & Hs & Hw).
  exists (rev w). split.
  - rewrite <- rev_app_distr, <- Hs. now rewrite rev_involutive.
  - rewrite forallb_forall in *. intros x Hx. apply Hw. now apply in_rev.
Qed.

Lemma rstrip_app_nonspace (a : str) (y : N) (b : str) :
  isspace y = false -> rstrip (a ++ y :: b) = a ++ y :: rstrip b.
Proof.
  intros Hy. unfold rstrip.
  rewrite rev_app_distr. cbn [rev]. rewrite <- app_assoc. cbn [app].
  rewrite (lstrip_app_nonspace _ _ _ Hy), rev_app_distr. cbn [rev].
  rewrite rev_involutive. now rewrite <- app_assoc.
Qed.

(** A text that begins and ends with characters that are not white space
    stays whole when what is around it is stripped. *)
Lemma strip_around (pre mid post : str) (x y : N) :
  head mid = Some x -> last mid = Some y -> isspace x = false -> isspace y = false ->
  strip (pre ++ mid ++ post) = lstrip pre ++ mid ++ rstrip post.
Proof.
  intros Hx Hy Ex Ey. unfold strip.
  destruct mid as [|x0 mid']; [discriminate|]. injection Hx as ->.
  cbn [app]. rewrite (lstrip_app_nonspace _ _ _ Ex).
  change (x :: mid' ++ post) with ((x :: mid') ++ post).
  destruct (last_Some (x :: mid') y) as [(b & Hb) _]; [exact Hy|].
  rewrite Hb, <- !app_assoc. cbn [app].
  rewrite (app_assoc (lstrip pre) b), (rstrip_app_nonspace _ _ _ Ey).
  change (x :: mid' ++ rstrip post) with ((x :: mid') ++ rstrip post).
  rewrite Hb, <- !app_assoc. reflexivity.
Qed.

Lemma strip_self (s : str) (x y : N) :
  head s = Some x -> last s = Some y -> isspace x = false -> isspace y = false ->
  strip s = s.
Proof.
  intros Hx Hy Ex Ey.
  pose proof (strip_around [] s [] x y Hx Hy Ex Ey) as H.
  cbn [app lstrip] in H. change (rstrip []) with (@nil N) in H.
  now rewrite !app_nil_r in H.
Qed.




Lemma startswith_char (o : N) (s : str) : startswith [o] s = true -> head s = Some o.
Proof.
  destruct s as [|y s]; [discriminate|]. cbn.
  rewrite andb_true_r. intros H%N.eqb_eq. now subst.
Qed.

Lemma startswith_char_head (o : N) (s : str) : startswith [o] (o :: s) = true.
Proof. cbn. now rewrite N.eqb_refl. Qed.


(** [find] for one character. *)
Lemma find_char_Some (o : N) (raw : str) (start : nat) :
  find [o] raw = Some start ->
  exists a b, raw = a ++ o :: b /\ length a = start /\ o ∉ a.
Proof.
  revert start. induction raw as [|y raw IH]; intros start; [discriminate|].
  cbn [find]. destruct (startswith [o] (y :: raw)) eqn:E.
  - intros [= <-]. apply startswith_char in E. injection E as ->.
    exists [], raw. repeat split. apply not_elem_of_nil.
  - destruct (find [o] raw) as [i|] eqn:Ef; [|discriminate]. intros [= <-].
    destruct (IH i eq_refl) as (a & b & -> & Hlen & Hna).
    exists (y :: a), b. split; [reflexivity|]. split; [cbn; congruence|].
    intros [->|Hin]%elem_of_cons; [|contradiction].
    now rewrite startswith_char_head in E.
Qed.

Lemma find_char_None (o : N) (raw : str) : find [o] raw = None -> o ∉ raw.
Proof.
  induction raw as [|y raw IH]; [intros _; apply not_elem_of_nil|].
  cbn [find]. destruct (startswith [o] (y :: raw)) eqn:E; [discriminate|].
  destruct (find [o] raw); [discriminate|]. intros _.
  intros [->|Hin]%elem_of_cons; [|now apply IH].
  now rewrite startswith_char_head in E.
Qed.



(** *** The fence marker *)





(** ** The three strategies *)



(** The inner loop over the closing positions [a], [a+1], ... *)
Lemma scan_ends_seq (raw : str) (start : nat) (close_char : N) (n a : nat) :
  match scan_ends raw start close_char (seq a n) with
  | Some v =>
    exists e, (a <= e < a + n)%nat
              /\ raw !! e = Some close_char
              /\ json_loads (slice raw start (e + 1)) = Some v
              /\ forall e', (a <= e' < e)%nat -> raw !! e' = Some close_char ->
                            json_loads (slice raw start (e' + 1)) = None
  | None =>
    forall e, (a <= e < a + n)%nat -> raw !! e = Some close_char ->
              json_loads (slice raw start (e + 1)) = None
  end.
Proof.
  revert a. induction n as [|n IH]; intros a; cbn [seq scan_ends].
  { intros e He. lia. }
  specialize (IH (S a)).
  destruct (raw !! a) as [c|] eqn:Ea.
  - destruct (c =? close_char) eqn:Ec.
    + apply N.eqb_eq in Ec. subst c.
      destruct (json_loads (slice raw start (a + 1))) as [v|] eqn:Ej.
      * exists a. split; [lia|]. split; [exact Ea|]. split; [exact Ej|].
        intros e' He'. lia.
      * destruct (scan_ends raw start close_char (seq (S a) n)) as [v|].
        -- destruct IH as (e & He & Hc & Hj & Hmin).
           exists e. split; [lia|]. split; [exact Hc|]. split; [exact Hj|].
           intros e' He' Hc'. destruct (Nat.eq_dec e' a) as [->|Hne]; [exact Ej|].
           apply Hmin; [lia|exact Hc'].
        -- intros e He Hc. destruct (Nat.eq_dec e a) as [->|Hne]; [exact Ej|].
           apply IH; [lia|exact Hc].
    + assert (Hno : raw !! a <> Some close_char).
      { rewrite Ea. intros [= ->]. now rewrite N.eqb_refl in Ec. }
      destruct (scan_ends raw start close_char (seq (S a) n)) as [v|].
      * destruct IH as (e & He & Hc & Hj & Hmin).
        exists e. split; [lia|]. split; [exact Hc|]. split; [exact Hj|].
        intros e' He' Hc'. destruct (Nat.eq_dec e' a) as [->|Hne]; [contradiction|].
        apply Hmin; [lia|exact Hc'].
      * intros e He Hc. destruct (Nat.eq_dec e a) as [->|Hne]; [contradiction|].
        apply IH; [lia|exact Hc].
  - destruct (scan_ends raw start close_char (seq (S a) n)) as [v|].
    + destruct IH as (e & He & Hc & Hj & Hmin).
      exists e. split; [lia|]. split; [exact Hc|]. split; [exact Hj|].
      intros e' He' Hc'. destruct (Nat.eq_dec e' a) as [->|Hne]; [congruence|].
      apply Hmin; [lia|exact Hc'].
    + intros e He Hc. destruct (Nat.eq_dec e a) as [->|Hne]; [congruence|].
      apply IH; [lia|exact Hc].
Qed.

Lemma json_loads_nil : json_loads [] = None.
Proof. reflexivity. Qed.

(** A text at an opening bracket that [json.loads] accepts holds one of the
    candidates of the bracket scan: it ends at a closing bracket inside the
    text, and [json.loads] accepts it with the same value. *)
Lemma bracket_candidate (raw : str) (start m : nat) (o : N) (v : value) :
  is_bracket o -> raw !! start = Some o ->
  json_loads (take m (drop start raw)) = Some v ->
  exists e, (start + 1 <= e < length raw)%nat
            /\ (e + 1 - start <= m)%nat
            /\ raw !! e = Some (closer o)
            /\ json_loads (slice raw start (e + 1)) = Some v.
Proof.
  intros Ho Hstart H.
  assert (Hhead : head (take m (drop start raw)) = Some o).
  { destruct m as [|m]; [rewrite take_0 in H; discriminate|].
    rewrite head_lookup, lookup_take_lt, lookup_drop, Nat.add_0_r by lia.
    exact Hstart. }
  destruct (json_loads_bracket _ o v Ho Hhead H) as (c & w & Hcw & Hc & Hlast & Hj & _).
  assert (Hk : (length c <= m)%nat).
  { apply (f_equal length) in Hcw. rewrite length_take, length_app in Hcw. lia. }
  assert (Hc' : c = take (length c) (drop start raw)).
  { transitivity (take (length c) (c ++ w)); [now rewrite take_app_length|].
    rewrite <- Hcw, take_take. now rewrite Nat.min_l by exact Hk. }
  assert (Hk2 : (2 <= length c)%nat).
  { destruct c as [|x [|y c]]; cbn; try lia; [discriminate|].
    cbn in Hc, Hlast. injection Hc as ->. injection Hlast as Heq.
    symmetry in Heq. now apply closer_neq in Heq. }
  assert (Hclose : raw !! (start + length c - 1)%nat = Some (closer o)).
  { rewrite last_lookup in Hlast. remember (length c) as k eqn:Ek.
    rewrite Hc', lookup_take_lt, lookup_drop in Hlast by lia.
    rewrite <- Hlast. f_equal. lia. }
  exists (start + length c - 1)%nat.
  split; [split; [lia|now apply lookup_lt_Some in Hclose]|].
  split; [lia|]. split; [exact Hclose|].
  unfold slice.
  replace (start + length c - 1 + 1 - start)%nat with (length c) by lia.
  now rewrite <- Hc'.
Qed.

(** The scan for one pair of brackets returns the shortest text at the
    first opening bracket that [json.loads] accepts, when there is one. *)
Lemma bracket_scan_spec (raw : str) (o : N) :
  is_bracket o ->
  match bracket_scan raw o (closer o) with
  | Some v => exists start n, find [o] raw = Some start
                              /\ shortest_parse_at raw start n v
  | None => forall start, find [o] raw = Some start -> no_parse_at raw start
  end.
Proof.
  intros Ho. unfold bracket_scan.
  destruct (find [o] raw) as [start|] eqn:Ef; [|discriminate].
  destruct (find_char_Some o raw start Ef) as (a & b & Hraw & Hlen & _).
  assert (Hstart : raw !! start = Some o).
  { rewrite Hraw, <- Hlen. now rewrite list_lookup_middle. }
  assert (Hlt : (start < length raw)%nat) by now apply lookup_lt_Some in Hstart.
  pose proof (scan_ends_seq raw start (closer o) (length raw - (start + 1)) (start + 1))
    as Hscan.
  destruct (scan_ends raw start (closer o) _) as [v|].
  - destruct Hscan as (e & He & Hc & Hj & Hmin).
    exists start, (e + 1 - start)%nat. split; [reflexivity|]. split; [exact Hj|].
    intros m Hm. destruct (json_loads (take m (drop start raw))) as [v'|] eqn:E;
      [|reflexivity].
    destruct (bracket_candidate raw start m o v' Ho Hstart E)
      as (e' & He' & Hm' & Hc' & Hj').
    rewrite (Hmin e') in Hj'; [discriminate|lia|exact Hc'].
  - intros start' [= <-] m.
    destruct (json_loads (take m (drop start raw))) as [v'|] eqn:E; [|reflexivity].
    destruct (bracket_candidate raw start m o v' Ho Hstart E)
      as (e' & He' & Hm' & Hc' & Hj').
    rewrite (Hscan e') in Hj'; [discriminate|lia|exact Hc'].
Qed.

Lemma scan_pairs_eq (raw : str) :
  scan_pairs raw bracket_pairs =
  match bracket_scan raw (chr "[") (closer (chr "[")) with
  | Some v => Some v
  | None => bracket_scan raw (chr "{") (closer (chr "{"))
  end.
Proof.
  unfold bracket_pairs. cbn [scan_pairs].
  change (closer (chr "[")) with (chr "]"). change (closer (chr "{")) with (chr "}").
  destruct (bracket_scan raw (chr "[") (chr "]")); [reflexivity|].
  destruct (bracket_scan raw (chr "{") (chr "}")); reflexivity.
Qed.

(** C2: when the direct parse and the fence strategy fail, what
    [safe_json_from_model] returns is the value of the shortest text that
    starts at the first ['['] of the trimmed input and that [json.loads]
    accepts; when no text starting there is accepted, the same for the
    first ['{']; when none is accepted there either, the extraction error.
    For the input of the specification the result is the object
    [{"a": 1}], not the object that follows it. *)
Theorem bracket_scan_returns_shortest :
  (forall raw0,
      json_loads (strip raw0) = None ->
      fence_strategy (strip raw0) = None ->
      match safe_json_from_model raw0 with
      | Ok v =>
        (exists start n, find [chr "["] (strip raw0) = Some start
                         /\ shortest_parse_at (strip raw0) start n v)
        \/ ((forall start, find [chr "["] (strip raw0) = Some start ->
                           no_parse_at (strip raw0) start)
            /\ exists start n, find [chr "{"] (strip raw0) = Some start
                               /\ shortest_parse_at (strip raw0) start n v)
      | Raise e =>
        e = extraction_error
        /\ (forall start, find [chr "["] (strip raw0) = Some start ->
                          no_parse_at (strip raw0) start)
        /\ (forall start, find [chr "{"] (strip raw0) = Some start ->
                          no_parse_at (strip raw0) start)
      end)
  /\ json_loads (strip (jlit "prefix { 'a': 1 } { 'a': 1, 'b': 2 } suffix")) = None
  /\ fence_strategy (strip (jlit "prefix { 'a': 1 } { 'a': 1, 'b': 2 } suffix")) = None
  /\ safe_json_from_model (jlit "prefix { 'a': 1 } { 'a': 1, 'b': 2 } suffix")
     = Ok (VDict [(lit "a", VInt 1)])
  /\ json_loads (jlit "{ 'a': 1, 'b': 2 }")
     = Some (VDict [(lit "a", VInt 1); (lit "b", VInt 2)]).
Proof.
  split; [|repeat split; vm_compute; reflexivity].
  intros raw0 Hdirect Hfence. unfold safe_json_from_model.
  rewrite Hdirect, Hfence, scan_pairs_eq.
  pose proof (bracket_scan_spec (strip raw0) (chr "[") ltac:(left; reflexivity)) as Ha.
  pose proof (bracket_scan_spec (strip raw0) (chr "{") ltac:(right; reflexivity)) as Ho.
  destruct (bracket_scan (strip raw0) (chr "[") _) as [v|].
  - left. exact Ha.
  - destruct (bracket_scan (strip raw0) (chr "{") _) as [v|].
    + right. split; [exact Ha|exact Ho].
    + split; [reflexivity|]. split; [exact Ha|exact Ho].
Qed.

Lemma bracket_scan_returns_shortest_witness :
  exists start n,
    find [chr "{"] (strip (jlit "prefix { 'a': 1 } { 'a': 1, 'b': 2 } suffix"))
    = Some start
    /\ shortest_parse_at (strip (jlit "prefix { 'a': 1 } { 'a': 1, 'b': 2 } suffix"))
                         start n (VDict [(lit "a", VInt 1)]).
Proof.
  pose proof (proj1 bracket_scan_returns_shortest
                (jlit "prefix { 'a': 1 } { 'a': 1, 'b': 2 } suffix")
                ltac:(vm_compute; reflexivity) ltac:(vm_compute; reflexivity)) as H.
  assert (E : safe_json_from_model (jlit "prefix { 'a': 1 } { 'a': 1, 'b': 2 } suffix")
              = Ok (VDict [(lit "a", VInt 1)])) by (vm_compute; reflexivity).
  rewrite E in H. destruct H as [(start & n & Hf & _)|[_ H]]; [|exact H].
  vm_compute in Hf. discriminate.
Defined.

(** ** The direct parse *)




(** ** Fences and prose *)















(** ** The fallbacks of [entxp.py] *)

(** C6: when the generation or the parsing of the role options fails, or
    gives an empty list, [ent_generate_role_options_from_ai] returns the
    fixed fallback list (and shows the fallback notice); that list has
    exactly 3 entries, each with a non-empty [role_name],
    [one_sentence_hook] and [why_it_fits_this_person]. *)
Theorem role_options_fallback :
  (forall profile_text bedrock,
      roles_attempt_fails bedrock ->
      ent_generate_role_options_from_ai profile_text bedrock
      = ([EvBedrock (RolesPrompt profile_text);
          EvToast (lit "Using fallback roles (AI error).")],
         Ok fallback_roles))
  /\ (forall profile_text raw,
         safe_json_from_model raw = Ok (VList []) ->
         ent_generate_role_options_from_ai profile_text (Ok raw)
         = ([EvBedrock (RolesPrompt profile_text);
             EvToast (lit "Using fallback roles (AI error).")],
            Ok fallback_roles))
  /\ length fallback_roles = 3%nat
  /\ Forall (fun r => exists n h w,
                 role_fields r = Ok (n, h, w)
                 /\ nonempty_text n /\ nonempty_text h /\ nonempty_text w)
            fallback_roles.
Proof.
  assert (Hfail : forall profile_text bedrock,
             roles_attempt_fails bedrock ->
             ent_generate_role_options_from_ai profile_text bedrock
             = ([EvBedrock (RolesPrompt profile_text);
                 EvToast (lit "Using fallback roles (AI error).")],
                Ok fallback_roles)).
  { intros profile_text bedrock H.
    unfold ent_generate_role_options_from_ai, call_bedrock, try_except, bind, call,
      lift, emit, ret, raise.
    destruct bedrock as [raw|err]; [|reflexivity].
    cbn in H.
    destruct (safe_json_from_model raw) as [v|err]; [|reflexivity].
    destruct v as [| | | | |[|x l]|]; try reflexivity. contradiction. }
  split; [exact Hfail|].
  split.
  { intros profile_text raw H. apply Hfail. cbn. rewrite H. exact I. }
  split; [reflexivity|].
  repeat constructor; eexists _, _, _; (split; [reflexivity|]);
    vm_compute; auto.
Qed.

Lemma role_options_fallback_witness :
  ent_generate_role_options_from_ai (lit "Interests: ['Music']") (Ok (lit "sorry, no idea"))
  = ([EvBedrock (RolesPrompt (lit "Interests: ['Music']"));
      EvToast (lit "Using fallback roles (AI error).")],
     Ok fallback_roles)
  /\ ent_generate_role_options_from_ai (lit "Interests: ['Music']") (Ok (lit " [] "))
     = ([EvBedrock (RolesPrompt (lit "Interests: ['Music']"));
         EvToast (lit "Using fallback roles (AI error).")],
        Ok fallback_roles).
Proof.
  split.
  - apply (proj1 role_options_fallback). vm_compute. exact I.
  - apply (proj1 (proj2 role_options_fallback)). vm_compute. reflexivity.
Defined.

(** C5: for slider values in [0,10] the fallback of [call_identity_ai] does
    not raise; it returns one archetype, named after the chaos slider as the
    specification says, a non-empty environment summary whose extra
    sentence follows the solo/team slider (it speaks of teams from 7 up, of
    working quietly up to 3), and two suggested roles.  [call_identity_ai]
    returns this value whenever its attempt raises. *)
Theorem identity_fallback_result (q1 q2 q3 q4 q5 q6 : str) (c1 c2 c3 c4 c5 c6 : Z)
    (H1 : (0 <= c1 <= 10)%Z) (H2 : (0 <= c2 <= 10)%Z) (H3 : (0 <= c3 <= 10)%Z)
    (H4 : (0 <= c4 <= 10)%Z) (H5 : (0 <= c5 <= 10)%Z) (H6 : (0 <= c6 <= 10)%Z) :
  let identity_data := identity_raw_of q1 q2 q3 q4 q5 q6 c1 c2 c3 c4 c5 c6 in
  exists archetype summary spaces role1 role2,
    identity_fallback identity_data
    = Ok (VDict [(lit "spark_archetypes", VList [VDict archetype]);
                 (lit "creative_environment",
                  VDict [(lit "summary", VStr summary);
                         (lit "example_spaces", spaces)]);
                 (lit "suggested_roles", VList [role1; role2])])
    /\ dict_get (lit "name") archetype = Some (VStr (spec_archetype_name c1))
    /\ summary = env_summary_base ++ spec_extra_sentence c2
    /\ summary <> []
    /\ contains (lit "team") env_summary_team = true
    /\ contains (lit "quiet") env_summary_solo = true
    /\ (forall err, call_identity_ai identity_data (Raise err)
                    = ([EvBedrock (IdentityPrompt identity_data)],
                       identity_fallback identity_data))
    /\ (forall raw err, safe_json_from_model raw = Raise err ->
                        call_identity_ai identity_data (Ok raw)
                        = ([EvBedrock (IdentityPrompt identity_data)],
                           identity_fallback identity_data)).
Proof.
  intros identity_data.
  assert (Hcall : forall bedrock,
             match bedrock with
             | Raise _ => True
             | Ok raw => exists err, safe_json_from_model raw = Raise err
             end ->
             call_identity_ai identity_data bedrock
             = ([EvBedrock (IdentityPrompt identity_data)],
                identity_fallback identity_data)).
  { intros bedrock H.
    unfold call_identity_ai, call_bedrock, try_except, bind, call, lift.
    destruct bedrock as [raw|err].
    - destruct H as [err ->]. destruct (identity_fallback identity_data); reflexivity.
    - destruct (identity_fallback identity_data); reflexivity. }
  eexists _, _, _, _, _.
  split.
  { subst identity_data. unfold identity_fallback, identity_raw_of.
    cbn [py_get dict_get rbind as_int].
    change (eqb_str (lit "sliders") (lit "answers")) with false.
    change (eqb_str (lit "sliders") (lit "sliders")) with true.
    cbn [py_get dict_get rbind as_int].
    change (eqb_str (lit "chaos_structure") (lit "chaos_structure")) with true.
    change (eqb_str (lit "solo_team") (lit "chaos_structure")) with false.
    change (eqb_str (lit "solo_team") (lit "solo_team")) with true.
    cbn [rbind as_int].
    rewrite (Z.geb_leb c1 7), (Z.geb_leb c2 7).
    reflexivity. }
  unfold spec_archetype_name, spec_extra_sentence.
  split.
  { destruct (7 <=? c1)%Z; [reflexivity|]. destruct (c1 <=? 3)%Z; reflexivity. }
  split.
  { destruct (7 <=? c2)%Z; [reflexivity|].
    destruct (c2 <=? 3)%Z; [reflexivity|]. now rewrite app_nil_r. }
  split.
  { destruct (7 <=? c2)%Z; [|destruct (c2 <=? 3)%Z]; vm_compute; discriminate. }
  split; [vm_compute; reflexivity|].
  split; [vm_compute; reflexivity|].
  split.
  - intros err. apply (Hcall (Raise err)). exact I.
  - intros raw err Herr. apply (Hcall (Ok raw)). eauto.
Qed.

Lemma identity_fallback_result_witness :
  exists archetype summary spaces role1 role2,
    identity_fallback
      (identity_raw_of (lit "a") (lit "b") (lit "c") (lit "d") (lit "e") (lit "f")
                       8 2 5 5 5 5)
    = Ok (VDict [(lit "spark_archetypes", VList [VDict archetype]);
                 (lit "creative_environment",
                  VDict [(lit "summary", VStr summary);
                         (lit "example_spaces", spaces)]);
                 (lit "suggested_roles", VList [role1; role2])])
    /\ dict_get (lit "name") archetype = Some (VStr (lit "Vibe Curator in Progress"))
    /\ summary = env_summary_base ++ env_summary_solo.
Proof.
  destruct (identity_fallback_result
              (lit "a") (lit "b") (lit "c") (lit "d") (lit "e") (lit "f")
              8 2 5 5 5 5 ltac:(lia) ltac:(lia) ltac:(lia) ltac:(lia) ltac:(lia)
              ltac:(lia))
    as (archetype & summary & spaces & role1 & role2 & Hf & Hn & Hs & _).
  exists archetype, summary, spaces, role1, role2.
  split; [exact Hf|]. split; [exact Hn|exact Hs].
Defined.

(** ** The Confidence Lab *)

Lemma empty_submission_inv (weaknesses_text : str) (barriers : list str)
    (extra_barrier : str) :
  empty_submission weaknesses_text barriers extra_barrier = true ->
  weakness_list weaknesses_text = [] /\ barriers = [] /\ strip extra_barrier = [].
Proof.
  unfold empty_submission.
  destruct (weakness_list weaknesses_text), barriers, (strip extra_barrier);
    intros; try discriminate; auto.
Qed.

(** C8, as the code has it: an empty submission of the Confidence Lab
    shows the validation warning and nothing else, so the model is not
    called, and it leaves the session as it was except for
    [confidence_raw], which now holds the empty input. *)
Theorem empty_confidence_submission (weaknesses_text : str) (barriers : list str)
    (extra_barrier : str) (bedrock : result str) (st : session)
    (H : empty_submission weaknesses_text barriers extra_barrier = true) :
  confidence_boost weaknesses_text barriers extra_barrier bedrock st
  = ([empty_warning], set_confidence_raw empty_conf_raw st, Ok tt)
  /\ List.filter is_bedrock [empty_warning] = []
  /\ confidence_result (set_confidence_raw empty_conf_raw st) = confidence_result st
  /\ (forall display_identity display_confidence,
         show_result (identity_result st) display_identity st = ([], st, Ok tt) ->
         exists r,
           spark_main (SparkBoost weaknesses_text barriers extra_barrier) bedrock
                      display_identity display_confidence st
           = ([empty_warning], set_confidence_raw empty_conf_raw st, r)).
Proof.
  destruct (empty_submission_inv _ _ _ H) as (Hw & Hb & He).
  assert (Hboost : confidence_boost weaknesses_text barriers extra_barrier bedrock st
                   = ([empty_warning], set_confidence_raw empty_conf_raw st, Ok tt)).
  { unfold confidence_boost. rewrite H. unfold conf_raw_of.
    rewrite Hw, Hb, He. reflexivity. }
  split; [exact Hboost|].
  split; [reflexivity|].
  split; [reflexivity|].
  intros d1 d2 Hshow. unfold spark_main.
  cbn [and_then]. rewrite Hshow. cbn [and_then app]. rewrite Hboost.
  cbn [and_then app].
  destruct (show_result _ d2 _) as [[t' st'] r'] eqn:E.
  unfold show_result in E.
  destruct (truthy _) as [[|]|err]; injection E as <- <- <-; eexists; reflexivity.
Qed.

Lemma empty_confidence_submission_witness :
  confidence_boost (lit "  ") [] (lit " ") (Ok (lit "unused")) initial_session
  = ([empty_warning], set_confidence_raw empty_conf_raw initial_session, Ok tt).
Proof.
  apply (empty_confidence_submission (lit "  ") [] (lit " ") (Ok (lit "unused"))
           initial_session).
  vm_compute. reflexivity.
Defined.

(** The claim says the failed submission leaves the session state
    unchanged: in a new session it does not. *)
Lemma empty_confidence_submission_writes_raw :
  empty_submission [] [] [] = true
  /\ spark_main (SparkBoost [] [] []) (Ok (lit "unused")) (Ok tt) (Ok tt) initial_session
     = ([empty_warning], set_confidence_raw empty_conf_raw initial_session, Ok tt)
  /\ confidence_raw initial_session = VNone
  /\ confidence_raw (set_confidence_raw empty_conf_raw initial_session) = empty_conf_raw
  /\ set_confidence_raw empty_conf_raw initial_session <> initial_session.
Proof.
  split; [reflexivity|].
  split; [reflexivity|].
  split; [reflexivity|].
  split; [reflexivity|].
  intros Heq. apply (f_equal confidence_raw) in Heq. discriminate.
Qed.

(** ** The memoized simulations *)

Lemma eqb_str_eq (a b : str) : eqb_str a b = true <-> a = b.
Proof.
  revert b. induction a as [|x a IH]; intros [|y b]; cbn; split; try easy.
  - intros [Hx Hab]%andb_prop. apply N.eqb_eq in Hx. apply IH in Hab. congruence.
  - intros [= -> ->]. rewrite N.eqb_refl. cbn. now apply IH.
Qed.

Lemma eqb_str_refl (a : str) : eqb_str a a = true.
Proof. now apply eqb_str_eq. Qed.

Lemma eqb_str_neq (a b : str) : a <> b -> eqb_str a b = false.
Proof.
  intros H. destruct (eqb_str a b) eqn:E; [|reflexivity].
  apply eqb_str_eq in E. contradiction.
Qed.












(** ** The voice pipeline *)

Section VoicePipelineFacts.
Import VoicePipeline.

Lemma name_undefined (builtins globals : namespace) (x : string) :
  globals !! x = None -> builtins !! x = None ->
  name builtins x globals = Raise (NameError x).
Proof. intros Hg Hb. unfold name. now rewrite Hg, Hb. Qed.

Lemma client_of_undefined_region (builtins globals : namespace)
    (target service x : string) (o : obj) :
  globals !! "boto3"%string = Some o ->
  globals !! x = None -> builtins !! x = None ->
  assign target (boto3_client builtins service (name builtins x)) globals
  = (globals, Raise (NameError x)).
Proof.
  intros Hboto Hg Hb. unfold assign, boto3_client.
  rewrite (name_undefined builtins globals x Hg Hb).
  unfold name at 1. rewrite Hboto. reflexivity.
Qed.

End VoicePipelineFacts.

(** C3: importing the voice pipeline module stops with an undefined-name
    error on [AWS_REGION] at the construction of the first client.  The
    globals defined by then are the imports, [S3_BUCKET], [REGION] and
    [BEDROCK_REGION]; [AWS_REGION] is not among them, and none of the four
    clients exists. *)
Theorem import_module_raises_NameError (builtins : VoicePipeline.namespace)
    (Hb : builtins !! "AWS_REGION"%string = None) :
  let (globals, r) := VoicePipeline.import_module builtins in
  r = Raise (NameError "AWS_REGION")
  /\ dom globals = {[ "os"; "uuid"; "wave"; "json"; "time"; "Tuple"; "boto3";
                      "S3_BUCKET"; "REGION"; "BEDROCK_REGION" ]}%string
  /\ globals !! "REGION"%string = Some (VoicePipeline.OStr "<YOUR_AWS_REGION>")
  /\ globals !! "BEDROCK_REGION"%string = Some (VoicePipeline.OStr "us-east-2")
  /\ globals !! "AWS_REGION"%string = None
  /\ globals !! "transcribe"%string = None
  /\ globals !! "polly"%string = None
  /\ globals !! "s3"%string = None
  /\ globals !! "bedrock_agent"%string = None.
Proof.
  unfold VoicePipeline.import_module, VoicePipeline.module_body.
  cbn [VoicePipeline.exec VoicePipeline.import VoicePipeline.assign
       VoicePipeline.const VoicePipeline.def].
  set (g := <["BEDROCK_REGION"%string := _]> _).
  assert (Hg : g !! "AWS_REGION"%string = None) by (subst g; vm_compute; reflexivity).
  assert (Hboto : g !! "boto3"%string = Some (VoicePipeline.OModule "boto3"))
    by (subst g; vm_compute; reflexivity).
  rewrite (client_of_undefined_region builtins g _ _ _ _ Hboto Hg Hb).
  split; [reflexivity|].
  split; [subst g; rewrite !dom_insert_L, dom_empty_L; set_solver|].
  repeat split; subst g; vm_compute; reflexivity.
Qed.

Lemma import_module_raises_NameError_witness :
  VoicePipeline.import_module ∅ =
  (list_to_map
     [("os", VoicePipeline.OModule "os"); ("uuid", VoicePipeline.OModule "uuid");
      ("wave", VoicePipeline.OModule "wave"); ("json", VoicePipeline.OModule "json");
      ("time", VoicePipeline.OModule "time"); ("Tuple", VoicePipeline.OModule "Tuple");
      ("boto3", VoicePipeline.OModule "boto3");
      ("S3_BUCKET", VoicePipeline.OStr "<YOUR_BUCKET_NAME>");
      ("REGION", VoicePipeline.OStr "<YOUR_AWS_REGION>");
      ("BEDROCK_REGION", VoicePipeline.OStr "us-east-2")]%string,
   Raise (NameError "AWS_REGION")).
Proof.
  pose proof (import_module_raises_NameError ∅ (lookup_empty _)) as H.
  destruct (VoicePipeline.import_module ∅) as [g r] eqn:E.
  destruct H as [-> _].
  vm_compute in E. injection E as <-. vm_compute. reflexivity.
Defined.

(** ** Traces *)

Lemma bind_ret_l {A B} (a : A) (k : A -> M B) : bind (ret a) k = k a.
Proof. unfold bind, ret. destruct (k a). reflexivity. Qed.

Lemma bind_head {A B} (m : M A) (k : A -> M B) ev t r :
  m = (ev :: t, r) -> exists t' r', bind m k = (ev :: t', r').
Proof.
  intros ->. unfold bind. destruct r as [a|e].
  - destruct (k a) as [t' r']. eexists _, _. reflexivity.
  - eexists _, _. reflexivity.
Qed.

Lemma call_head {A} ev (answer : result A) : call ev answer = ([ev], answer).
Proof. reflexivity. Qed.

(** The duration check of [transcribe_audio], with its handler, has no
    outcome but to go on: the handler catches the error the check raises. *)
Lemma duration_guard_never_rejects (wav : result (N * N)) :
  try_except
    (let* duration := lift (VoicePipeline.get_wav_duration_seconds wav) in
     if VoicePipeline.under_half_second duration
     then raise VoicePipeline.too_short else ret tt)
    (fun _ => ret tt)
  = ret tt.
Proof.
  unfold VoicePipeline.get_wav_duration_seconds, try_except, bind, lift, rbind.
  destruct wav as [[frames rate]|err]; [|reflexivity].
  destruct (rate =? 0); [reflexivity|].
  destruct (VoicePipeline.under_half_second (frames, rate)); reflexivity.
Qed.

(** Whatever the header says, the first thing [transcribe_audio] does that
    can be seen is the upload. *)
Lemma transcribe_audio_uploads_first (e : VoicePipeline.aws) (path : str) :
  exists key t r,
    VoicePipeline.transcribe_audio e path
    = (EvS3Upload path VoicePipeline.S3_BUCKET key :: t, r).
Proof.
  unfold VoicePipeline.transcribe_audio.
  rewrite duration_guard_never_rejects, bind_ret_l.
  match goal with
  | |- context [bind (VoicePipeline.upload_to_s3 e path) ?k] =>
    destruct (bind_head (VoicePipeline.upload_to_s3 e path) k
                (EvS3Upload path VoicePipeline.S3_BUCKET
                   (lit "uploads/" ++ VoicePipeline.upload_uuid e
                    ++ lit "_" ++ VoicePipeline.basename path))
                [] (match VoicePipeline.upload_answer e with
                    | Ok _ => Ok (lit "s3://" ++ VoicePipeline.S3_BUCKET ++ lit "/"
                                  ++ lit "uploads/" ++ VoicePipeline.upload_uuid e
                                  ++ lit "_" ++ VoicePipeline.basename path)
                    | Raise err => Raise err
                    end))
      as (t & r & H)
  end.
  - unfold VoicePipeline.upload_to_s3, bind, call, ret.
    destruct (VoicePipeline.upload_answer e); reflexivity.
  - eexists _, _, _. exact H.
Qed.

(** C1: a clip of 100 frames at 44100 frames per second lasts under half a
    second, yet [transcribe_audio] does not reject it: the file is uploaded,
    the transcription job is started and polled, and the transcript comes
    back.  (A clip whose header cannot be read is processed the same way.) *)
Theorem short_audio_is_not_rejected :
  VoicePipeline.under_half_second (100, 44100) = true
  /\ VoicePipeline.transcribe_audio short_clip (lit "audio_cache/a_user.wav")
     = ([EvS3Upload (lit "audio_cache/a_user.wav") (lit "<YOUR_BUCKET_NAME>")
                    (lit "uploads/1b4e28ba_a_user.wav");
         EvStartJob (lit "voice-agent-7d9a3c10")
                    (lit "s3://<YOUR_BUCKET_NAME>/uploads/1b4e28ba_a_user.wav");
         EvGetJob (lit "voice-agent-7d9a3c10");
         EvGetJob (lit "voice-agent-7d9a3c10");
         EvS3Get (lit "<YOUR_BUCKET_NAME>") (lit "voice-agent-7d9a3c10.json")],
        Ok (lit "hello"))
  /\ VoicePipeline.transcribe_audio unreadable_clip (lit "audio_cache/a_user.wav")
     = ([EvS3Upload (lit "audio_cache/a_user.wav") (lit "<YOUR_BUCKET_NAME>")
                    (lit "uploads/1b4e28ba_a_user.wav");
         EvStartJob (lit "voice-agent-7d9a3c10")
                    (lit "s3://<YOUR_BUCKET_NAME>/uploads/1b4e28ba_a_user.wav");
         EvGetJob (lit "voice-agent-7d9a3c10");
         EvS3Get (lit "<YOUR_BUCKET_NAME>") (lit "voice-agent-7d9a3c10.json")],
        Ok (lit "ok")).
Proof. repeat split; vm_compute; reflexivity. Qed.

(** *** [call_master_agent] *)

(** A reply of [call_master_agent] is never the empty string. *)
Lemma call_master_agent_not_empty (e : VoicePipeline.aws) (user_text session_id : str)
    (t : list event) (reply : str) :
  VoicePipeline.call_master_agent e user_text session_id = (t, Ok reply) ->
  reply <> [].
Proof.
  unfold VoicePipeline.call_master_agent.
  destruct user_text as [|c user_text].
  - intros [= _ <-]. discriminate.
  - unfold bind, call, lift.
    destruct (VoicePipeline.agent_answer e) as [events|err]; [|discriminate].
    destruct (VoicePipeline.collect events []) as [text|err]; [|discriminate].
    destruct (strip text) as [|x s] eqn:E; cbn.
    + intros [= _ <-]. discriminate.
    + intros [= _ <-]. discriminate.
Qed.




(** ** More on the voice pipeline *)

Lemma contains_char_elem (o : N) (s : str) : contains [o] s = true <-> o ∈ s.
Proof.
  unfold contains. split.
  - destruct (find [o] s) as [n|] eqn:E; [|discriminate]. intros _.
    destruct (find_char_Some _ _ _ E) as (a & b & -> & _ & _).
    set_solver.
  - intros Hin. destruct (find [o] s) as [n|] eqn:E; [reflexivity|].
    exfalso. exact (find_char_None _ _ E Hin).
Qed.

Lemma basename_decomp (p : str) :
  exists dir, p = dir ++ VoicePipeline.basename p
              /\ (chr "/" ∉ VoicePipeline.basename p)
              /\ (dir = [] \/ last dir = Some (chr "/")).
Proof.
  induction p as [|c p IH].
  - exists []. cbn. split; [reflexivity|]. split; [set_solver|]. left; reflexivity.
  - cbn [VoicePipeline.basename].
    change (lit "/") with [chr "/"].
    destruct (contains [chr "/"] (c :: p)) eqn:E.
    + destruct IH as (dir & Hp & Hno & Hdir).
      exists (c :: dir). split; [cbn; congruence|]. split; [exact Hno|].
      right. destruct Hdir as [->|Hl].
      * cbn in Hp. rewrite <- Hp in Hno.
        apply contains_char_elem in E.
        apply elem_of_cons in E as [->|E]; [reflexivity|contradiction].
      * destruct dir as [|d dir]; [discriminate|]. exact Hl.
    + exists []. split; [reflexivity|]. split; [|left; reflexivity].
      intros Hin. apply contains_char_elem in Hin. congruence.
Qed.

(** X19: the object key under which [upload_to_s3] stores a file is
    [uploads/<uuid>_<name>], where [name] is what follows the last [/] of
    the local path (the whole path when it has none); the call is the only
    thing the function does, and the URI it returns names that key. *)
Theorem upload_key_names_file (e : VoicePipeline.aws) (local_path : str) :
  exists dir name,
    local_path = dir ++ name
    /\ (chr "/" ∉ name)
    /\ (dir = [] \/ last dir = Some (chr "/"))
    /\ VoicePipeline.upload_to_s3 e local_path
       = ([EvS3Upload local_path (lit "<YOUR_BUCKET_NAME>")
                      (lit "uploads/" ++ VoicePipeline.upload_uuid e ++ lit "_" ++ name)],
          match VoicePipeline.upload_answer e with
          | Ok _ => Ok (lit "s3://<YOUR_BUCKET_NAME>/uploads/"
                        ++ VoicePipeline.upload_uuid e ++ lit "_" ++ name)
          | Raise err => Raise err
          end).
Proof.
  destruct (basename_decomp local_path) as (dir & Hp & Hno & Hdir).
  exists dir, (VoicePipeline.basename local_path).
  split; [exact Hp|]. split; [exact Hno|]. split; [exact Hdir|].
  unfold VoicePipeline.upload_to_s3, bind, call, ret.
  destruct (VoicePipeline.upload_answer e) as [[]|err]; [|reflexivity].
  change VoicePipeline.S3_BUCKET with (lit "<YOUR_BUCKET_NAME>").
  change (lit "s3://<YOUR_BUCKET_NAME>/uploads/")
    with (lit "s3://" ++ lit "<YOUR_BUCKET_NAME>" ++ lit "/" ++ lit "uploads/").
  rewrite <- !app_assoc. reflexivity.
Qed.

Lemma lstrip_head_nonspace (s : str) (y : N) (l : str) :
  lstrip s = y :: l -> isspace y = false.
Proof.
  induction s as [|c s IH]; [discriminate|].
  cbn [lstrip]. destruct (isspace c) eqn:E; [exact IH|].
  intros [= <- _]. exact E.
Qed.

Lemma rstrip_last_nonspace (s : str) :
  rstrip s = [] \/ exists y, last (rstrip s) = Some y /\ isspace y = false.
Proof.
  unfold rstrip. destruct (lstrip (rev s)) as [|y l] eqn:E; [left; reflexivity|].
  right. exists y. split.
  - cbn [rev]. apply last_snoc.
  - exact (lstrip_head_nonspace _ _ _ E).
Qed.

(** What [strip] returns is empty or begins and ends with a character that
    is not white space. *)
Lemma strip_shape (s : str) :
  strip s = []
  \/ exists x y, head (strip s) = Some x /\ last (strip s) = Some y
                 /\ isspace x = false /\ isspace y = false.
Proof.
  unfold strip. destruct (lstrip s) as [|x l] eqn:E; [left; reflexivity|].
  right. pose proof (lstrip_head_nonspace _ _ _ E) as Hx.
  pose proof (rstrip_app_nonspace [] x l Hx) as Hr. cbn [app] in Hr.
  rewrite Hr. exists x.
  destruct (rstrip_last_nonspace l) as [Hl|(y & Hl & Hy)].
  - exists x. rewrite Hl. repeat split; assumption || reflexivity.
  - exists y. split; [reflexivity|]. split; [|split; assumption].
    destruct (rstrip l) as [|z r]; [discriminate|]. exact Hl.
Qed.

Lemma strip_strip (s : str) : strip (strip s) = strip s.
Proof.
  destruct (strip_shape s) as [E|(x & y & Hh & Hl & Hx & Hy)].
  - rewrite E. reflexivity.
  - exact (strip_self _ _ _ Hh Hl Hx Hy).
Qed.

Lemma poll_trace (job_name : str) (answers : list (result str)) :
  exists n, (n <= length answers)%nat
            /\ (VoicePipeline.poll job_name answers).1 = repeat (EvGetJob job_name) n
            /\ match (VoicePipeline.poll job_name answers).2 with
               | Ok status => terminal status = true /\ (1 <= n)%nat
               | Raise _ => True
               end.
Proof.
  induction answers as [|a answers IH].
  - exists 0%nat. cbn. split; [lia|]. split; [reflexivity|exact I].
  - cbn [VoicePipeline.poll]. unfold bind, call.
    destruct a as [status|err].
    + fold (terminal status). destruct (terminal status) eqn:E.
      * exists 1%nat. cbn. split; [lia|]. split; [reflexivity|]. split; [exact E|lia].
      * destruct IH as (n & Hn & Ht & Hr).
        destruct (VoicePipeline.poll job_name answers) as [t r]. cbn [fst snd] in *.
        exists (S n). cbn [length]. split; [lia|]. split; [cbn; congruence|].
        destruct r; [|exact I]. split; [tauto|lia].
    + exists 1%nat. cbn. split; [lia|]. split; [reflexivity|exact I].
Qed.

Lemma poll_waiting (job_name : str) (pre rest : list (result str)) :
  forallb waiting pre = true ->
  VoicePipeline.poll job_name (pre ++ rest)
  = (repeat (EvGetJob job_name) (length pre) ++ (VoicePipeline.poll job_name rest).1,
     (VoicePipeline.poll job_name rest).2).
Proof.
  induction pre as [|a pre IH]; intros H.
  - cbn. destruct (VoicePipeline.poll job_name rest); reflexivity.
  - cbn [forallb] in H. apply andb_true_iff in H as [Ha H].
    destruct a as [status|err]; [|discriminate]. cbn [waiting] in Ha.
    apply negb_true_iff in Ha.
    cbn [app VoicePipeline.poll]. unfold bind, call.
    fold (terminal status). rewrite Ha, (IH H). reflexivity.
Qed.

(** X20: the polling loop asks the transcription service once per turn and
    stops at the first answer that is an error or one of the two final
    statuses, which it hands back; the answers after that one are not asked
    for.  While the answers are other statuses it keeps asking: the loop
    has no bound of its own. *)
Theorem poll_stops_at_first_final_answer (job_name : str)
    (pre : list (result str)) (a : result str) (post : list (result str))
    (Hpre : forallb waiting pre = true) (Ha : waiting a = false) :
  VoicePipeline.poll job_name (pre ++ a :: post)
  = (repeat (EvGetJob job_name) (S (length pre)), a)
  /\ VoicePipeline.poll job_name pre
     = (repeat (EvGetJob job_name) (length pre), Raise Hang).
Proof.
  split.
  - rewrite (poll_waiting _ _ _ Hpre).
    cbn [VoicePipeline.poll]. unfold bind, call.
    destruct a as [status|err].
    + cbn [waiting] in Ha. apply negb_false_iff in Ha.
      fold (terminal status). rewrite Ha. cbn [fst snd ret].
      rewrite app_nil_r, <- repeat_cons. reflexivity.
    + cbn [fst snd]. rewrite <- repeat_cons. reflexivity.
  - rewrite <- (app_nil_r pre) at 1. rewrite (poll_waiting _ _ _ Hpre).
    cbn. rewrite app_nil_r. reflexivity.
Qed.

Lemma poll_stops_at_first_final_answer_witness :
  VoicePipeline.poll (lit "voice-agent-7d9a3c10")
    [Ok (lit "QUEUED"); Ok (lit "IN_PROGRESS"); Ok (lit "FAILED"); Ok (lit "COMPLETED")]
  = (repeat (EvGetJob (lit "voice-agent-7d9a3c10")) 3, Ok (lit "FAILED"))
  /\ VoicePipeline.poll (lit "voice-agent-7d9a3c10")
       [Ok (lit "QUEUED"); Ok (lit "IN_PROGRESS")]
     = (repeat (EvGetJob (lit "voice-agent-7d9a3c10")) 2, Raise Hang).
Proof.
  apply (poll_stops_at_first_final_answer (lit "voice-agent-7d9a3c10")
           [Ok (lit "QUEUED"); Ok (lit "IN_PROGRESS")] (Ok (lit "FAILED"))
           [Ok (lit "COMPLETED")]); reflexivity.
Defined.

(** [transcribe_audio], step by step: each call is made only when the ones
    before it succeeded. *)
Lemma transcribe_audio_eq (e : VoicePipeline.aws) (local_wav_path : str) :
  VoicePipeline.transcribe_audio e local_wav_path
  = match VoicePipeline.upload_answer e with
    | Raise err =>
      ([EvS3Upload local_wav_path VoicePipeline.S3_BUCKET (upload_key e local_wav_path)],
       Raise err)
    | Ok _ =>
      match VoicePipeline.start_job_answer e with
      | Raise err => (upload_and_start e local_wav_path, Raise err)
      | Ok _ =>
        match VoicePipeline.poll (job_name e) (VoicePipeline.job_answers e) with
        | (tp, Raise err) => (upload_and_start e local_wav_path ++ tp, Raise err)
        | (tp, Ok status) =>
          if eqb_str status (lit "FAILED")
          then (upload_and_start e local_wav_path ++ tp,
                Raise (RuntimeError (lit "Transcription failed")))
          else
            (upload_and_start e local_wav_path ++ tp
               ++ [EvS3Get VoicePipeline.S3_BUCKET (output_key e)],
             match VoicePipeline.transcript_object e with
             | Ok body => VoicePipeline.transcript_of body
             | Raise err => Raise err
             end)
        end
      end
    end.
Proof.
  unfold VoicePipeline.transcribe_audio.
  rewrite duration_guard_never_rejects, bind_ret_l.
  unfold VoicePipeline.upload_to_s3, upload_and_start, media_uri, output_key.
  fold (upload_key e local_wav_path). fold (job_name e).
  unfold bind at 1. unfold bind at 1. unfold call at 1.
  destruct (VoicePipeline.upload_answer e) as [[]|err]; [|reflexivity].
  cbn [ret]. unfold bind at 1. unfold call at 1.
  destruct (VoicePipeline.start_job_answer e) as [[]|err]; [|reflexivity].
  unfold bind at 1.
  destruct (VoicePipeline.poll (job_name e) (VoicePipeline.job_answers e)) as [tp [status|err]];
    [|cbv beta iota; rewrite ?app_nil_r; reflexivity].
  destruct (eqb_str status (lit "FAILED")).
  - unfold raise. cbv beta iota. rewrite ?app_nil_r. reflexivity.
  - unfold bind, call, lift.
    destruct (VoicePipeline.transcript_object e) as [body|err].
    + destruct (VoicePipeline.transcript_of body); cbv beta iota;
        rewrite ?app_nil_r; reflexivity.
    + reflexivity.
Qed.

Lemma transcript_of_stripped (body : list N) (text : str) :
  VoicePipeline.transcript_of body = Ok text -> strip text = text.
Proof.
  unfold VoicePipeline.transcript_of, rbind.
  destruct (utf8_decode body) as [t|]; [|discriminate].
  destruct (json_loads t) as [data|]; [|discriminate].
  destruct (VoicePipeline.py_item data (lit "results")) as [results|]; [|discriminate].
  destruct (VoicePipeline.py_item results (lit "transcripts")) as [ts|]; [|discriminate].
  destruct (VoicePipeline.py_first ts) as [first|]; [|discriminate].
  destruct (VoicePipeline.py_item first (lit "transcript")) as [x|]; [|discriminate].
  destruct x; try discriminate. intros [= <-]. apply strip_strip.
Qed.

(** What a run of [transcribe_audio] that returns a transcript has done. *)
Lemma transcribe_audio_success_inv (e : VoicePipeline.aws) (local_wav_path : str)
    (t : list event) (text : str)
    (H : VoicePipeline.transcribe_audio e local_wav_path = (t, Ok text)) :
  strip text = text
  /\ exists n, (1 <= n <= length (VoicePipeline.job_answers e))%nat
       /\ t = upload_and_start e local_wav_path
              ++ repeat (EvGetJob (job_name e)) n
              ++ [EvS3Get VoicePipeline.S3_BUCKET (output_key e)].
Proof.
  rewrite transcribe_audio_eq in H.
  destruct (VoicePipeline.upload_answer e); [|discriminate].
  destruct (VoicePipeline.start_job_answer e); [|discriminate].
  destruct (poll_trace (job_name e) (VoicePipeline.job_answers e)) as (n & Hn & Ht & Hr).
  destruct (VoicePipeline.poll (job_name e) (VoicePipeline.job_answers e)) as [tp [status|err]];
    [|discriminate].
  cbn [fst snd] in *. destruct Hr as [_ H1].
  destruct (eqb_str status (lit "FAILED")); [discriminate|].
  destruct (VoicePipeline.transcript_object e) as [body|]; [|discriminate].
  injection H as <- Hb. split; [exact (transcript_of_stripped _ _ Hb)|].
  exists n. split; [lia|]. rewrite Ht. reflexivity.
Qed.

(** X21: when [transcribe_audio] returns a transcript it has made, in this
    order, the upload, the start of the job, at least one status request
    (no more than the service answered), and one read of the object named
    after the job; and the text it returns has no white space at either
    end. *)
Theorem transcribe_audio_success_shape (e : VoicePipeline.aws) (local_wav_path : str)
    (t : list event) (text : str)
    (H : VoicePipeline.transcribe_audio e local_wav_path = (t, Ok text)) :
  strip text = text
  /\ exists n, (1 <= n <= length (VoicePipeline.job_answers e))%nat
       /\ t = upload_and_start e local_wav_path
              ++ repeat (EvGetJob (job_name e)) n
              ++ [EvS3Get VoicePipeline.S3_BUCKET (output_key e)].
Proof. exact (transcribe_audio_success_inv e local_wav_path t text H). Qed.

Lemma transcribe_audio_success_shape_witness :
  strip (lit "hello") = lit "hello"
  /\ exists n, (1 <= n <= length (VoicePipeline.job_answers short_clip))%nat
       /\ [EvS3Upload (lit "audio_cache/a_user.wav") (lit "<YOUR_BUCKET_NAME>")
                      (lit "uploads/1b4e28ba_a_user.wav");
           EvStartJob (lit "voice-agent-7d9a3c10")
                      (lit "s3://<YOUR_BUCKET_NAME>/uploads/1b4e28ba_a_user.wav");
           EvGetJob (lit "voice-agent-7d9a3c10");
           EvGetJob (lit "voice-agent-7d9a3c10");
           EvS3Get (lit "<YOUR_BUCKET_NAME>") (lit "voice-agent-7d9a3c10.json")]
          = upload_and_start short_clip (lit "audio_cache/a_user.wav")
              ++ repeat (EvGetJob (job_name short_clip)) n
              ++ [EvS3Get VoicePipeline.S3_BUCKET (output_key short_clip)].
Proof.
  apply (transcribe_audio_success_shape short_clip (lit "audio_cache/a_user.wav")).
  vm_compute. reflexivity.
Defined.



(** X23: a call that fails ends [transcribe_audio] at once, whatever the
    header of the file says: after a failed upload no job is started, and
    after a failed start the job is not asked about. *)
Theorem transcribe_audio_stops_at_failed_call (e : VoicePipeline.aws)
    (local_wav_path : str) (err : exn) :
  (VoicePipeline.upload_answer e = Raise err ->
   VoicePipeline.transcribe_audio e local_wav_path
   = ([EvS3Upload local_wav_path VoicePipeline.S3_BUCKET (upload_key e local_wav_path)],
      Raise err))
  /\ (VoicePipeline.upload_answer e = Ok tt ->
      VoicePipeline.start_job_answer e = Raise err ->
      VoicePipeline.transcribe_audio e local_wav_path
      = (upload_and_start e local_wav_path, Raise err)).
Proof.
  split.
  - intros Hu. rewrite transcribe_audio_eq, Hu. reflexivity.
  - intros Hu Hs. rewrite transcribe_audio_eq, Hu, Hs. reflexivity.
Qed.

Lemma transcribe_audio_stops_at_failed_call_witness :
  VoicePipeline.transcribe_audio
    (VoicePipeline.mk_aws (Ok (100, 44100)) (lit "1b4e28ba") (lit "7d9a3c10")
       (Raise ServiceError) (Ok tt) [Ok (lit "COMPLETED")] (Ok []) (Ok []) (Ok []))
    (lit "a.wav")
  = ([EvS3Upload (lit "a.wav") (lit "<YOUR_BUCKET_NAME>") (lit "uploads/1b4e28ba_a.wav")],
     Raise ServiceError).
Proof.
  apply (proj1 (transcribe_audio_stops_at_failed_call
                  (VoicePipeline.mk_aws (Ok (100, 44100)) (lit "1b4e28ba") (lit "7d9a3c10")
                     (Raise ServiceError) (Ok tt) [Ok (lit "COMPLETED")]
                     (Ok []) (Ok []) (Ok []))
                  (lit "a.wav") ServiceError)).
  reflexivity.
Defined.

Lemma repeat_get_job_events (job : str) (k : nat) :
  forallb is_transcribe_event (repeat (EvGetJob job) k) = true.
Proof. induction k as [|k IH]; [reflexivity|exact IH]. Qed.

Lemma call_master_agent_trace (e : VoicePipeline.aws) (user_text session_id : str) :
  (VoicePipeline.call_master_agent e user_text session_id).1
  = match user_text with
    | [] => []
    | _ => [EvInvokeAgent session_id user_text]
    end.
Proof.
  unfold VoicePipeline.call_master_agent.
  destruct user_text as [|c u]; [reflexivity|].
  unfold bind, call, lift.
  destruct (VoicePipeline.agent_answer e) as [events|err]; [|reflexivity].
  destruct (VoicePipeline.collect events []) as [text|err]; [|reflexivity].
  destruct (strip text); reflexivity.
Qed.

Lemma handle_voice_interaction_eq (e : VoicePipeline.aws)
    (local_wav_path output_audio_path session_id : str) :
  VoicePipeline.handle_voice_interaction e local_wav_path output_audio_path session_id
  = match VoicePipeline.transcribe_audio e local_wav_path with
    | (t1, Raise err) => (t1, Raise err)
    | (t1, Ok user_text) =>
      match VoicePipeline.call_master_agent e user_text session_id with
      | (t2, Raise err) => (t1 ++ t2, Raise err)
      | (t2, Ok agent_reply) =>
        (t1 ++ t2 ++ [EvPolly agent_reply],
         match VoicePipeline.polly_answer e with
         | Ok _ => Ok (user_text, agent_reply, output_audio_path)
         | Raise err => Raise err
         end)
      end
    end.
Proof.
  unfold VoicePipeline.handle_voice_interaction.
  unfold bind at 1.
  destruct (VoicePipeline.transcribe_audio e local_wav_path) as [t1 [user_text|err]];
    [|reflexivity].
  unfold bind at 1.
  destruct (VoicePipeline.call_master_agent e user_text session_id)
    as [t2 [agent_reply|err]]; [|reflexivity].
  unfold VoicePipeline.synthesize_speech, bind, call, ret.
  destruct (VoicePipeline.polly_answer e); reflexivity.
Qed.

(** What a voice turn that returns has done. *)
Lemma voice_turn_inv (e : VoicePipeline.aws)
    (local_wav_path output_audio_path session_id : str)
    (t : list event) (user_text agent_reply final_audio : str)
    (H : VoicePipeline.handle_voice_interaction e local_wav_path output_audio_path session_id
         = (t, Ok (user_text, agent_reply, final_audio))) :
  final_audio = output_audio_path
  /\ agent_reply <> []
  /\ strip user_text = user_text
  /\ exists t1,
       VoicePipeline.transcribe_audio e local_wav_path = (t1, Ok user_text)
       /\ forallb is_transcribe_event t1 = true
       /\ t = t1
              ++ match user_text with
                 | [] => []
                 | _ => [EvInvokeAgent session_id user_text]
                 end
              ++ [EvPolly agent_reply]
       /\ (user_text = [] -> agent_reply = VoicePipeline.repeat_prompt).
Proof.
  rewrite handle_voice_interaction_eq in H.
  destruct (VoicePipeline.transcribe_audio e local_wav_path) as [t1 [u|err]] eqn:Et;
    [|discriminate].
  destruct (VoicePipeline.call_master_agent e u session_id) as [t2 [a|err]] eqn:Ea;
    [|discriminate].
  destruct (VoicePipeline.polly_answer e); [|discriminate].
  injection H as <- <- <- <-.
  pose proof (call_master_agent_trace e u session_id) as Ht2.
  rewrite Ea in Ht2. cbn [fst] in Ht2. subst t2.
  destruct (transcribe_audio_success_inv _ _ _ _ Et) as (Hs & n & Hn & ->).
  split; [reflexivity|].
  split; [exact (call_master_agent_not_empty _ _ _ _ _ Ea)|].
  split; [exact Hs|].
  eexists. split; [reflexivity|]. split.
  - unfold upload_and_start. rewrite !forallb_app. cbn [forallb is_transcribe_event].
    rewrite repeat_get_job_events. reflexivity.
  - split; [reflexivity|]. intros ->.
    unfold VoicePipeline.call_master_agent, ret in Ea. injection Ea as <-. reflexivity.
Qed.

(** X25: what a voice turn that succeeds has done.  The path it returns is
    the output path it was given; the reply is not empty and is the text
    sent to Polly, as the last call of the turn; the transcript has no
    white space at either end; the agent is invoked once, with the
    transcript, unless the transcript is empty, in which case it is not
    invoked at all and the reply is the request to repeat. *)
Theorem voice_turn_shape (e : VoicePipeline.aws)
    (local_wav_path output_audio_path session_id : str)
    (t : list event) (user_text agent_reply final_audio : str)
    (H : VoicePipeline.handle_voice_interaction e local_wav_path output_audio_path session_id
         = (t, Ok (user_text, agent_reply, final_audio))) :
  final_audio = output_audio_path
  /\ agent_reply <> []
  /\ strip user_text = user_text
  /\ exists t1,
       VoicePipeline.transcribe_audio e local_wav_path = (t1, Ok user_text)
       /\ forallb is_transcribe_event t1 = true
       /\ t = t1
              ++ match user_text with
                 | [] => []
                 | _ => [EvInvokeAgent session_id user_text]
                 end
              ++ [EvPolly agent_reply]
       /\ (user_text = [] -> agent_reply = VoicePipeline.repeat_prompt).
Proof. exact (voice_turn_inv e local_wav_path output_audio_path session_id t user_text agent_reply final_audio H). Qed.

Lemma voice_turn_shape_witness :
  lit "reply.mp3" = lit "reply.mp3"
  /\ lit "Hi!" <> []
  /\ strip (lit "hello") = lit "hello"
  /\ exists t1,
       VoicePipeline.transcribe_audio short_clip (lit "audio_cache/a_user.wav")
       = (t1, Ok (lit "hello"))
       /\ forallb is_transcribe_event t1 = true
       /\ [EvS3Upload (lit "audio_cache/a_user.wav") (lit "<YOUR_BUCKET_NAME>")
                      (lit "uploads/1b4e28ba_a_user.wav");
           EvStartJob (lit "voice-agent-7d9a3c10")
                      (lit "s3://<YOUR_BUCKET_NAME>/uploads/1b4e28ba_a_user.wav");
           EvGetJob (lit "voice-agent-7d9a3c10");
           EvGetJob (lit "voice-agent-7d9a3c10");
           EvS3Get (lit "<YOUR_BUCKET_NAME>") (lit "voice-agent-7d9a3c10.json");
           EvInvokeAgent (lit "s1") (lit "hello");
           EvPolly (lit "Hi!")]
          = t1 ++ [EvInvokeAgent (lit "s1") (lit "hello")] ++ [EvPolly (lit "Hi!")]
       /\ (lit "hello" = [] -> lit "Hi!" = VoicePipeline.repeat_prompt).
Proof.
  apply (voice_turn_shape short_clip (lit "audio_cache/a_user.wav") (lit "reply.mp3")
           (lit "s1")).
  vm_compute. reflexivity.
Defined.

(** X26: a voice turn stops at the stage that fails: when the transcription
    raises, neither the agent nor Polly is called; when the agent raises,
    Polly is not called; the error is the one of the failed stage. *)
Theorem voice_turn_stops_at_failed_stage (e : VoicePipeline.aws)
    (local_wav_path output_audio_path session_id : str) (err : exn) :
  (forall t1,
      VoicePipeline.transcribe_audio e local_wav_path = (t1, Raise err) ->
      VoicePipeline.handle_voice_interaction e local_wav_path output_audio_path session_id
      = (t1, Raise err)
      /\ forallb is_transcribe_event t1 = true)
  /\ (forall t1 user_text t2,
         VoicePipeline.transcribe_audio e local_wav_path = (t1, Ok user_text) ->
         VoicePipeline.call_master_agent e user_text session_id = (t2, Raise err) ->
         VoicePipeline.handle_voice_interaction e local_wav_path output_audio_path session_id
         = (t1 ++ [EvInvokeAgent session_id user_text], Raise err)).
Proof.
  split.
  - intros t1 Ht. rewrite handle_voice_interaction_eq, Ht. split; [reflexivity|].
    rewrite transcribe_audio_eq in Ht.
    destruct (VoicePipeline.upload_answer e); [|injection Ht as <- _; reflexivity].
    destruct (VoicePipeline.start_job_answer e); [|injection Ht as <- _; reflexivity].
    destruct (poll_trace (job_name e) (VoicePipeline.job_answers e)) as (n & _ & Hp & _).
    destruct (VoicePipeline.poll (job_name e) (VoicePipeline.job_answers e)) as [tp r].
    cbn [fst] in Hp. subst tp.
    pose proof (repeat_get_job_events (job_name e)) as Hrep.
    destruct r as [status|err'].
    + destruct (eqb_str status (lit "FAILED")); injection Ht as <- _;
        cbn [forallb is_transcribe_event andb];
        rewrite ?forallb_app, Hrep; reflexivity.
    + injection Ht as <- _. cbn [forallb is_transcribe_event andb].
      rewrite ?forallb_app, Hrep. reflexivity.
  - intros t1 u t2 Ht Ha. rewrite handle_voice_interaction_eq, Ht, Ha.
    pose proof (call_master_agent_trace e u session_id) as Ht2.
    rewrite Ha in Ht2. cbn [fst] in Ht2. subst t2.
    destruct u as [|c u]; [discriminate|]. reflexivity.
Qed.

Lemma voice_turn_stops_at_failed_stage_witness :
  VoicePipeline.handle_voice_interaction agent_down (lit "a.wav") (lit "reply.mp3")
    (lit "s1")
  = ([EvS3Upload (lit "a.wav") (lit "<YOUR_BUCKET_NAME>") (lit "uploads/1b4e28ba_a.wav");
      EvStartJob (lit "voice-agent-7d9a3c10")
                 (lit "s3://<YOUR_BUCKET_NAME>/uploads/1b4e28ba_a.wav");
      EvGetJob (lit "voice-agent-7d9a3c10");
      EvS3Get (lit "<YOUR_BUCKET_NAME>") (lit "voice-agent-7d9a3c10.json")]
     ++ [EvInvokeAgent (lit "s1") (lit "ok")], Raise ServiceError).
Proof.
  apply (proj2 (voice_turn_stops_at_failed_stage agent_down (lit "a.wav")
                  (lit "reply.mp3") (lit "s1") ServiceError)
           _ (lit "ok") [EvInvokeAgent (lit "s1") (lit "ok")]);
    vm_compute; reflexivity.
Defined.







(** ** More on the Spark Discovery Hub *)




(** X13: the Confidence Lab refuses a submission exactly when the record it
    has just stored for it is the empty one: no weakness left after
    trimming, no barrier selected, nothing but white space typed as extra
    barrier. *)
Theorem empty_submission_iff (weaknesses_text : str) (barriers : list str)
    (extra_barrier : str) :
  empty_submission weaknesses_text barriers extra_barrier = true
  <-> conf_raw_of weaknesses_text barriers extra_barrier = empty_conf_raw.
Proof.
  unfold empty_submission, conf_raw_of, empty_conf_raw. split.
  - destruct (weakness_list weaknesses_text); [|discriminate].
    destruct barriers; [|discriminate].
    destruct (strip extra_barrier); [reflexivity|discriminate].
  - intros [= Hw Hb He].
    apply map_eq_nil in Hw. apply map_eq_nil in Hb. subst barriers.
    rewrite Hw. destruct (strip extra_barrier); [reflexivity|discriminate].
Qed.

Lemma empty_submission_iff_witness :
  empty_submission (lit "  ") [] (lit " ") = true.
Proof.
  apply (proj2 (empty_submission_iff (lit "  ") [] (lit " "))). reflexivity.
Defined.

Lemma reframe_str (w : str) : exists r, reframe (VStr w) = Ok r /\ reframe_of w r.
Proof.
  unfold reframe, reframe_of.
  destruct (contains (lit "shy") (lower w));
    [|destruct (contains (lit "overthink") (lower w))];
    eexists; (split; [reflexivity|]); eexists _, _, _, _; (split; [reflexivity|]);
    vm_compute; discriminate.
Qed.

Lemma reframes_strs (ws : list str) :
  exists rs, reframes (List.map VStr ws) = Ok rs /\ Forall2 reframe_of ws rs.
Proof.
  induction ws as [|w ws (rs & Hrs & HF)].
  - exists []. split; [reflexivity|constructor].
  - destruct (reframe_str w) as (r & Hr & Hw).
    exists (r :: rs). cbn [List.map reframes]. unfold rbind. rewrite Hr, Hrs.
    split; [reflexivity|constructor; assumption].
Qed.

(** The fallback of [call_confidence_ai] on the record the lab builds. *)
Lemma confidence_fallback_widgets (weaknesses_text : str) (barriers : list str)
    (extra_barrier : str) :
  exists rs,
    confidence_fallback (conf_raw_of weaknesses_text barriers extra_barrier)
    = Ok (VDict [(lit "weakness_reframes", VList rs);
                 (lit "barrier_action_plan",
                  VList (List.map fallback_plan (all_barriers barriers extra_barrier)));
                 (lit "general_boost", VStr general_boost)])
    /\ Forall2 reframe_of (weakness_list weaknesses_text) rs.
Proof.
  destruct (reframes_strs (weakness_list weaknesses_text)) as (rs & Hrs & HF).
  exists rs. split; [|exact HF].
  unfold confidence_fallback, conf_raw_of, all_barriers.
  cbn [py_get rbind dict_get].
  change (eqb_str (lit "weaknesses") (lit "weaknesses")) with true.
  change (eqb_str (lit "barriers") (lit "weaknesses")) with false.
  change (eqb_str (lit "barriers") (lit "barriers")) with true.
  change (eqb_str (lit "extra_barrier") (lit "weaknesses")) with false.
  change (eqb_str (lit "extra_barrier") (lit "barriers")) with false.
  change (eqb_str (lit "extra_barrier") (lit "extra_barrier")) with true.
  cbn iota. unfold str_list at 1 2. rewrite Hrs. cbn [rbind].
  destruct (strip extra_barrier) as [|x s].
  - cbn [truthy rbind]. rewrite map_map. reflexivity.
  - cbn [truthy rbind]. rewrite !map_app, map_map. reflexivity.
Qed.

(** X14: on the record the Confidence Lab builds from its widgets the
    fallback of [call_confidence_ai] does not raise.  It gives one reframe
    per weakness, in their order, each with the weakness itself, a strength,
    three example roles and the fixed encouragement; one plan of the two
    fixed actions per barrier, the selected ones first and then the typed
    one when it is not blank; and the fixed closing note. *)
Theorem confidence_fallback_shape (weaknesses_text : str) (barriers : list str)
    (extra_barrier : str) :
  exists rs,
    confidence_fallback (conf_raw_of weaknesses_text barriers extra_barrier)
    = Ok (VDict [(lit "weakness_reframes", VList rs);
                 (lit "barrier_action_plan",
                  VList (List.map fallback_plan (all_barriers barriers extra_barrier)));
                 (lit "general_boost", VStr general_boost)])
    /\ Forall2 reframe_of (weakness_list weaknesses_text) rs.
Proof. exact (confidence_fallback_widgets weaknesses_text barriers extra_barrier). Qed.

Lemma contains_infix (sub a b : str) : contains sub (a ++ sub ++ b) = true.
Proof.
  unfold contains. induction a as [|x a IH].
  - cbn [app]. destruct sub as [|y sub]; [destruct b; reflexivity|].
    pose proof (startswith_app (y :: sub) b) as Hs. cbn [app] in Hs.
    cbn [app find]. rewrite Hs. reflexivity.
  - cbn [app find].
    destruct (startswith sub (x :: a ++ sub ++ b)); [reflexivity|].
    destruct (find sub (a ++ sub ++ b)); [reflexivity|discriminate].
Qed.

(** X15: a weakness that mentions "shy", in lower or upper case letters and
    anywhere in its text, is reframed by the fallback as being observant,
    with the three backstage roles, also when it mentions overthinking as
    well: the test for "shy" comes first. *)
Theorem shy_weakness_reframe (a u b : str) (H : lower u = lit "shy") :
  reframe (VStr (a ++ u ++ b))
  = Ok (VDict
          [(lit "original", VStr (a ++ u ++ b));
           (lit "strength",
            VStr (utf8_lit "You’re observant and good at listening, which is powerful in backstage and editing roles."));
           (lit "example_roles",
            VList [VStr (lit "Video editor"); VStr (lit "Continuity checker");
                   VStr (lit "Researcher")]);
           (lit "encouragement", VStr generic_encouragement)]).
Proof.
  unfold reframe, lower. rewrite !map_app. fold (lower u). rewrite H.
  rewrite contains_infix. reflexivity.
Qed.

Lemma shy_weakness_reframe_witness :
  reframe (VStr (lit "I overthink and I'm " ++ lit "SHY" ++ lit " in groups"))
  = Ok (VDict
          [(lit "original", VStr (lit "I overthink and I'm " ++ lit "SHY" ++ lit " in groups"));
           (lit "strength",
            VStr (utf8_lit "You’re observant and good at listening, which is powerful in backstage and editing roles."));
           (lit "example_roles",
            VList [VStr (lit "Video editor"); VStr (lit "Continuity checker");
                   VStr (lit "Researcher")]);
           (lit "encouragement", VStr generic_encouragement)]).
Proof.
  apply (shy_weakness_reframe (lit "I overthink and I'm ") (lit "SHY") (lit " in groups")).
  reflexivity.
Defined.

Lemma call_confidence_ai_eq (conf_data : value) (bedrock : result str) :
  call_confidence_ai conf_data bedrock
  = ([EvBedrock (ConfidencePrompt conf_data)],
     match bedrock with
     | Ok raw =>
       match safe_json_from_model raw with
       | Ok (VDict d) => Ok (VDict d)
       | _ => confidence_fallback conf_data
       end
     | Raise _ => confidence_fallback conf_data
     end).
Proof.
  unfold call_confidence_ai, call_bedrock, try_except, bind, call, lift, ret, raise.
  destruct bedrock as [raw|err];
    [|destruct (confidence_fallback conf_data); reflexivity].
  destruct (safe_json_from_model raw) as [v|err];
    [|destruct (confidence_fallback conf_data); reflexivity].
  destruct v; try reflexivity; destruct (confidence_fallback conf_data); reflexivity.
Qed.

Lemma call_identity_ai_eq (identity_data : value) (bedrock : result str) :
  call_identity_ai identity_data bedrock
  = ([EvBedrock (IdentityPrompt identity_data)],
     match bedrock with
     | Ok raw =>
       match safe_json_from_model raw with
       | Ok (VDict d) => Ok (VDict d)
       | _ => identity_fallback identity_data
       end
     | Raise _ => identity_fallback identity_data
     end).
Proof.
  unfold call_identity_ai, call_bedrock, try_except, bind, call, lift, ret, raise.
  destruct bedrock as [raw|err];
    [|destruct (identity_fallback identity_data); reflexivity].
  destruct (safe_json_from_model raw) as [v|err];
    [|destruct (identity_fallback identity_data); reflexivity].
  destruct v; try reflexivity; destruct (identity_fallback identity_data); reflexivity.
Qed.

Lemma identity_fallback_widgets (q1 q2 q3 q4 q5 q6 : str) (c1 c2 c3 c4 c5 c6 : Z) :
  exists d, identity_fallback (identity_raw_of q1 q2 q3 q4 q5 q6 c1 c2 c3 c4 c5 c6)
            = Ok (VDict d).
Proof.
  unfold identity_fallback, identity_raw_of.
  cbn [py_get dict_get rbind as_int].
  change (eqb_str (lit "sliders") (lit "answers")) with false.
  change (eqb_str (lit "sliders") (lit "sliders")) with true.
  cbn [py_get dict_get rbind as_int].
  change (eqb_str (lit "chaos_structure") (lit "chaos_structure")) with true.
  change (eqb_str (lit "solo_team") (lit "chaos_structure")) with false.
  change (eqb_str (lit "solo_team") (lit "solo_team")) with true.
  cbn [rbind as_int]. eexists. reflexivity.
Qed.

(** X16: pressing "Reveal My Spark Identity" never raises, whatever the model
    does.  It makes one request to the model, stores the submitted answers
    as [identity_raw] and a dict as [identity_result], and confirms; the
    dict is the model's when the model's text holds one, and the fallback's
    in every other case. *)
Theorem identity_reveal_stores_dict (q1 q2 q3 q4 q5 q6 : str)
    (c1 c2 c3 c4 c5 c6 : Z) (bedrock : result str) (st : session) :
  let identity_data := identity_raw_of q1 q2 q3 q4 q5 q6 c1 c2 c3 c4 c5 c6 in
  exists d,
    identity_reveal identity_data bedrock st
    = ([EvBedrock (IdentityPrompt identity_data);
        EvSuccess (lit "Spark Identity generated! Scroll down to see your results.")],
       set_identity_result (VDict d) (set_identity_raw identity_data st),
       Ok tt)
    /\ match bedrock with
       | Ok raw =>
         match safe_json_from_model raw with
         | Ok (VDict m) => d = m
         | _ => identity_fallback identity_data = Ok (VDict d)
         end
       | Raise _ => identity_fallback identity_data = Ok (VDict d)
       end.
Proof.
  intros identity_data.
  destruct (identity_fallback_widgets q1 q2 q3 q4 q5 q6 c1 c2 c3 c4 c5 c6) as [fb Hfb].
  fold identity_data in Hfb.
  unfold identity_reveal. rewrite call_identity_ai_eq.
  destruct bedrock as [raw|err]; [|exists fb; rewrite Hfb; split; reflexivity].
  destruct (safe_json_from_model raw) as [v|err];
    [|exists fb; rewrite Hfb; split; reflexivity].
  destruct v; try (exists fb; rewrite Hfb; split; reflexivity).
  exists d. split; reflexivity.
Qed.

(** X17: a submission of the Confidence Lab that is not empty never raises,
    whatever the model does.  It makes one request to the model, stores the
    cleaned input as [confidence_raw] and a dict as [confidence_result], and
    confirms; the dict is the model's when the model's text holds one, and
    the fallback's in every other case. *)
Theorem confidence_boost_stores_dict (weaknesses_text : str) (barriers : list str)
    (extra_barrier : str) (bedrock : result str) (st : session)
    (H : empty_submission weaknesses_text barriers extra_barrier = false) :
  let conf_raw := conf_raw_of weaknesses_text barriers extra_barrier in
  exists d,
    confidence_boost weaknesses_text barriers extra_barrier bedrock st
    = ([EvBedrock (ConfidencePrompt conf_raw);
        EvSuccess (lit "Spark Confidence boost ready! Scroll down to see your strengths and action plan.")],
       set_confidence_result (VDict d) (set_confidence_raw conf_raw st),
       Ok tt)
    /\ match bedrock with
       | Ok raw =>
         match safe_json_from_model raw with
         | Ok (VDict m) => d = m
         | _ => confidence_fallback conf_raw = Ok (VDict d)
         end
       | Raise _ => confidence_fallback conf_raw = Ok (VDict d)
       end.
Proof.
  intros conf_raw.
  destruct (confidence_fallback_widgets weaknesses_text barriers extra_barrier)
    as (rs & Hfb & _).
  fold conf_raw in Hfb.
  unfold confidence_boost. rewrite H. fold conf_raw. rewrite call_confidence_ai_eq.
  destruct bedrock as [raw|err]; [|eexists; rewrite Hfb; split; reflexivity].
  destruct (safe_json_from_model raw) as [v|err];
    [|eexists; rewrite Hfb; split; reflexivity].
  destruct v; try (eexists; rewrite Hfb; split; reflexivity).
  exists d. split; reflexivity.
Qed.

Lemma confidence_boost_stores_dict_witness :
  exists d,
    confidence_boost (lit "I'm shy") [lit "Money"] [] (Ok (lit "no json here"))
                     initial_session
    = ([EvBedrock (ConfidencePrompt (conf_raw_of (lit "I'm shy") [lit "Money"] []));
        EvSuccess (lit "Spark Confidence boost ready! Scroll down to see your strengths and action plan.")],
       set_confidence_result (VDict d)
         (set_confidence_raw (conf_raw_of (lit "I'm shy") [lit "Money"] []) initial_session),
       Ok tt)
    /\ confidence_fallback (conf_raw_of (lit "I'm shy") [lit "Money"] []) = Ok (VDict d).
Proof.
  apply (confidence_boost_stores_dict (lit "I'm shy") [lit "Money"] []
           (Ok (lit "no json here")) initial_session).
  reflexivity.
Defined.

Lemma show_result_same (stored : value) (display : result unit) (st : session) :
  exists res, show_result stored display st = ([], st, res).
Proof.
  unfold show_result. destruct (truthy stored) as [[|]|e]; eexists; reflexivity.
Qed.

Lemma identity_reveal_stores_dict_aux (q1 q2 q3 q4 q5 q6 : str)
    (c1 c2 c3 c4 c5 c6 : Z) (bedrock : result str) (st : session) :
  exists d,
    identity_reveal (identity_raw_of q1 q2 q3 q4 q5 q6 c1 c2 c3 c4 c5 c6) bedrock st
    = ([EvBedrock (IdentityPrompt (identity_raw_of q1 q2 q3 q4 q5 q6 c1 c2 c3 c4 c5 c6));
        EvSuccess (lit "Spark Identity generated! Scroll down to see your results.")],
       set_identity_result (VDict d)
         (set_identity_raw (identity_raw_of q1 q2 q3 q4 q5 q6 c1 c2 c3 c4 c5 c6) st),
       Ok tt).
Proof.
  destruct (identity_fallback_widgets q1 q2 q3 q4 q5 q6 c1 c2 c3 c4 c5 c6) as [fb Hfb].
  unfold identity_reveal. rewrite call_identity_ai_eq.
  destruct bedrock as [raw|err]; [|exists fb; rewrite Hfb; reflexivity].
  destruct (safe_json_from_model raw) as [v|err]; [|exists fb; rewrite Hfb; reflexivity].
  destruct v; try (exists fb; rewrite Hfb; reflexivity).
  exists d. reflexivity.
Qed.

Lemma confidence_boost_outcome (weaknesses_text : str) (barriers : list str)
    (extra_barrier : str) (bedrock : result str) (st : session) :
  exists t st1,
    confidence_boost weaknesses_text barriers extra_barrier bedrock st = (t, st1, Ok tt)
    /\ ent_keys st1 = ent_keys st
    /\ identity_keys st1 = identity_keys st
    /\ (model_calls t <= 1)%nat.
Proof.
  unfold confidence_boost.
  destruct (empty_submission weaknesses_text barriers extra_barrier) eqn:E.
  - eexists _, _. split; [reflexivity|]. split; [reflexivity|].
    split; [reflexivity|cbn; lia].
  - rewrite call_confidence_ai_eq.
    destruct (confidence_fallback_widgets weaknesses_text barriers extra_barrier)
      as (rs & Hfb & _).
    assert (Hr : exists d,
               match bedrock with
               | Ok raw =>
                 match safe_json_from_model raw with
                 | Ok (VDict d) => Ok (VDict d)
                 | _ => confidence_fallback
                          (conf_raw_of weaknesses_text barriers extra_barrier)
                 end
               | Raise _ => confidence_fallback
                              (conf_raw_of weaknesses_text barriers extra_barrier)
               end = Ok (VDict d)).
    { destruct bedrock as [raw|err]; [|eexists; exact Hfb].
      destruct (safe_json_from_model raw) as [v|err]; [|eexists; exact Hfb].
      destruct v; try (eexists; exact Hfb). eexists; reflexivity. }
    destruct Hr as [d ->].
    eexists _, _. split; [reflexivity|]. split; [reflexivity|].
    split; [reflexivity|cbn; lia].
Qed.

(** X18: a run of the Spark Discovery Hub never writes the keys of the
    Day-in-the-Life pages and makes at most one request to the model.  With
    no button pressed it writes nothing and shows nothing new; the identity
    button leaves the confidence keys alone and the confidence button the
    identity keys. *)
Theorem spark_main_keeps_other_keys (c : spark_click) (bedrock : result str)
    (display_identity display_confidence : result unit) (st : session) :
  exists t st' res,
    spark_main c bedrock display_identity display_confidence st = (t, st', res)
    /\ ent_keys st' = ent_keys st
    /\ (model_calls t <= 1)%nat
    /\ match c with
       | SparkNoClick => st' = st /\ t = []
       | SparkReveal _ _ _ _ _ _ _ _ _ _ _ _ => confidence_keys st' = confidence_keys st
       | SparkBoost _ _ _ => identity_keys st' = identity_keys st
       end.
Proof.
  unfold spark_main. destruct c as [|q1 q2 q3 q4 q5 q6 c1 c2 c3 c4 c5 c6|w b e].
  - unfold and_then.
    destruct (show_result_same (identity_result st) display_identity st) as [r1 ->].
    destruct r1 as [[]|e1];
      [|eexists _, _, _; split; [reflexivity|];
        split; [reflexivity|split; [cbn; lia|split; reflexivity]]].
    destruct (show_result_same (confidence_result st) display_confidence st) as [r2 ->].
    eexists _, _, _. split; [reflexivity|].
    split; [reflexivity|split; [cbn; lia|split; reflexivity]].
  - destruct (identity_reveal_stores_dict_aux q1 q2 q3 q4 q5 q6 c1 c2 c3 c4 c5 c6 bedrock st)
      as (d & ->).
    unfold and_then.
    match goal with
    | |- context [show_result ?v display_identity ?s] =>
      destruct (show_result_same v display_identity s) as [r1 ->]
    end.
    destruct r1 as [[]|e1];
      [|eexists _, _, _; split; [reflexivity|];
        split; [reflexivity|split; [cbn; lia|reflexivity]]].
    match goal with
    | |- context [show_result ?v display_confidence ?s] =>
      destruct (show_result_same v display_confidence s) as [r2 ->]
    end.
    eexists _, _, _. split; [reflexivity|].
    split; [reflexivity|split; [cbn; lia|reflexivity]].
  - unfold and_then.
    destruct (show_result_same (identity_result st) display_identity st) as [r1 ->].
    destruct r1 as [[]|e1];
      [|eexists _, _, _; split; [reflexivity|];
        split; [reflexivity|split; [cbn; lia|reflexivity]]].
    cbn [app].
    destruct (confidence_boost_outcome w b e bedrock st) as (t & st1 & -> & Hk & Hi & Hm).
    match goal with
    | |- context [show_result ?v display_confidence ?s] =>
      destruct (show_result_same v display_confidence s) as [r2 ->]
    end.
    eexists _, _, _. split; [reflexivity|].
    rewrite app_nil_r. split; [exact Hk|split; [exact Hm|exact Hi]].
Qed.

(** ** More on the Day-in-the-Life pages *)

Lemma role_options_total (profile_text : str) (bedrock : result str) :
  exists t roles,
    ent_generate_role_options_from_ai profile_text bedrock
    = (EvBedrock (RolesPrompt profile_text) :: t, Ok roles)
    /\ roles <> []
    /\ (t = [] \/ t = [EvToast (lit "Using fallback roles (AI error).")])
    /\ (t = [] ->
        exists raw, bedrock = Ok raw /\ safe_json_from_model raw = Ok (VList roles)).
Proof.
  unfold ent_generate_role_options_from_ai, call_bedrock, try_except, bind, call,
    lift, emit, ret, raise.
  assert (Hfb : fallback_roles <> []) by discriminate.
  destruct bedrock as [raw|err].
  - destruct (safe_json_from_model raw) as [v|err] eqn:Es.
    + destruct v as [| | | | |l|];
        try (eexists _, _; split; [reflexivity|];
             split; [exact Hfb|]; split; [right; reflexivity|discriminate]).
      destruct l as [|x l].
      * eexists _, _. split; [reflexivity|].
        split; [exact Hfb|]. split; [right; reflexivity|discriminate].
      * eexists _, _. split; [reflexivity|]. split; [discriminate|].
        split; [left; reflexivity|]. intros _. exists raw. split; [reflexivity|exact Es].
    + eexists _, _. split; [reflexivity|].
      split; [exact Hfb|]. split; [right; reflexivity|discriminate].
  - eexists _, _. split; [reflexivity|].
    split; [exact Hfb|]. split; [right; reflexivity|discriminate].
Qed.

(** What the loop over the role cards leaves: the state as it was, or, when
    the button of a card was pressed, the simulation page with the role of
    that card selected; the roles before that card can all be shown. *)
Lemma roles_loop_outcome (roles : list value) :
  forall idx c st st' res,
    roles_loop roles idx c st = (st', res) ->
    match res with
    | Ok true =>
      exists i role,
        c = ClickTry (idx + i) /\ roles !! i = Some role
        /\ showable role = true
        /\ forallb showable (take i roles) = true
        /\ st' = ent_go_to "simulation" (set_selected_role role st)
    | Ok false => st' = st /\ forallb showable roles = true
    | Raise _ => st' = st /\ forallb showable roles = false
    end.
Proof.
  induction roles as [|role roles IH]; intros idx c st st' res H.
  - cbn in H. injection H as <- <-. split; reflexivity.
  - cbn [roles_loop] in H. cbn [forallb].
    destruct (role_fields role) as [[[n h] w]|err] eqn:Ef.
    2: { replace (showable role) with false by (unfold showable; rewrite Ef; reflexivity).
         injection H as <- <-. split; reflexivity. }
    destruct n as [| | | |name| |];
      try (replace (showable role) with false
             by (unfold showable; rewrite Ef; reflexivity);
           injection H as <- <-; split; reflexivity).
    assert (Hshow : showable role = true) by (unfold showable; rewrite Ef; reflexivity).
    rewrite Hshow. cbn [andb].
    assert (Hnext : roles_loop roles (S idx) c st = (st', res) ->
              match res with
              | Ok true =>
                exists i role0,
                  c = ClickTry (idx + i) /\ (role :: roles) !! i = Some role0
                  /\ showable role0 = true
                  /\ forallb showable (take i (role :: roles)) = true
                  /\ st' = ent_go_to "simulation" (set_selected_role role0 st)
              | Ok false => st' = st /\ forallb showable roles = true
              | Raise _ => st' = st /\ forallb showable roles = false
              end).
    { intros H'. specialize (IH _ _ _ _ _ H').
      destruct res as [[|]|e]; [|exact IH|exact IH].
      destruct IH as (i & role0 & -> & Hl & Hs & Hb & ->).
      exists (S i), role0. split; [f_equal; lia|]. split; [exact Hl|].
      split; [exact Hs|]. split; [|reflexivity].
      cbn [take forallb]. rewrite Hshow. exact Hb. }
    destruct c; try exact (Hnext H).
    destruct (Nat.eqb idx0 idx) eqn:E; [|exact (Hnext H)].
    apply Nat.eqb_eq in E. subst idx0. injection H as <- <-.
    exists 0%nat, role. split; [f_equal; lia|]. split; [reflexivity|].
    split; [exact Hshow|]. split; reflexivity.
Qed.

Lemma showable_fields (role : value) :
  showable role = true ->
  exists name hook why, role_fields role = Ok (VStr name, hook, why) /\ role <> VNone.
Proof.
  unfold showable. destruct (role_fields role) as [[[n h] w]|] eqn:E; [|discriminate].
  destruct n; try discriminate. intros _. eexists _, _, _. split; [reflexivity|].
  intros ->. discriminate.
Qed.

Lemma day_simulation_total (role_name fit_reason : value) (bedrock : result str) :
  exists t d,
    ent_generate_day_simulation role_name fit_reason bedrock
    = (EvBedrock (SimulationPrompt role_name fit_reason) :: t, Ok (VDict d))
    /\ (t = []
        \/ (t = [EvToast (lit "Could not generate full simulation, showing a simple summary.")]
            /\ VDict d = fallback_simulation)).
Proof.
  unfold ent_generate_day_simulation, call_bedrock, try_except, bind, call, lift,
    emit, ret, raise.
  destruct bedrock as [raw|err];
    [|eexists _, _; split; [reflexivity|right; split; reflexivity]].
  destruct (safe_json_from_model raw) as [v|err];
    [|eexists _, _; split; [reflexivity|right; split; reflexivity]].
  destruct v; eexists _, _;
    (split; [reflexivity|(left; reflexivity) || (right; split; reflexivity)]).
Qed.

Lemma ent_show_simulation_eq (r : rerun) (st : session) (name : str) (hook why : value) :
  role_fields (ent_selected_role st) = Ok (VStr name, hook, why) ->
  ent_show_simulation r st
  = let '(t, st1, got) :=
      match ent_simulations st !! name with
      | None =>
        match ent_generate_day_simulation (VStr name) why (bedrock r) with
        | (t, Ok sim) =>
          (t, set_simulations (<[name := sim]> (ent_simulations st)) st, Ok sim)
        | (t, Raise e) => (t, st, Raise e)
        end
      | Some sim => ([], st, Ok sim)
      end in
    match got, display r with
    | Raise e, _ => (t, st1, Raise e)
    | Ok _, Raise e => (t, st1, Raise e)
    | Ok _, Ok _ =>
      match clicked r with
      | ClickTryAnother => (t, ent_go_to "roles" st1, Ok tt)
      | ClickStartOver => (t, start_over st1, Ok tt)
      | _ => (t, st1, Ok tt)
      end
    end.
Proof.
  intros Hf. unfold ent_show_simulation.
  destruct (ent_selected_role st); try discriminate Hf.
  rewrite Hf. reflexivity.
Qed.

(** One run of the simulation page with a role that can be shown: the
    simulation is fetched or made, then the page is displayed, then the two
    buttons at its foot are looked at. *)
Lemma ent_show_simulation_showable (r : rerun) (st : session) :
  showable (ent_selected_role st) = true ->
  exists t st1,
    no_warning t = true
    /\ (model_calls t <= 1)%nat
    /\ (st1 = st
        \/ exists name d,
             st1 = set_simulations (<[name := VDict d]> (ent_simulations st)) st)
    /\ ent_show_simulation r st
       = match display r with
         | Raise e => (t, st1, Raise e)
         | Ok _ =>
           match clicked r with
           | ClickTryAnother => (t, ent_go_to "roles" st1, Ok tt)
           | ClickStartOver => (t, start_over st1, Ok tt)
           | _ => (t, st1, Ok tt)
           end
         end.
Proof.
  intros Hs. destruct (showable_fields _ Hs) as (name & hook & why & Hf & Hne).
  rewrite (ent_show_simulation_eq r st name hook why Hf).
  destruct (ent_simulations st !! name) as [sim|] eqn:Hc.
  - exists [], st. split; [reflexivity|]. split; [cbn; lia|]. split; [left; reflexivity|].
    destruct (display r); reflexivity.
  - destruct (day_simulation_total (VStr name) why (bedrock r)) as (t & d & Hg & Ht).
    rewrite Hg.
    exists (EvBedrock (SimulationPrompt (VStr name) why) :: t),
      (set_simulations (<[name := VDict d]> (ent_simulations st)) st).
    split; [destruct Ht as [->|[-> _]]; reflexivity|].
    split; [destruct Ht as [->|[-> _]]; cbn; lia|].
    split; [right; eauto|].
    destruct (display r); reflexivity.
Qed.

Lemma ent_main_ok (r : rerun) (st : session) :
  ent_ok st ->
  exists t st' res,
    ent_main r st = (t, st', res)
    /\ ent_ok st' /\ no_warning t = true /\ (model_calls t <= 1)%nat.
Proof.
  intros [Hst|[Hst|[[Hst Hro]|(Hst & Hro & Hsel)]]]; unfold ent_main; rewrite Hst;
    cbn [String.eqb Ascii.eqb Bool.eqb].
  - (* landing *)
    unfold ent_show_landing.
    destruct (clicked r); eexists _, _, _;
      (split; [reflexivity|]); (split; [|split; [reflexivity|cbn; lia]]);
      solve [left; exact Hst | right; left; reflexivity].
  - (* quiz *)
    unfold ent_show_quiz.
    destruct (clicked r);
      try (eexists _, _, _; (split; [reflexivity|]);
           (split; [|split; [reflexivity|cbn; lia]]);
           solve [right; left; exact Hst | left; reflexivity]).
    destruct (role_options_total profile (bedrock r)) as (t & roles & Hg & Hne & Ht & _).
    rewrite Hg. eexists _, _, _. split; [reflexivity|].
    split; [right; right; left; split; [reflexivity|exact Hne]|].
    destruct Ht as [->| ->]; split; reflexivity || (cbn; lia).
  - (* roles *)
    unfold ent_show_roles.
    destruct (ent_role_options st) as [|role roles] eqn:Eo; [contradiction|].
    destruct (roles_loop (role :: roles) 1 (clicked r) st) as [st' res] eqn:El.
    pose proof (roles_loop_outcome _ _ _ _ _ _ El) as Ho.
    destruct res as [[|]|e].
    + destruct Ho as (i & role0 & _ & _ & Hs & _ & ->).
      eexists _, _, _. split; [reflexivity|].
      split; [|split; [reflexivity|cbn; lia]].
      right; right; right. cbn. rewrite Eo. split; [reflexivity|].
      split; [discriminate|exact Hs].
    + destruct Ho as [-> _].
      assert (Hok : ent_ok st)
        by (right; right; left; split; [exact Hst|rewrite Eo; discriminate]).
      destruct (clicked r); eexists _, _, _;
        (split; [reflexivity|]); (split; [|split; [reflexivity|cbn; lia]]);
        solve [exact Hok | right; left; reflexivity].
    + destruct Ho as [-> _].
      eexists _, _, _. split; [reflexivity|]. split; [|split; [reflexivity|cbn; lia]].
      right; right; left. split; [exact Hst|rewrite Eo; discriminate].
  - (* simulation *)
    destruct (ent_show_simulation_showable r st Hsel) as (t & st1 & Hw & Hm & Hst1 & ->).
    assert (H1 : ent_stage st1 = "simulation"%string
                 /\ ent_role_options st1 = ent_role_options st
                 /\ ent_selected_role st1 = ent_selected_role st).
    { destruct Hst1 as [->|(name & d & ->)]; [|cbn]; repeat split; exact Hst. }
    destruct H1 as (Hs1 & Ho1 & Hr1).
    assert (Hok1 : ent_ok st1).
    { right; right; right. rewrite Hs1, Ho1, Hr1. repeat split; assumption. }
    assert (Hroles : ent_ok (ent_go_to "roles" st1)).
    { right; right; left. cbn. rewrite Ho1. split; [reflexivity|exact Hro]. }
    assert (Hover : ent_ok (start_over st1)) by (left; reflexivity).
    destruct (display r); [|eexists _, _, _; repeat split; eassumption].
    destruct (clicked r); eexists _, _, _; repeat split; eassumption.
Qed.

Lemma ent_session_ok (rs : list rerun) :
  forall st,
    ent_ok st ->
    ent_ok (ent_session rs st).2
    /\ no_warning (ent_session rs st).1 = true
    /\ (model_calls (ent_session rs st).1 <= length rs)%nat.
Proof.
  induction rs as [|r rs IH]; intros st Hok.
  - cbn. repeat split; [exact Hok|lia].
  - cbn [ent_session].
    destruct (ent_main_ok r st Hok) as (t & st' & res & -> & Hok' & Hw & Hm).
    destruct (IH st' Hok') as (Hok2 & Hw2 & Hm2).
    destruct (ent_session rs st') as [t' st2]. cbn [fst snd] in *.
    split; [exact Hok2|]. split.
    + unfold no_warning in *. rewrite forallb_app, Hw, Hw2. reflexivity.
    + unfold model_calls in *. rewrite List.filter_app, length_app. cbn [length]. lia.
Qed.

(** X6: in a session that starts on the landing page and is driven by the
    buttons, the Day-in-the-Life pages are always in one of their four
    stages; on the roles page and on the simulation page the list of role
    options is not empty, and on the simulation page the selected role is a
    dict with the three fields and a string as name. *)
Theorem ent_session_reachable_states (rs : list rerun) (st : session)
    (H : ent_ok st) :
  ent_ok (ent_session rs st).2.
Proof. exact (proj1 (ent_session_ok rs st H)). Qed.

Lemma ent_session_reachable_states_witness :
  ent_ok (ent_session
            [mk_rerun ClickStart (Ok []) (Ok tt);
             mk_rerun (ClickShowRoles (lit "Interests: ['Music']")) (Ok (lit "no json here"))
                      (Ok tt);
             mk_rerun (ClickTry 2) (Ok []) (Ok tt)]
            initial_session).2.
Proof.
  apply (ent_session_reachable_states _ initial_session). left. reflexivity.
Defined.

(** X7: in a session of the Day-in-the-Life pages that starts on the landing
    page and is driven by the buttons, neither of the two guard warnings
    ("No roles yet", "Pick a role first") is ever shown, and each run of the
    page makes at most one request to the model. *)
Theorem ent_session_shows_no_warning (rs : list rerun) (st : session)
    (H : ent_ok st) :
  no_warning (ent_session rs st).1 = true
  /\ (model_calls (ent_session rs st).1 <= length rs)%nat.
Proof. exact (proj2 (ent_session_ok rs st H)). Qed.

Lemma ent_session_shows_no_warning_witness :
  no_warning (ent_session
                [mk_rerun ClickStart (Ok []) (Ok tt);
                 mk_rerun ClickQuizBack (Ok []) (Ok tt);
                 mk_rerun ClickRolesBackQuiz (Ok []) (Ok tt)]
                initial_session).1 = true
  /\ (model_calls (ent_session
                     [mk_rerun ClickStart (Ok []) (Ok tt);
                      mk_rerun ClickQuizBack (Ok []) (Ok tt);
                      mk_rerun ClickRolesBackQuiz (Ok []) (Ok tt)]
                     initial_session).1 <= 3)%nat.
Proof.
  apply (ent_session_shows_no_warning
           [mk_rerun ClickStart (Ok []) (Ok tt);
            mk_rerun ClickQuizBack (Ok []) (Ok tt);
            mk_rerun ClickRolesBackQuiz (Ok []) (Ok tt)] initial_session).
  left. reflexivity.
Defined.

Lemma ent_show_simulation_unshowable (r : rerun) (st : session) :
  showable (ent_selected_role st) = false ->
  exists t res,
    ent_show_simulation r st = (t, st, res)
    \/ ent_show_simulation r st = (t, ent_go_to "roles" st, res).
Proof.
  unfold showable, ent_show_simulation. intros Hs.
  destruct (ent_selected_role st) as [| | | | | |d].
  1: destruct (clicked r); eexists _, _; (left; reflexivity) || (right; reflexivity).
  1-5: eexists _, _; left; reflexivity.
  destruct (role_fields (VDict d)) as [[[n h] w]|e];
    [|eexists _, _; left; reflexivity].
  destruct n; try discriminate Hs; eexists _, _; left; reflexivity.
Qed.

Lemma insert_dict_keeps (st : session) (name : str) (d : list (str * value)) :
  simulations_are_dicts st ->
  simulations_are_dicts (set_simulations (<[name := VDict d]> (ent_simulations st)) st).
Proof.
  intros H k sim. cbn. destruct (decide (name = k)) as [->|Hne].
  - rewrite lookup_insert_eq. intros [= <-]. reflexivity.
  - rewrite lookup_insert_ne by exact Hne. apply H.
Qed.

(** What one run of the Day-in-the-Life page leaves alone. *)
Lemma ent_main_keeps (r : rerun) (st : session) :
  let st' := (ent_main r st).1.2 in
  identity_keys st' = identity_keys st
  /\ confidence_keys st' = confidence_keys st
  /\ (simulations_are_dicts st -> simulations_are_dicts st').
Proof.
  assert (Hsame : identity_keys st = identity_keys st
                  /\ confidence_keys st = confidence_keys st
                  /\ (simulations_are_dicts st -> simulations_are_dicts st))
    by (repeat split; intros H; exact H).
  assert (Hgo : forall stage,
             identity_keys (ent_go_to stage st) = identity_keys st
             /\ confidence_keys (ent_go_to stage st) = confidence_keys st
             /\ (simulations_are_dicts st -> simulations_are_dicts (ent_go_to stage st)))
    by (intros stage; repeat split; intros H; exact H).
  assert (Hlanding : let st' := (ent_show_landing r st).1.2 in
             identity_keys st' = identity_keys st
             /\ confidence_keys st' = confidence_keys st
             /\ (simulations_are_dicts st -> simulations_are_dicts st')).
  { unfold ent_show_landing. destruct (clicked r); cbn [fst snd]; (exact Hsame || apply Hgo). }
  unfold ent_main.
  destruct (String.eqb (ent_stage st) "landing"); [exact Hlanding|].
  destruct (String.eqb (ent_stage st) "quiz").
  { unfold ent_show_quiz. destruct (clicked r); cbn [fst snd]; try (exact Hsame || apply Hgo).
    destruct (ent_generate_role_options_from_ai profile (bedrock r)) as [t [roles|e]];
      cbn [fst snd]; [|exact Hsame].
    repeat split; intros H; exact H. }
  destruct (String.eqb (ent_stage st) "roles").
  { unfold ent_show_roles. destruct (ent_role_options st) as [|role roles].
    - destruct (clicked r); cbn [fst snd]; (exact Hsame || apply Hgo).
    - destruct (roles_loop (role :: roles) 1 (clicked r) st) as [st' res] eqn:El.
      pose proof (roles_loop_outcome _ _ _ _ _ _ El) as Ho.
      destruct res as [[|]|e].
      + destruct Ho as (i & role0 & _ & _ & _ & _ & ->). cbn [fst snd].
        repeat split; intros H; exact H.
      + destruct Ho as [-> _].
        destruct (clicked r); cbn [fst snd]; (exact Hsame || apply Hgo).
      + destruct Ho as [-> _]. exact Hsame. }
  destruct (String.eqb (ent_stage st) "simulation"); [|exact Hlanding].
  destruct (showable (ent_selected_role st)) eqn:Hs.
  - destruct (ent_show_simulation_showable r st Hs) as (t & st1 & _ & _ & Hst1 & ->).
    assert (H1 : identity_keys st1 = identity_keys st
                 /\ confidence_keys st1 = confidence_keys st
                 /\ (simulations_are_dicts st -> simulations_are_dicts st1)).
    { destruct Hst1 as [->|(name & d & ->)]; [exact Hsame|].
      split; [reflexivity|]. split; [reflexivity|]. apply insert_dict_keeps. }
    assert (Hempty : forall s : session, simulations_are_dicts (start_over s)).
    { intros s k sim. cbn. rewrite lookup_empty. discriminate. }
    destruct H1 as (Hi & Hc & Hd).
    destruct (display r); [|cbn [fst snd]; repeat split; assumption].
    destruct (clicked r); cbn [fst snd];
      try (repeat split; assumption).
    split; [exact Hi|]. split; [exact Hc|]. intros _. apply Hempty.
  - destruct (ent_show_simulation_unshowable r st Hs) as (t & res & [-> | ->]);
      cbn [fst snd]; (exact Hsame || apply Hgo).
Qed.

Lemma ent_session_keeps_all (rs : list rerun) :
  forall st,
    identity_keys (ent_session rs st).2 = identity_keys st
    /\ confidence_keys (ent_session rs st).2 = confidence_keys st
    /\ (simulations_are_dicts st -> simulations_are_dicts (ent_session rs st).2).
Proof.
  induction rs as [|r rs IH]; intros st.
  - cbn. repeat split; intros H; exact H.
  - cbn [ent_session].
    pose proof (ent_main_keeps r st) as Hk. cbn zeta in Hk.
    destruct (ent_main r st) as [[t st1] res]. cbn [fst snd] in Hk.
    specialize (IH st1). destruct (ent_session rs st1) as [t' st2]. cbn [fst snd] in *.
    destruct Hk as (Hi & Hc & Hd). destruct IH as (Hi2 & Hc2 & Hd2).
    split; [congruence|]. split; [congruence|]. intros H. exact (Hd2 (Hd H)).
Qed.

(** X8: every simulation the session stores is a dict, whatever the model
    answers: the pages that read a stored simulation with [get] never meet
    another kind of object there. *)
Theorem stored_simulations_are_dicts (rs : list rerun) (st : session)
    (H : simulations_are_dicts st) :
  simulations_are_dicts (ent_session rs st).2.
Proof. exact (proj2 (proj2 (ent_session_keeps_all rs st)) H). Qed.

Lemma stored_simulations_are_dicts_witness :
  simulations_are_dicts
    (ent_session [mk_rerun NoClick (Ok (lit "[1, 2]")) (Ok tt)] at_simulation).2.
Proof.
  apply (stored_simulations_are_dicts _ at_simulation).
  intros name sim. cbn. rewrite lookup_empty. discriminate.
Defined.

(** X9: the Day-in-the-Life pages never write the four keys of the Spark
    Discovery Hub: after any session on these pages the stored answers and
    results of the two labs are what they were. *)
Theorem ent_pages_keep_hub_keys (rs : list rerun) (st : session) :
  identity_keys (ent_session rs st).2 = identity_keys st
  /\ confidence_keys (ent_session rs st).2 = confidence_keys st.
Proof.
  destruct (ent_session_keeps_all rs st) as (Hi & Hc & _). split; assumption.
Qed.

(** X10: the roles page checks nothing about the roles it was given.  When
    the first role option is not a dict with the three fields and a string
    as name, every run of the page raises before a single button is drawn,
    and the state stays as it is: no button of the Day-in-the-Life pages
    leads out of the roles stage any more. *)
Theorem unshowable_first_role_blocks_page (st : session) (role : value)
    (roles : list value)
    (Hst : ent_stage st = "roles"%string)
    (Ho : ent_role_options st = role :: roles)
    (Hs : showable role = false) :
  (forall r, exists e, ent_main r st = ([], st, Raise e))
  /\ forall rs, ent_session rs st = ([], st).
Proof.
  assert (Hrun : forall r, exists e, ent_main r st = ([], st, Raise e)).
  { intros r. unfold ent_main. rewrite Hst. cbn [String.eqb Ascii.eqb Bool.eqb].
    unfold ent_show_roles. rewrite Ho.
    destruct (roles_loop (role :: roles) 1 (clicked r) st) as [st' res] eqn:El.
    pose proof (roles_loop_outcome _ _ _ _ _ _ El) as H.
    destruct res as [[|]|e].
    - destruct H as (i & role0 & _ & Hl & Hs0 & Hb & _).
      destruct i as [|i]; [cbn in Hl; congruence|].
      cbn [take forallb] in Hb. rewrite Hs in Hb. discriminate.
    - destruct H as [_ H]. cbn [forallb] in H. rewrite Hs in H. discriminate.
    - destruct H as [-> _]. exists e. reflexivity. }
  split; [exact Hrun|].
  induction rs as [|r rs IH]; [reflexivity|].
  cbn [ent_session]. destruct (Hrun r) as [e ->]. rewrite IH. reflexivity.
Qed.

Lemma unshowable_first_role_blocks_page_witness :
  (forall r, exists e, ent_main r (at_roles [VInt 1; producer])
                       = ([], at_roles [VInt 1; producer], Raise e))
  /\ forall rs, ent_session rs (at_roles [VInt 1; producer])
                = ([], at_roles [VInt 1; producer]).
Proof.
  apply (unshowable_first_role_blocks_page (at_roles [VInt 1; producer])
           (VInt 1) [producer]); reflexivity.
Defined.

Lemma roles_loop_try (roles : list value) :
  forall idx i role st,
    forallb showable (take (S i) roles) = true ->
    roles !! i = Some role ->
    roles_loop roles idx (ClickTry (idx + i)) st
    = (ent_go_to "simulation" (set_selected_role role st), Ok true).
Proof.
  induction roles as [|x roles IH]; intros idx i role st Hb Hl; [discriminate|].
  cbn [take forallb] in Hb. apply andb_true_iff in Hb as [Hx Hb].
  cbn [roles_loop]. unfold showable in Hx.
  destruct (role_fields x) as [[[n h] w]|]; [|discriminate].
  destruct n; try discriminate.
  destruct i as [|i].
  - injection Hl as ->. rewrite Nat.add_0_r, Nat.eqb_refl. reflexivity.
  - replace (Nat.eqb (idx + S i) idx) with false
      by (symmetry; apply Nat.eqb_neq; lia).
    replace (idx + S i)%nat with (S idx + i)%nat by lia.
    apply IH; assumption.
Qed.

(** X11: on the roles page the button of the card numbered [i + 1] selects
    the role at position [i] of the options and opens the simulation page,
    provided the roles up to that card can be shown; nothing else of the
    state changes and the model is not called. *)
Theorem try_button_selects_its_role (st : session) (i : nat) (role : value)
    (b : result str) (d : result unit)
    (Hst : ent_stage st = "roles"%string)
    (Hb : forallb showable (take (S i) (ent_role_options st)) = true)
    (Hl : ent_role_options st !! i = Some role) :
  ent_main (mk_rerun (ClickTry (S i)) b d) st
  = ([], ent_go_to "simulation" (set_selected_role role st), Ok tt).
Proof.
  unfold ent_main. rewrite Hst. cbn [String.eqb Ascii.eqb Bool.eqb].
  unfold ent_show_roles.
  destruct (ent_role_options st) as [|x roles] eqn:Eo; [discriminate|].
  cbn [clicked].
  change (ClickTry (S i)) with (ClickTry (1 + i)).
  rewrite (roles_loop_try (x :: roles) 1 i role st Hb Hl). reflexivity.
Qed.

Lemma try_button_selects_its_role_witness :
  ent_main (mk_rerun (ClickTry 2) (Ok []) (Ok tt))
           (at_roles [producer; role (lit "Studio Session Coordinator") (lit "h") (lit "w")])
  = ([],
     ent_go_to "simulation"
       (set_selected_role (role (lit "Studio Session Coordinator") (lit "h") (lit "w"))
          (at_roles [producer;
                     role (lit "Studio Session Coordinator") (lit "h") (lit "w")])),
     Ok tt).
Proof.
  apply (try_button_selects_its_role
           (at_roles [producer; role (lit "Studio Session Coordinator") (lit "h") (lit "w")])
           1); reflexivity.
Defined.

(** ** More on the calls to the model *)

(** X4: [ent_generate_role_options_from_ai] never raises and never returns
    an empty list, whatever the model does; it makes one request.  A
    non-empty list found in the model's text is returned as it is, whatever
    its items are, without a notice; in every other case the notice is
    shown and the fallback roles are returned. *)
Theorem role_options_never_empty (profile_text : str) (bedrock : result str) :
  exists t roles,
    ent_generate_role_options_from_ai profile_text bedrock
    = (EvBedrock (RolesPrompt profile_text) :: t, Ok roles)
    /\ roles <> []
    /\ match bedrock with
       | Ok raw =>
         match safe_json_from_model raw with
         | Ok (VList (x :: l)) => t = [] /\ roles = x :: l
         | _ => t = [EvToast (lit "Using fallback roles (AI error).")]
                /\ roles = fallback_roles
         end
       | Raise _ => t = [EvToast (lit "Using fallback roles (AI error).")]
                    /\ roles = fallback_roles
       end.
Proof.
  unfold ent_generate_role_options_from_ai, call_bedrock, try_except, bind, call,
    lift, emit, ret, raise.
  assert (Hfb : fallback_roles <> []) by discriminate.
  destruct bedrock as [raw|err];
    [|eexists _, _; split; [reflexivity|]; split; [exact Hfb|split; reflexivity]].
  destruct (safe_json_from_model raw) as [v|err];
    [|eexists _, _; split; [reflexivity|]; split; [exact Hfb|split; reflexivity]].
  destruct v as [| | | | |l|];
    try (eexists _, _; split; [reflexivity|]; split; [exact Hfb|split; reflexivity]).
  destruct l as [|x l];
    [eexists _, _; split; [reflexivity|]; split; [exact Hfb|split; reflexivity]|].
  eexists _, _. split; [reflexivity|]. split; [discriminate|split; reflexivity].
Qed.

(** X5: [ent_generate_day_simulation] never raises and always returns a
    dict, whatever the model does; it makes one request.  A dict found in
    the model's text is returned as it is and a list is wrapped as the
    [scenes] of a new dict, both without a notice; in every other case the
    notice is shown and the fallback simulation is returned. *)
Theorem day_simulation_always_dict (role_name fit_reason : value)
    (bedrock : result str) :
  exists t d,
    ent_generate_day_simulation role_name fit_reason bedrock
    = (EvBedrock (SimulationPrompt role_name fit_reason) :: t, Ok (VDict d))
    /\ match bedrock with
       | Ok raw =>
         match safe_json_from_model raw with
         | Ok (VDict m) => t = [] /\ d = m
         | Ok (VList l) => t = [] /\ d = [(lit "scenes", VList l)]
         | _ => t = [EvToast (lit "Could not generate full simulation, showing a simple summary.")]
                /\ VDict d = fallback_simulation
         end
       | Raise _ =>
         t = [EvToast (lit "Could not generate full simulation, showing a simple summary.")]
         /\ VDict d = fallback_simulation
       end.
Proof.
  unfold ent_generate_day_simulation, call_bedrock, try_except, bind, call, lift,
    emit, ret, raise.
  destruct bedrock as [raw|err];
    [|eexists _, _; split; [reflexivity|split; reflexivity]].
  destruct (safe_json_from_model raw) as [v|err];
    [|eexists _, _; split; [reflexivity|split; reflexivity]].
  destruct v; eexists _, _; (split; [reflexivity|split; reflexivity]).
Qed.

(** ** More on the recovery of structured output *)

Lemma lstrip_all_spaces (w : str) : forallb isspace w = true -> lstrip w = [].
Proof.
  intros H. rewrite <- (app_nil_r w). rewrite (lstrip_spaces w [] H). reflexivity.
Qed.

Lemma rstrip_all_spaces (w : str) : forallb isspace w = true -> rstrip w = [].
Proof.
  intros H. unfold rstrip. rewrite lstrip_all_spaces; [reflexivity|].
  rewrite forallb_forall in *. intros x Hx. apply H. apply in_rev. exact Hx.
Qed.

Lemma strip_all_spaces (w : str) : forallb isspace w = true -> strip w = [].
Proof. intros H. unfold strip. rewrite (lstrip_all_spaces w H). reflexivity. Qed.

Lemma strip_decomp (s : str) :
  exists a b, s = a ++ strip s ++ b
              /\ forallb isspace a = true /\ forallb isspace b = true.
Proof.
  destruct (lstrip_decomp s) as (a & Ha & Hwa).
  destruct (rstrip_decomp (lstrip s)) as (b & Hb & Hwb).
  exists a, b. unfold strip. rewrite <- Hb. split; [exact Ha|]. split; assumption.
Qed.

(** White space around a text does not change what [strip] gives. *)
Lemma strip_pad (w1 s w2 : str) :
  forallb isspace w1 = true -> forallb isspace w2 = true ->
  strip (w1 ++ s ++ w2) = strip s.
Proof.
  intros H1 H2. destruct (strip_decomp s) as (a & b & Hs & Ha & Hb).
  assert (Hl : forallb isspace (w1 ++ a) = true) by (rewrite forallb_app, H1, Ha; reflexivity).
  assert (Hr : forallb isspace (b ++ w2) = true) by (rewrite forallb_app, Hb, H2; reflexivity).
  destruct (strip_shape s) as [E|(x & y & Hh & Hla & Hx & Hy)].
  - rewrite E in *. cbn [app] in Hs. subst s.
    apply strip_all_spaces.
    rewrite !forallb_app, H1, Ha, Hb, H2. reflexivity.
  - rewrite Hs at 1.
    replace (w1 ++ (a ++ strip s ++ b) ++ w2) with ((w1 ++ a) ++ strip s ++ (b ++ w2))
      by (rewrite <- !app_assoc; reflexivity).
    rewrite (strip_around _ _ _ x y Hh Hla Hx Hy).
    rewrite (lstrip_all_spaces _ Hl), (rstrip_all_spaces _ Hr), app_nil_r. reflexivity.
Qed.

(** X1: white space before and after the model's text, of any of the kinds
    Python's [strip] removes, never changes what [safe_json_from_model]
    returns or whether it raises. *)
Theorem safe_json_ignores_outer_space (w1 raw w2 : str)
    (H1 : forallb isspace w1 = true) (H2 : forallb isspace w2 = true) :
  safe_json_from_model (w1 ++ raw ++ w2) = safe_json_from_model raw.
Proof.
  unfold safe_json_from_model. rewrite (strip_pad w1 raw w2 H1 H2). reflexivity.
Qed.

Lemma safe_json_ignores_outer_space_witness :
  safe_json_from_model ([10; 9; 160] ++ jlit "[{'a': 1}, 2]" ++ [32; 8232; 13; 10])
  = safe_json_from_model (jlit "[{'a': 1}, 2]").
Proof.
  apply (safe_json_ignores_outer_space [10; 9; 160] (jlit "[{'a': 1}, 2]")
           [32; 8232; 13; 10]); reflexivity.
Defined.

Lemma array_items_container (f : nat) (s : str) (acc : list value) (v : value) (r : str) :
  array_items f s acc = Done v r -> is_container v = true.
Proof.
  revert s acc. induction f as [|f IH]; intros s acc; [discriminate|].
  cbn [array_items].
  destruct (scan_once f s) as [v0 s1| |]; try discriminate.
  destruct (skip_ws s1) as [|d s2]; [discriminate|].
  destruct (d =? chr "]"); [now intros [= <- _]|].
  destruct (d =? chr ","); [apply IH|discriminate].
Qed.

Lemma object_members_container (f : nat) (s : str) (acc : list (str * value))
    (v : value) (r : str) :
  object_members f s acc = Done v r -> is_container v = true.
Proof.
  revert s acc. induction f as [|f IH]; intros s acc; [discriminate|].
  cbn [object_members].
  destruct s as [|q s1]; [discriminate|].
  destruct (q =? 34); [|discriminate].
  destruct (scanstring s1 []) as [key s2| |]; try discriminate.
  destruct (skip_ws s2) as [|col s3]; [discriminate|].
  destruct (col =? chr ":"); [|discriminate].
  destruct (scan_once f (skip_ws s3)) as [v0 s4| |]; try discriminate.
  destruct (skip_ws s4) as [|d s5]; [discriminate|].
  destruct (d =? chr "}"); [now intros [= <- _]|].
  destruct (d =? chr ","); [apply IH|discriminate].
Qed.

(** A text that starts with a bracket is read as a list or a dict. *)
Lemma json_loads_container (s : str) (o : N) (v : value) :
  is_bracket o -> head s = Some o -> json_loads s = Some v -> is_container v = true.
Proof.
  intros Ho Hs H. destruct (json_loads_inv s v H) as (r & Hscan & _).
  rewrite (skip_ws_bracket s o Ho Hs) in Hscan.
  destruct s as [|x s']; [discriminate|]. injection Hs as ->.
  replace (2 * length (o :: s') + 1)%nat with (S (2 * length (o :: s')))%nat in Hscan by lia.
  rewrite scan_once_eq in Hscan. revert Hscan.
  destruct Ho as [-> | ->]; eval_eqb; cbv iota.
  - destruct (skip_ws s') as [|c1 s1]; [discriminate|].
    destruct (c1 =? chr "]"); [now intros [= <- _]|apply array_items_container].
  - destruct (skip_ws s') as [|c1 s1]; [discriminate|].
    destruct (c1 =? chr "}"); [now intros [= <- _]|apply object_members_container].
Qed.

Lemma piece_of_refl (s : str) : piece_of s s.
Proof. exists [], []. rewrite app_nil_r. reflexivity. Qed.

Lemma piece_of_trans (a b c : str) : piece_of a b -> piece_of b c -> piece_of a c.
Proof.
  intros (p1 & q1 & ->) (p2 & q2 & ->). exists (p2 ++ p1), (q1 ++ q2).
  rewrite <- !app_assoc. reflexivity.
Qed.

Lemma strip_piece (s : str) : piece_of (strip s) s.
Proof. destruct (strip_decomp s) as (a & b & Hs & _). exists a, b. exact Hs. Qed.

Lemma split_go_piece (sep : str) (s : str) :
  forall skip cur part,
    (skip = 0%nat \/ cur = []) ->
    part ∈ split_go sep skip s cur ->
    piece_of part (rev cur ++ s).
Proof.
  induction s as [|c s IH]; intros skip cur part Hinv Hin.
  - cbn in Hin. apply list_elem_of_singleton in Hin as ->.
    rewrite app_nil_r. apply piece_of_refl.
  - cbn [split_go] in Hin. destruct skip as [|k].
    + destruct (startswith sep (c :: s)).
      * apply elem_of_cons in Hin as [->|Hin].
        -- exists [], (c :: s). reflexivity.
        -- destruct (IH _ [] part (or_intror eq_refl) Hin) as (pre & post & Hs).
           cbn [rev app] in Hs. exists (rev cur ++ c :: pre), post.
           rewrite Hs, <- app_assoc. reflexivity.
      * destruct (IH 0%nat (c :: cur) part (or_introl eq_refl) Hin) as (pre & post & Hs).
        exists pre, post. rewrite <- Hs. cbn [rev]. rewrite <- app_assoc. reflexivity.
    + destruct Hinv as [Hk| ->]; [discriminate|].
      destruct (IH k [] part (or_intror eq_refl) Hin) as (pre & post & Hs).
      cbn [rev app] in *. exists (c :: pre), post. rewrite Hs. reflexivity.
Qed.

Lemma fence_parts_inv (parts : list str) (v : value) :
  fence_parts parts = Some v ->
  exists part o, part ∈ parts /\ is_bracket o /\ head (strip part) = Some o
                 /\ json_loads (strip part) = Some v.
Proof.
  induction parts as [|part parts IH]; [discriminate|].
  cbn [fence_parts].
  assert (Hrest : fence_parts parts = Some v ->
            exists part0 o, part0 ∈ part :: parts /\ is_bracket o
                            /\ head (strip part0) = Some o
                            /\ json_loads (strip part0) = Some v).
  { intros H. destruct (IH H) as (p & o & Hin & Hrest). exists p, o.
    split; [apply elem_of_cons; right; exact Hin|exact Hrest]. }
  destruct (startswith (lit "[") (strip part) || startswith (lit "{") (strip part)) eqn:Eb;
    [|exact Hrest].
  destruct (json_loads (strip part)) as [v0|] eqn:Ej; [|exact Hrest].
  intros [= <-]. apply orb_true_iff in Eb.
  destruct Eb as [Eb|Eb]; apply startswith_char in Eb.
  - exists part, (chr "["). split; [apply elem_of_cons; left; reflexivity|].
    split; [left; reflexivity|]. split; assumption.
  - exists part, (chr "{"). split; [apply elem_of_cons; left; reflexivity|].
    split; [right; reflexivity|]. split; assumption.
Qed.

(** Where a value that [safe_json_from_model] returns comes from: a piece
    of the model's text that [json.loads] reads as that value, which is the
    whole text without the white space around it or begins with a
    bracket. *)
Lemma safe_json_from_model_inv (raw : str) (v : value) :
  safe_json_from_model raw = Ok v ->
  exists c, piece_of c raw /\ json_loads c = Some v
            /\ (c = strip raw \/ exists o, is_bracket o /\ head c = Some o).
Proof.
  unfold safe_json_from_model.
  destruct (json_loads (strip raw)) as [v0|] eqn:Ed.
  { intros [= <-]. exists (strip raw). split; [apply strip_piece|].
    split; [exact Ed|left; reflexivity]. }
  destruct (fence_strategy (strip raw)) as [v1|] eqn:Ef.
  { intros [= <-]. unfold fence_strategy in Ef.
    destruct (contains (lit "```") (strip raw)); [|discriminate].
    destruct (fence_parts_inv _ _ Ef) as (part & o & Hin & Ho & Hh & Hj).
    exists (strip part). split.
    - apply (piece_of_trans _ part); [apply strip_piece|].
      apply (piece_of_trans _ (strip raw)); [|apply strip_piece].
      apply (split_go_piece (lit "```") (strip raw) 0 [] part); [left; reflexivity|exact Hin].
    - split; [exact Hj|right; exists o; split; assumption]. }
  rewrite scan_pairs_eq.
  assert (Hscan : forall o, is_bracket o ->
             bracket_scan (strip raw) o (closer o) = Some v ->
             exists c, piece_of c raw /\ json_loads c = Some v
                       /\ (c = strip raw \/ exists o, is_bracket o /\ head c = Some o)).
  { intros o Ho Hb. pose proof (bracket_scan_spec (strip raw) o Ho) as Hspec.
    rewrite Hb in Hspec. destruct Hspec as (start & n & Hfind & Hj & _).
    destruct (find_char_Some o _ _ Hfind) as (a & b & Hraw & Hlen & _).
    exists (take n (drop start (strip raw))). split.
    - apply (piece_of_trans _ (strip raw)); [|apply strip_piece].
      exists (take start (strip raw)), (drop n (drop start (strip raw))).
      rewrite take_drop, take_drop. reflexivity.
    - split; [exact Hj|]. right. exists o. split; [exact Ho|].
      rewrite Hraw, <- Hlen, drop_app_length.
      destruct n as [|n]; [cbn in Hj; rewrite Hraw, <- Hlen in Hj|reflexivity].
      rewrite take_0 in Hj. rewrite json_loads_nil in Hj. discriminate. }
  destruct (bracket_scan (strip raw) (chr "[") (closer (chr "["))) as [v2|] eqn:E1.
  { intros [= <-]. apply (Hscan (chr "[")); [left; reflexivity|exact E1]. }
  destruct (bracket_scan (strip raw) (chr "{") (closer (chr "{"))) as [v3|] eqn:E2;
    [|discriminate].
  intros [= <-]. apply (Hscan (chr "{")); [right; reflexivity|exact E2].
Qed.

(** X2: [safe_json_from_model] makes nothing up: the value it returns is
    what [json.loads] reads from some piece of the model's text, taken as it
    stands in the text. *)
Theorem recovered_value_is_read_from_text (raw : str) (v : value)
    (H : safe_json_from_model raw = Ok v) :
  exists c, piece_of c raw /\ json_loads c = Some v.
Proof.
  destruct (safe_json_from_model_inv raw v H) as (c & Hp & Hj & _). exists c. split; assumption.
Qed.

Lemma recovered_value_is_read_from_text_witness :
  exists c, piece_of c (lit "Sure! ```" ++ jlit "[1, {'a': null}]" ++ lit "``` Enjoy!")
            /\ json_loads c = Some (VList [VInt 1; VDict [(lit "a", VNone)]]).
Proof.
  apply (recovered_value_is_read_from_text
           (lit "Sure! ```" ++ jlit "[1, {'a': null}]" ++ lit "``` Enjoy!")).
  vm_compute. reflexivity.
Defined.

(** X3: a number, a string, a boolean or [None] is returned only when the
    whole text, without the white space around it, is that JSON value: the
    fence strategy and the bracket scan return lists and dicts only. *)
Theorem scalar_only_by_direct_parse (raw : str) (v : value)
    (H : safe_json_from_model raw = Ok v) (Hv : is_container v = false) :
  json_loads (strip raw) = Some v.
Proof.
  destruct (safe_json_from_model_inv raw v H) as (c & _ & Hj & [-> |(o & Ho & Hh)]);
    [exact Hj|].
  rewrite (json_loads_container c o v Ho Hh Hj) in Hv. discriminate.
Qed.

Lemma scalar_only_by_direct_parse_witness :
  json_loads (strip (lit "  42 ")) = Some (VInt 42).
Proof.
  apply (scalar_only_by_direct_parse (lit "  42 ") (VInt 42)); reflexivity.
Defined.

(** ** [app.py] *)

Lemma voice_pipeline_import_fails (builtins : VoicePipeline.namespace) :
  builtins !! "AWS_REGION"%string = None ->
  (VoicePipeline.import_module builtins).2 = Raise (NameError "AWS_REGION").
Proof.
  intros Hb.
  unfold VoicePipeline.import_module, VoicePipeline.module_body.
  cbn [VoicePipeline.exec VoicePipeline.import VoicePipeline.assign
       VoicePipeline.const VoicePipeline.def].
  set (g := <["BEDROCK_REGION"%string := _]> _).
  assert (Hg : g !! "AWS_REGION"%string = None) by (subst g; vm_compute; reflexivity).
  assert (Hboto : g !! "boto3"%string = Some (VoicePipeline.OModule "boto3"))
    by (subst g; vm_compute; reflexivity).
  rewrite (client_of_undefined_region builtins g _ _ _ _ Hboto Hg Hb). reflexivity.
Qed.

Lemma exec_app (a b : list VoicePipeline.stmt) (g : VoicePipeline.namespace) :
  VoicePipeline.exec (a ++ b) g
  = match VoicePipeline.exec a g with
    | (g', Ok _) => VoicePipeline.exec b g'
    | (g', Raise err) => (g', Raise err)
    end.
Proof.
  revert g. induction a as [|s a IH]; intros g; [reflexivity|].
  cbn [app VoicePipeline.exec]. destruct (s g) as [g' [[]|err]]; [apply IH|reflexivity].
Qed.

(** X27: importing [app.py] never gets past its imports.  When the modules
    from outside import, the import of [voice_pipeline] raises [NameError]
    for [AWS_REGION]; otherwise the first import that fails raises.  In
    both cases nothing that follows the imports runs: [main] is never
    defined and [handle_voice_interaction] is never bound. *)
Theorem app_import_never_completes (builtins : VoicePipeline.namespace)
    (env : App.imports) (rest : list VoicePipeline.stmt)
    (Hb : builtins !! "AWS_REGION"%string = None) :
  exists globals err,
    App.import_module builtins env rest = (globals, Raise err)
    /\ globals !! "main"%string = None
    /\ globals !! "handle_voice_interaction"%string = None
    /\ (App.import_streamlit env = Ok tt -> App.import_mic_recorder env = Ok tt ->
        App.import_entxp env = Ok tt -> App.import_frontend env = Ok tt ->
        err = NameError "AWS_REGION").
Proof.
  unfold App.import_module. rewrite exec_app.
  pose proof (voice_pipeline_import_fails builtins Hb) as Hvp.
  unfold App.module_imports.
  cbn [VoicePipeline.exec VoicePipeline.import App.import_external fold_left].
  destruct env as [[[]|e1] [[]|e2] [[]|e3] [[]|e4]];
    cbn [App.import_streamlit App.import_mic_recorder App.import_entxp
         App.import_frontend fold_left];
    try (eexists _, _; split; [reflexivity|];
         split; [vm_compute; reflexivity|]; split; [vm_compute; reflexivity|];
         intros; discriminate).
  unfold App.from_voice_pipeline_import.
  destruct (VoicePipeline.import_module builtins) as [m r]. cbn [snd] in Hvp. subst r.
  eexists _, _. split; [reflexivity|].
  split; [vm_compute; reflexivity|]. split; [vm_compute; reflexivity|].
  intros _ _ _ _. reflexivity.
Qed.

Lemma app_import_never_completes_witness :
  exists globals err,
    App.import_module ∅ (App.mk_imports (Ok tt) (Ok tt) (Ok tt) (Ok tt)) []
    = (globals, Raise err)
    /\ globals !! "main"%string = None
    /\ globals !! "handle_voice_interaction"%string = None
    /\ (Ok tt = Ok tt -> Ok tt = Ok tt -> Ok tt = Ok tt -> Ok tt = Ok tt ->
        err = NameError "AWS_REGION").
Proof.
  apply (app_import_never_completes ∅ (App.mk_imports (Ok tt) (Ok tt) (Ok tt) (Ok tt)) []).
  reflexivity.
Defined.

Lemma list_remove_first (x : str) (l : list str) :
  x ∈ l ->
  exists a b, l = a ++ x :: b /\ App.list_remove x l = Ok (a ++ b).
Proof.
  induction l as [|y l IH]; intros Hin; [apply elem_of_nil in Hin; contradiction|].
  cbn [App.list_remove]. destruct (eqb_str y x) eqn:E.
  - apply eqb_str_eq in E. subst y. exists [], l. split; reflexivity.
  - apply elem_of_cons in Hin as [->|Hin]; [rewrite eqb_str_refl in E; discriminate|].
    destruct (IH Hin) as (a & b & -> & Hr). exists (y :: a), b.
    split; [reflexivity|]. unfold rbind. rewrite Hr. reflexivity.
Qed.

Lemma list_remove_absent (x : str) (l : list str) :
  x ∉ l -> App.list_remove x l = Raise (ValueError (lit "list.remove(x): x not in list")).
Proof.
  induction l as [|y l IH]; intros Hin; [reflexivity|].
  cbn [App.list_remove]. apply not_elem_of_cons in Hin as [Hne Hin].
  rewrite (eqb_str_neq y x) by congruence.
  unfold rbind. rewrite (IH Hin). reflexivity.
Qed.

(** X28: [avatar_selector_page] draws every label once, the selected one at
    the centre of the arc (position [len // 2]) and the others in the order
    of the options; a selection that is not among the options makes the
    page raise [ValueError]. *)
Theorem selected_avatar_at_centre (labels : list str) (selected : str) :
  (selected ∈ labels ->
   exists l,
     App.arc_order labels selected = Ok l
     /\ l ≡ₚ labels
     /\ l !! (length labels / 2)%nat = Some selected
     /\ List.filter (fun x => negb (eqb_str x selected)) l
        = List.filter (fun x => negb (eqb_str x selected)) labels)
  /\ (selected ∉ labels ->
      App.arc_order labels selected
      = Raise (ValueError (lit "list.remove(x): x not in list"))).
Proof.
  split.
  - intros Hin. destruct (list_remove_first selected labels Hin) as (a & b & Hl & Hr).
    unfold App.arc_order, rbind. rewrite Hr. eexists. split; [reflexivity|].
    unfold App.list_insert.
    set (c := (length labels / 2)%nat). set (m := a ++ b).
    assert (Hc : (c <= length m)%nat).
    { subst c m. rewrite Hl, !length_app. cbn [length].
      assert ((length a + S (length b)) / 2 < length a + S (length b))%nat
        by (apply Nat.div_lt; lia).
      lia. }
    split; [|split].
    + rewrite Hl. subst m.
      rewrite <- Permutation_middle, <- Permutation_middle.
      rewrite take_drop. reflexivity.
    + rewrite lookup_app_r by (rewrite length_take; lia).
      rewrite length_take. replace (c - c `min` length m)%nat with 0%nat by lia.
      reflexivity.
    + rewrite List.filter_app. cbn [List.filter]. rewrite eqb_str_refl. cbn [negb].
      rewrite <- List.filter_app, take_drop. subst m. rewrite Hl.
      rewrite !List.filter_app. cbn [List.filter]. rewrite eqb_str_refl. reflexivity.
  - intros Hin. unfold App.arc_order, rbind. rewrite (list_remove_absent _ _ Hin). reflexivity.
Qed.

Lemma selected_avatar_at_centre_witness :
  exists l,
    App.arc_order App.avatar_labels (lit "A fashion influencer") = Ok l
    /\ l ≡ₚ App.avatar_labels
    /\ l !! (length App.avatar_labels / 2)%nat = Some (lit "A fashion influencer")
    /\ List.filter (fun x => negb (eqb_str x (lit "A fashion influencer"))) l
       = List.filter (fun x => negb (eqb_str x (lit "A fashion influencer")))
                     App.avatar_labels.
Proof.
  apply (proj1 (selected_avatar_at_centre App.avatar_labels (lit "A fashion influencer"))).
  unfold App.avatar_labels. do 4 (apply elem_of_cons; right).
  apply elem_of_cons. left. reflexivity.
Defined.

(** X29: sending a recording adds to the history either nothing, when the
    voice turn raises, or exactly two entries, the user's and then the
    agent's.  The agent's entry carries the reply itself, which is never
    empty, and the path of the reply file made for this turn: for the agent
    neither the placeholder text nor the substitute path is ever used.  The
    user's entry carries the transcript, or the placeholder when the
    transcript is empty. *)
Theorem send_voice_appends_two_turns (e : VoicePipeline.aws)
    (audio_dir uuid1 uuid2 session_id : str) (history : list value) :
  let reply_audio_path := App.path_join audio_dir (uuid2 ++ lit "_reply.mp3") in
  match App.send_voice e audio_dir uuid1 uuid2 session_id history with
  | (t, history', Ok _) =>
    exists user_text agent_reply,
      VoicePipeline.handle_voice_interaction e
        (App.path_join audio_dir (uuid1 ++ lit "_user.wav")) reply_audio_path session_id
      = (t, Ok (user_text, agent_reply, reply_audio_path))
      /\ agent_reply <> []
      /\ history'
         = history
             ++ [App.turn (lit "user") (App.or_text user_text App.placeholder) VNone;
                 App.turn (lit "agent") agent_reply (VStr reply_audio_path)]
  | (t, history', Raise _) => history' = history
  end.
Proof.
  intros reply_audio_path. unfold App.send_voice. fold reply_audio_path.
  destruct (VoicePipeline.handle_voice_interaction e
              (App.path_join audio_dir (uuid1 ++ lit "_user.wav")) reply_audio_path
              session_id) as [t [[[u a] f]|err]] eqn:E; [|reflexivity].
  destruct (voice_turn_inv _ _ _ _ _ _ _ _ E) as (-> & Ha & _).
  exists u, a. split; [reflexivity|]. split; [exact Ha|].
  assert (Hp : reply_audio_path <> []).
  { subst reply_audio_path. unfold App.path_join.
    intros H. apply app_eq_nil in H as [_ H]. discriminate H. }
  destruct reply_audio_path as [|c p]; [contradiction|].
  destruct a as [|x a]; [contradiction|]. reflexivity.
Qed.
